(** * Pixora backend: the account-linking subsystem

    A shallow embedding of the two linking flows of the repository:

    - [src/server.js]: the Telegram Login Widget callback
      ([validateTelegramHash] and the [GET /api/auth/telegram] handler);
    - [src/unnamed/part_000]: the code-pairing flow ([linkingCodes], the
      [POST /api/link/initiate] handler, the [bot.on('text')] listener);
    - [getTelegramChatId], which both files define identically.

    and of what stands around them: [authMiddleware] and the upload,
    gallery and status routes of both files, and [src/tunnel.js].

    JavaScript strings are sequences of UTF-16 code units, the in-memory
    [Map] and the database table are finite maps, and every [await] is a
    point at which other handlers may run. *)

From stdpp Require Import gmap list sorting strings.
From Stdlib Require Import ZArith DecimalString.
From Stdlib Require Import DecimalZ.
Local Open Scope Z_scope.

(** ** JavaScript values *)

(** A JavaScript string: its UTF-16 code units. *)
Abbreviation jsstring := (list Z).
Abbreviation bytes := (list Z).

(** String literals of the source (all of them ASCII). *)
Definition js (s : string) : jsstring :=
  (λ a, Z.of_N (Ascii.N_of_ascii a)) <$> String.list_ascii_of_string s.

Module JS.

(** [ToBoolean] on a value that is a string, [undefined] or [null]. *)
Definition truthy (v : option jsstring) : bool :=
  match v with
  | Some (_ :: _) => true
  | _ => false
  end.

(** [x < y] on strings: the first differing code unit decides, a proper
    prefix is smaller. *)
Fixpoint str_ltb (x y : jsstring) : bool :=
  match x, y with
  | _, [] => false
  | [], _ :: _ => true
  | a :: x', b :: y' =>
      if a <? b then true else if b <? a then false else str_ltb x' y'
  end.

(** The order [Array.prototype.sort] produces without a comparator:
    [x] may stand before [y] when [y < x] is false. *)
Definition str_le (x y : jsstring) : Prop := str_ltb y x = false.

#[export] Instance str_le_dec : RelDecision str_le :=
  λ x y, decide (str_ltb y x = false).

(** [array.sort()] on an array of strings.  The order is total and
    antisymmetric, so the sorted array does not depend on the sorting
    algorithm of the engine. *)
Definition sort (l : list jsstring) : list jsstring := merge_sort str_le l.

(** [array.join(sep)] *)
Fixpoint join (sep : jsstring) (l : list jsstring) : jsstring :=
  match l with
  | [] => []
  | [x] => x
  | x :: l' => x ++ sep ++ join sep l'
  end.

(** [Object.keys(o)]; the callers below sort what they build from it. *)
Definition keys (o : gmap jsstring jsstring) : list jsstring :=
  (map_to_list o).*1.

(** [`${o[key]}`]: a missing property renders as [undefined]. *)
Definition get (o : gmap jsstring jsstring) (key : jsstring) : jsstring :=
  default (js "undefined") (o !! key).

(** [`${v}`] for an environment variable. *)
Definition template (v : option jsstring) : jsstring :=
  default (js "undefined") v.

(** WhiteSpace and LineTerminator code units of ECMAScript. *)
Definition is_white_space (c : Z) : bool :=
  bool_decide (c ∈ [0x09; 0x0A; 0x0B; 0x0C; 0x0D; 0x20; 0xA0; 0x1680;
                    0x2028; 0x2029; 0x202F; 0x205F; 0x3000; 0xFEFF])
  || ((0x2000 <=? c) && (c <=? 0x200A)).

Fixpoint trimStart (s : jsstring) : jsstring :=
  match s with
  | c :: s' => if is_white_space c then trimStart s' else s
  | [] => []
  end.

(** [s.trim()] *)
Definition trim (s : jsstring) : jsstring :=
  reverse (trimStart (reverse (trimStart s))).

(** [n.toString()] for an integer [n] (Telegram identifiers are safe
    integers, printed in decimal). *)
Definition Number_toString (n : Z) : jsstring :=
  js (NilZero.string_of_int (Z.to_int n)).

(** [s.toUpperCase()] follows the Unicode case mappings of the engine;
    they are taken as given. *)
Class CaseMapping := { toUpperCase : jsstring → jsstring }.

(** The ASCII part of [toUpperCase]: [a]..[z] become [A]..[Z], every
    other ASCII code unit is unchanged. *)
Definition ascii_toUpperCase (s : jsstring) : jsstring :=
  (λ c, if (97 <=? c) && (c <=? 122) then c - 32 else c) <$> s.

End JS.

(** ** Node's [crypto] and [Buffer] *)

Module Crypto.

(** [Buffer.from(s, 'utf8')], the encoding [update(s)] applies to a
    string: surrogate pairs become four bytes, a lone surrogate becomes
    U+FFFD. *)
Definition is_high (c : Z) : bool := (0xD800 <=? c) && (c <=? 0xDBFF).
Definition is_low (c : Z) : bool := (0xDC00 <=? c) && (c <=? 0xDFFF).
Definition replacement : bytes := [0xEF; 0xBF; 0xBD].

Definition utf8_3 (c : Z) : bytes :=
  [0xE0 + c / 4096; 0x80 + (c / 64) mod 64; 0x80 + c mod 64].

Definition utf8_4 (hi lo : Z) : bytes :=
  let cp := 0x10000 + (hi - 0xD800) * 1024 + (lo - 0xDC00) in
  [0xF0 + cp / 262144; 0x80 + (cp / 4096) mod 64;
   0x80 + (cp / 64) mod 64; 0x80 + cp mod 64].

Fixpoint utf8 (s : jsstring) : bytes :=
  match s with
  | [] => []
  | c :: s' =>
      if c <? 0x80 then c :: utf8 s'
      else if c <? 0x800 then [0xC0 + c / 64; 0x80 + c mod 64] ++ utf8 s'
      else if is_high c then
        match s' with
        | d :: s'' =>
            if is_low d then utf8_4 c d ++ utf8 s''
            else replacement ++ utf8 s'
        | [] => replacement
        end
      else if is_low c then replacement ++ utf8 s'
      else utf8_3 c ++ utf8 s'
  end.

(** The bytes of one code unit that is not a surrogate. *)
Definition utf8_unit (c : Z) : bytes :=
  if c <? 0x80 then [c]
  else if c <? 0x800 then [0xC0 + c / 64; 0x80 + c mod 64]
  else utf8_3 c.

(** SHA-256 (FIPS 180-4) on 32-bit words held in [Z]. *)
Definition w32 (x : Z) : Z := x mod 2^32.
Definition add32 (x y : Z) : Z := w32 (x + y).
Definition rotr (n x : Z) : Z :=
  Z.lor (Z.shiftr x n) (w32 (Z.shiftl x (32 - n))).
Definition not32 (x : Z) : Z := 2^32 - 1 - x.
Definition Ch (x y z : Z) : Z := Z.lxor (Z.land x y) (Z.land (not32 x) z).
Definition Maj (x y z : Z) : Z :=
  Z.lxor (Z.lxor (Z.land x y) (Z.land x z)) (Z.land y z).
Definition Sigma0 (x : Z) : Z :=
  Z.lxor (Z.lxor (rotr 2 x) (rotr 13 x)) (rotr 22 x).
Definition Sigma1 (x : Z) : Z :=
  Z.lxor (Z.lxor (rotr 6 x) (rotr 11 x)) (rotr 25 x).
Definition sigma0 (x : Z) : Z :=
  Z.lxor (Z.lxor (rotr 7 x) (rotr 18 x)) (Z.shiftr x 3).
Definition sigma1 (x : Z) : Z :=
  Z.lxor (Z.lxor (rotr 17 x) (rotr 19 x)) (Z.shiftr x 10).

(** The first 64 primes. *)
Definition is_prime (n : Z) : bool :=
  forallb (λ d, negb (n mod d =? 0)) (seqZ 2 (Z.sqrt n - 1)).
Definition primes64 : list Z := filter (λ n, is_prime n = true) (seqZ 2 310).

(** The integer cube root of [n < 2^(3 * bits)], one bit at a time. *)
Fixpoint cbrt_bits (bits : nat) (n r : Z) : Z :=
  match bits with
  | O => r
  | S b =>
      let r' := r + 2 ^ Z.of_nat b in
      cbrt_bits b n (if r' * r' * r' <=? n then r' else r)
  end.

(** The round constants: the first 32 bits of the fractional parts of the
    cube roots of the first 64 primes. *)
Definition K256 : list Z :=
  (λ p, w32 (cbrt_bits 36 (p * 2 ^ 96) 0)) <$> primes64.

(** The initial hash value: the same of the square roots of the first 8
    primes. *)
Definition H256 : list Z :=
  (λ p, w32 (Z.sqrt (p * 2 ^ 64))) <$> take 8 primes64.

(** [x] on [n] bytes, most significant first. *)
Fixpoint be_bytes (n : nat) (x : Z) : bytes :=
  match n with
  | O => []
  | S n' => (Z.shiftr x (8 * Z.of_nat n')) mod 256 :: be_bytes n' x
  end.

Definition be_word (bs : bytes) : Z :=
  fold_left (λ acc b, acc * 256 + b) bs 0.

Definition pad (msg : bytes) : bytes :=
  let l := Z.of_nat (length msg) in
  msg ++ [0x80] ++ replicate (Z.to_nat ((55 - l) mod 64)) 0
      ++ be_bytes 8 (8 * l).

Fixpoint words (n : nat) (bs : bytes) : list Z :=
  match n with
  | O => []
  | S n' => be_word (take 4 bs) :: words n' (drop 4 bs)
  end.

(** The message schedule, newest word first. *)
Fixpoint schedule (n : nat) (rev_w : list Z) : list Z :=
  match n with
  | O => rev_w
  | S n' =>
      let w := add32 (add32 (sigma1 (nth 1 rev_w 0)) (nth 6 rev_w 0))
                     (add32 (sigma0 (nth 14 rev_w 0)) (nth 15 rev_w 0)) in
      schedule n' (w :: rev_w)
  end.

Definition round (st : list Z) (kw : Z * Z) : list Z :=
  match st with
  | [a; b; c; d; e; f; g; h] =>
      let t1 := add32 (add32 (add32 h (Sigma1 e)) (add32 (Ch e f g) kw.1))
                      kw.2 in
      let t2 := add32 (Sigma0 a) (Maj a b c) in
      [add32 t1 t2; a; b; c; add32 d t1; e; f; g]
  | _ => st
  end.

Definition compress (h : list Z) (block : bytes) : list Z :=
  let w := rev (schedule 48 (rev (words 16 block))) in
  zip_with add32 h (fold_left round (zip K256 w) h).

Fixpoint blocks (n : nat) (h : list Z) (bs : bytes) : list Z :=
  match n with
  | O => h
  | S n' => blocks n' (compress h (take 64 bs)) (drop 64 bs)
  end.

(** [crypto.createHash('sha256').update(msg).digest()] *)
Definition sha256 (msg : bytes) : bytes :=
  let p := pad msg in
  mjoin (be_bytes 4 <$> blocks (length p / 64) H256 p).

(** [crypto.createHmac('sha256', key).update(msg).digest()] (RFC 2104) *)
Definition hmac_sha256 (key msg : bytes) : bytes :=
  let k0 := if decide (64 < length key)%nat then sha256 key else key in
  let k := k0 ++ replicate (64 - length k0) 0 in
  sha256 (((λ b, Z.lxor b 0x5c) <$> k)
            ++ sha256 (((λ b, Z.lxor b 0x36) <$> k) ++ msg)).

Definition hex_digit (n : Z) : Z :=
  if decide (n < 10) then 48 + n else 87 + n.

(** [buffer.toString('hex')], also [digest('hex')]: lowercase digits. *)
Definition hex (bs : bytes) : jsstring :=
  mjoin ((λ b, [hex_digit (b / 16); hex_digit (b mod 16)]) <$> bs).

End Crypto.

(** ** The Credential Store: table [user_telegram_settings] *)

Module Supabase.

(** The [error] member of a supabase-js response. *)
Record PostgrestError := { code : jsstring }.

(** A row, keyed by its unique column [user_id]. *)
Record Row := {
  telegram_chat_id : jsstring;
  telegram_username : option jsstring
}.

Abbreviation Table := (gmap jsstring Row).

(** [{ data, error }] *)
Record Response := { data : option Row; error : option PostgrestError }.

Definition PGRST116 : PostgrestError := {| code := js "PGRST116" |}.

(** [.from('user_telegram_settings').select(..).eq('user_id', userId)
    .single()].  [failure] is what the environment decides for this
    call: [Some e] when the store cannot answer.  Without a failure,
    [single()] answers with the row, or with error [PGRST116] when there
    is none. *)
Definition select_single
    (tbl : Table) (userId : jsstring) (failure : option PostgrestError)
    : Response :=
  match failure with
  | Some e => {| data := None; error := Some e |}
  | None =>
      match tbl !! userId with
      | Some r => {| data := Some r; error := None |}
      | None => {| data := None; error := Some PGRST116 |}
      end
  end.

(** [.upsert({ user_id, telegram_chat_id, [telegram_username] },
    { onConflict: 'user_id' })].  A column the call does not name keeps
    its value in an existing row and is NULL in a new one.  A failed
    call writes nothing. *)
Definition upsert
    (tbl : Table) (user_id chat_id : jsstring)
    (username : option (option jsstring))
    (failure : option PostgrestError) : Table * option PostgrestError :=
  match failure with
  | Some e => (tbl, Some e)
  | None =>
      let kept := r ← tbl !! user_id; telegram_username r in
      (<[user_id := {| telegram_chat_id := chat_id;
                       telegram_username := default kept username |}]> tbl,
       None)
  end.

End Supabase.

(** ** What a handler lets the outside see *)

(** The three texts of [ctx.reply] in the text handler, which the
    specification names Success, PersistenceFailed and Unrecognized. *)
Inductive Reply :=
| ReplySuccess   (* "Success! Your web gallery account is now linked ..." *)
| ReplyError     (* "Error linking your account. Please try again later." *)
| ReplyHelp.     (* "Hello! This bot is for private file storage. ..." *)

(** [console.error(line, ..)], [res.redirect(url)], an exception that
    nothing catches, [res.status(status).send({ linked, code, .. })] (the
    texts [message] and [instructions] of the body are left out) and
    [ctx.reply(..)] to the chat of the message. *)
Inductive Output :=
| ConsoleError (line : jsstring)
| Redirect (url : jsstring)
| Threw
| Send (status : Z) (linked : bool) (code : option jsstring)
| CtxReply (chat : Z) (r : Reply).

#[export] Instance Reply_eq_dec : EqDecision Reply.
Proof. solve_decision. Defined.
#[export] Instance Output_eq_dec : EqDecision Output.
Proof. solve_decision. Defined.

(** [getTelegramChatId(userId)], the same in both files. *)
Definition getTelegramChatId
    (tbl : Supabase.Table) (failure : option Supabase.PostgrestError)
    (userId : jsstring) : option jsstring * list Output :=
  let r := Supabase.select_single tbl userId failure in
  let log :=
    match Supabase.error r with
    | Some e =>
        if decide (Supabase.code e ≠ js "PGRST116")
        then [ConsoleError (js "Database Error retrieving chat ID:")]
        else []
    | None => []
    end in
  (Supabase.telegram_chat_id <$> Supabase.data r, log).

(** ** [src/server.js]: the widget flow *)

Module Widget.
Import JS Crypto.

(** [req.query]: field names to string values. *)
Abbreviation Query := (gmap jsstring jsstring).

Definition newline : jsstring := [0x0A].

(** The check-string [validateTelegramHash] builds. *)
Definition checkString (data : Query) : jsstring :=
  join newline
    (sort ((λ key, key ++ js "=" ++ get data key)
             <$> filter (λ key, key ≠ js "hash") (keys data))).

(** [validateTelegramHash(data)], with the module constant [BOT_TOKEN]
    ([process.env.TELEGRAM_BOT_TOKEN], possibly undefined) made an
    argument. *)
Definition validateTelegramHash
    (BOT_TOKEN : option jsstring) (data : Query) : bool :=
  if negb (truthy BOT_TOKEN) then false
  else
    let secretKey := sha256 (utf8 (template BOT_TOKEN)) in
    let calculatedHash :=
      hex (hmac_sha256 secretKey (utf8 (checkString data))) in
    bool_decide (Some calculatedHash = data !! js "hash").

(** [`${process.env.SUPABASE_URL}/auth/v1/callback?error=...`] *)
Definition callback (SUPABASE_URL : option jsstring) (e : string)
    : jsstring :=
  template SUPABASE_URL ++ js "/auth/v1/callback?error=" ++ js e.

(** [userData.username || null] *)
Definition or_null (v : option jsstring) : option jsstring :=
  if truthy v then v else None.

(** [app.get('/api/auth/telegram', ...)].  [session] is
    [session.data.session?.user.id] of [supabase.auth.getSession()],
    read from the server's own client; [failure] is the fate of the
    upsert. *)
Definition auth_telegram
    (BOT_TOKEN SUPABASE_URL : option jsstring) (tbl : Supabase.Table)
    (userData : Query) (session : option jsstring)
    (failure : option Supabase.PostgrestError)
    : Supabase.Table * list Output :=
  if negb (validateTelegramHash BOT_TOKEN userData) then
    (tbl, [ConsoleError (js "Telegram Auth Failed: Invalid hash signature.");
           Redirect (callback SUPABASE_URL "telegram_auth_failed")])
  else
    match userData !! js "id" with
    | None => (tbl, [Threw])
    | Some telegramChatId =>
        let currentSupabaseUserId := session in
        if negb (truthy currentSupabaseUserId) then
          (tbl, [ConsoleError (js "Telegram Auth Failed: No active Supabase session to link to.");
                 Redirect (callback SUPABASE_URL "no_active_supabase_session")])
        else
          let '(tbl', error) :=
            Supabase.upsert tbl (template currentSupabaseUserId)
              telegramChatId (Some (or_null (userData !! js "username")))
              failure in
          match error with
          | Some _ =>
              (tbl', [ConsoleError (js "Database link error:");
                      Redirect (callback SUPABASE_URL "database_link_failed")])
          | None => (tbl', [Redirect (js "/")])
          end
    end.

End Widget.

(** ** [src/unnamed/part_000]: the code-pairing flow *)

Module Pairing.
Import JS Crypto.

(** A value of the [linkingCodes] map. *)
Record Entry := { userId : jsstring; timestamp : Z }.

(** A [bot.on('text')] handler suspended at [await supabase...upsert]:
    its local variables. *)
Record Suspended := {
  receivedCode : jsstring;
  owner : jsstring;
  telegramChatId : jsstring;
  ctx_chat : Z
}.

(** The process and the store it talks to.  [clock] is the time in
    milliseconds, [timers] the callbacks [setTimeout] holds (due time and
    the code the callback deletes), [awaiting] the suspended handlers. *)
Record State := {
  linkingCodes : gmap jsstring Entry;
  timers : list (Z * jsstring);
  clock : Z;
  user_telegram_settings : gmap jsstring Supabase.Row;
  awaiting : list Suspended
}.

Definition initial (tbl : gmap jsstring Supabase.Row) (t0 : Z) : State :=
  {| linkingCodes := ∅; timers := []; clock := t0;
     user_telegram_settings := tbl; awaiting := [] |}.

Definition with_linkingCodes (m : gmap jsstring Entry) (s : State) :=
  {| linkingCodes := m; timers := timers s; clock := clock s;
     user_telegram_settings := user_telegram_settings s;
     awaiting := awaiting s |}.

Definition with_timers (t : list (Z * jsstring)) (s : State) :=
  {| linkingCodes := linkingCodes s; timers := t; clock := clock s;
     user_telegram_settings := user_telegram_settings s;
     awaiting := awaiting s |}.

Definition with_clock (t : Z) (s : State) :=
  {| linkingCodes := linkingCodes s; timers := timers s; clock := t;
     user_telegram_settings := user_telegram_settings s;
     awaiting := awaiting s |}.

Definition with_table (tbl : gmap jsstring Supabase.Row) (s : State) :=
  {| linkingCodes := linkingCodes s; timers := timers s; clock := clock s;
     user_telegram_settings := tbl; awaiting := awaiting s |}.

Definition with_awaiting (a : list Suspended) (s : State) :=
  {| linkingCodes := linkingCodes s; timers := timers s; clock := clock s;
     user_telegram_settings := user_telegram_settings s; awaiting := a |}.

(** [10 * 60 * 1000] milliseconds *)
Definition TTL : Z := 10 * 60 * 1000.

(** The code [c], issued at [t0], is in the registry only while the timer
    set for it is pending and [t0 + TTL] has not come. *)
Definition within_ttl (c : jsstring) (t0 : Z) (s : State) : Prop :=
  is_Some (linkingCodes s !! c) →
  (t0 + TTL, c) ∈ timers s ∧ clock s < t0 + TTL.

(** What the environment hands to the process: a request to
    [/api/link/initiate] whose lookup is answered ([failure] says how) and
    whose code is drawn from [randomBytes]; a text message; the answer to
    the upsert of the [i]-th suspended text handler; the passing of [dt]
    milliseconds; a request to [/api/auth/telegram]. *)
Inductive Event :=
| Initiate (userId : jsstring) (failure : option Supabase.PostgrestError)
           (randomBytes : Byte.byte * Byte.byte * Byte.byte)
| Text (text : jsstring) (chat_id : Z)
| Settled (i : nat) (failure : option Supabase.PostgrestError)
| Elapse (dt : Z)
| WidgetCallback (userData : Widget.Query) (session : option jsstring)
                 (failure : option Supabase.PostgrestError).

Section Handlers.
Context `{!CaseMapping}.
Context (BOT_TOKEN SUPABASE_URL : option jsstring).

(** [crypto.randomBytes(3).toString('hex').toUpperCase()] *)
Definition generate (randomBytes : Byte.byte * Byte.byte * Byte.byte)
    : jsstring :=
  let '(b0, b1, b2) := randomBytes in
  toUpperCase (hex ((λ b, Z.of_N (Byte.to_N b)) <$> [b0; b1; b2])).

(** [app.post('/api/link/initiate', authMiddleware, ...)], entered
    with [req.userId] set by [authMiddleware].  The lookup it awaits
    first changes nothing, so the handler is one step, taken when the
    lookup has been answered. *)
Definition link_initiate
    (s : State) (userId : jsstring)
    (failure : option Supabase.PostgrestError)
    (randomBytes : Byte.byte * Byte.byte * Byte.byte)
    : State * list Output :=
  let '(existingLink, log) :=
    getTelegramChatId (user_telegram_settings s) failure userId in
  if truthy existingLink then (s, log ++ [Send 200 true None])
  else
    let code := generate randomBytes in
    let s1 :=
      with_linkingCodes
        (<[code := {| userId := userId; timestamp := clock s |}]>
           (linkingCodes s)) s in
    let s2 := with_timers (timers s1 ++ [(clock s + TTL, code)]) s1 in
    (s2, log ++ [Send 200 false (Some code)]).

(** [bot.on('text', ...)] up to its [await]. *)
Definition on_text (s : State) (text : jsstring) (chat_id : Z)
    : State * list Output :=
  let receivedCode := toUpperCase (trim text) in
  let telegramChatId := Number_toString chat_id in
  match linkingCodes s !! receivedCode with
  | Some e =>
      (with_awaiting
         (awaiting s ++ [{| receivedCode := receivedCode;
                            owner := userId e;
                            telegramChatId := telegramChatId;
                            ctx_chat := chat_id |}]) s,
       [])
  | None => (s, [CtxReply chat_id ReplyHelp])
  end.

(** [bot.on('text', ...)] from its [await] on, with the [error] the
    upsert came back with. *)
Definition on_text_resume
    (s : State) (k : Suspended) (error : option Supabase.PostgrestError)
    : State * list Output :=
  match error with
  | Some _ =>
      (s, [ConsoleError (js "Database link error:");
           CtxReply (ctx_chat k) ReplyError])
  | None =>
      (with_linkingCodes (delete (receivedCode k) (linkingCodes s)) s,
       [CtxReply (ctx_chat k) ReplySuccess])
  end.

(** The store carries out the upsert of the [i]-th suspended handler, or
    fails to, and answers; the handler resumes. *)
Definition settle
    (s : State) (i : nat) (failure : option Supabase.PostgrestError)
    : State * list Output :=
  match awaiting s !! i with
  | None => (s, [])
  | Some k =>
      let '(tbl, error) :=
        Supabase.upsert (user_telegram_settings s) (owner k)
          (telegramChatId k) None failure in
      on_text_resume
        (with_table tbl (with_awaiting (delete i (awaiting s)) s))
        k error
  end.

(** Time passes (it does not go back); every [setTimeout] callback that
    is due by then runs [linkingCodes.delete(code)], before any handler
    that starts later. *)
Definition elapse (s : State) (dt : Z) : State :=
  let now := clock s + Z.max 0 dt in
  let due := filter (λ t, t.1 ≤ now) (timers s) in
  with_clock now
    (with_timers (filter (λ t, ¬ t.1 ≤ now) (timers s))
       (with_linkingCodes
          (foldr (λ t m, delete t.2 m) (linkingCodes s) due) s)).

Definition step (s : State) (ev : Event) : State * list Output :=
  match ev with
  | Initiate userId failure randomBytes =>
      link_initiate s userId failure randomBytes
  | Text text chat_id => on_text s text chat_id
  | Settled i failure => settle s i failure
  | Elapse dt => (elapse s dt, [])
  | WidgetCallback userData session failure =>
      let '(tbl, out) :=
        Widget.auth_telegram BOT_TOKEN SUPABASE_URL
          (user_telegram_settings s) userData session failure in
      (with_table tbl s, out)
  end.

Fixpoint run (s : State) (evs : list Event) : State * list Output :=
  match evs with
  | [] => (s, [])
  | ev :: evs' =>
      let '(s1, out1) := step s ev in
      let '(s2, out2) := run s1 evs' in
      (s2, out1 ++ out2)
  end.

(** An event that brings the code [c] into the registry. *)
Definition issues (c : jsstring) (ev : Event) : Prop :=
  match ev with
  | Initiate _ _ randomBytes => generate randomBytes = c
  | _ => False
  end.

(** A suspended handler whose upsert was issued by a message that presented
    a code then live in the registry, for the owner of that code and the
    chat the message came from. *)
Definition justified (s0 : State) (evs : list Event) (k : Suspended)
    : Prop :=
  ∃ evs1 text chat_id evs2 e,
    evs = evs1 ++ Text text chat_id :: evs2
    ∧ linkingCodes (run s0 evs1).1 !! toUpperCase (trim text) = Some e
    ∧ receivedCode k = toUpperCase (trim text)
    ∧ owner k = userId e
    ∧ telegramChatId k = Number_toString chat_id.

End Handlers.

(** A text handler that runs to its end with nothing in between: the
    handler, then the answer to the upsert it has just issued. *)
Definition redeem `{!CaseMapping}
    (s : State) (text : jsstring) (chat_id : Z)
    (failure : option Supabase.PostgrestError) : State * list Output :=
  let '(s1, out1) := on_text s text chat_id in
  let '(s2, out2) := settle s1 (length (awaiting s)) failure in
  (s2, out1 ++ out2).

End Pairing.

Import JS Crypto Widget Pairing.

(** ** The verification rule as the specification words it (§4.1) *)

Module Spec.
Import JS Crypto.

(** "render each as key=value" *)
Definition render (field : jsstring * jsstring) : jsstring :=
  field.1 ++ js "=" ++ field.2.

(** "every field of payload except hash" *)
Definition fields (P : Widget.Query) : list (jsstring * jsstring) :=
  map_to_list (delete (js "hash") P).

(** "ascending, byte-wise": the UTF-8 bytes of two strings, the bytes the
    HMAC is computed over, compared lexicographically. *)
Definition bytewise_le (x y : jsstring) : Prop :=
  str_le (utf8 x) (utf8 y).

#[global] Instance bytewise_le_dec : RelDecision bytewise_le :=
  λ x y, decide (str_le (utf8 x) (utf8 y)).

(** Step 1, parameterised by the order the strings are sorted in. *)
Definition checkString_by
    (le : relation jsstring) `{!RelDecision le} (P : Widget.Query)
    : jsstring :=
  join Widget.newline (merge_sort le (render <$> fields P)).

(** Steps 2 and 3: the lowercase-hex HMAC-SHA256 of the check-string,
    keyed with the raw SHA256 digest of the secret. *)
Definition signature_of (S checkString : jsstring) : jsstring :=
  hex (hmac_sha256 (sha256 (utf8 S)) (utf8 checkString)).

(** The signature of the claim: strings sorted byte-wise. *)
Definition signature_bytewise (S : jsstring) (P : Widget.Query) : jsstring :=
  signature_of S (checkString_by bytewise_le P).

(** The same with the strings sorted by UTF-16 code units. *)
Definition signature_code_units (S : jsstring) (P : Widget.Query)
    : jsstring :=
  signature_of S (checkString_by str_le P).

(** A string without surrogate code units: all of its characters are in
    the Basic Multilingual Plane. *)
Definition bmp_unit (c : Z) : Prop :=
  0 ≤ c < 0x10000 ∧ ¬ (0xD800 ≤ c ≤ 0xDFFF).
Definition bmp (s : jsstring) : Prop := Forall bmp_unit s.
Definition bmp_payload (P : Widget.Query) : Prop :=
  map_Forall (λ k v, bmp k ∧ bmp v) P.

#[global] Instance bmp_unit_dec c : Decision (bmp_unit c).
Proof. unfold bmp_unit. apply _. Defined.
#[global] Instance bmp_dec s : Decision (bmp s).
Proof. unfold bmp. apply _. Defined.
#[global] Instance bmp_payload_dec P : Decision (bmp_payload P).
Proof. unfold bmp_payload. apply _. Defined.

End Spec.

(** ** Concrete payloads and states used below *)

Module Samples.

(** A payload that holds nothing but the signature an empty secret would
    give the empty check-string. *)
Definition only_hash : Widget.Query :=
  {[ js "hash" :=
       js "bfe4527091e7291c5b9a9359c579a97302ba3a7d969994f80a562db7bad4315c" ]}.

(** Two fields named U+FF5E and U+1F600 (a surrogate pair), signed for the
    secret [T] over the check-string that has the pair first. *)
Definition astral : Widget.Query :=
  <[ [0xFF5E] := js "1" ]>
    (<[ [0xD83D; 0xDE00] := js "1" ]>
       {[ js "hash" :=
            js "a296f5de82768bef413273e835915981134ff15d27d41aaee2e5141a54da431f" ]}).

(** The scenario of §8: [{id: "5", first_name: "Bo", hash}] signed for the
    secret [T]. *)
Definition bo : Widget.Query :=
  <[ js "id" := js "5" ]>
    (<[ js "first_name" := js "Bo" ]>
       {[ js "hash" :=
            js "c9a706804c61e507932cdbcbad212bc018fa88253a6913f3bcb66d0201449760" ]}).

(** The case mapping used in the concrete runs; the texts and codes in
    them are ASCII. *)
Definition ascii_case : CaseMapping := {| toUpperCase := ascii_toUpperCase |}.
Definition user42 : jsstring := js "user-42".
Definition linked : gmap jsstring Supabase.Row :=
  {[ user42 := {| Supabase.telegram_chat_id := js "998877";
                  Supabase.telegram_username := None |} ]}.
Definition query_canceled : Supabase.PostgrestError :=
  {| Supabase.code := js "57014" |}.
Definition A3B9C4 : Byte.byte * Byte.byte * Byte.byte :=
  (Byte.xa3, Byte.xb9, Byte.xc4).
Definition C0FFEE : Byte.byte * Byte.byte * Byte.byte :=
  (Byte.xc0, Byte.xff, Byte.xee).

End Samples.

Import Samples.

(** ** The routes behind [authMiddleware] (both files) *)

Module Http.
Import JS.

(** [s.startsWith(p)] *)
Fixpoint startsWith (p s : jsstring) : bool :=
  match p, s with
  | [], _ => true
  | _ :: _, [] => false
  | a :: p', b :: s' => (a =? b) && startsWith p' s'
  end.

(** [s.split(sep)] for a separator of one code unit: the pieces between
    the separators, empty ones included. *)
Fixpoint split (sep : Z) (s : jsstring) : list jsstring :=
  match s with
  | [] => [[]]
  | c :: s' =>
      if c =? sep then [] :: split sep s'
      else
        match split sep s' with
        | w :: ws => (c :: w) :: ws
        | [] => [[c]]
        end
  end.

(** [{ data: { user }, error }] of [supabase.auth.getUser(token)]; of the
    user only [user.id] is read. *)
Record UserResponse := { user : option jsstring; error : option jsstring }.

(** What [authMiddleware] ends in: a response of its own with status 401,
    or [next()] with [req.userId] set. *)
Inductive Auth :=
| Unauthorized (error : jsstring) (log : list Output)
| Next (userId : jsstring).

(** [authMiddleware(req, res, next)].  [authorization] is
    [req.headers.authorization]; [getUser] answers for the Supabase auth
    service, also for the token [undefined]. *)
Definition authMiddleware
    (getUser : option jsstring → UserResponse)
    (authorization : option jsstring) : Auth :=
  let authHeader := authorization in
  if negb (truthy authHeader)
     || negb (startsWith (js "Bearer ") (template authHeader))
  then Unauthorized (js "Unauthorized: No token provided") []
  else
    let token := split 32 (template authHeader) !! 1%nat in
    let r := getUser token in
    match error r, user r with
    | None, Some id => Next id
    | _, _ =>
        Unauthorized (js "Unauthorized: Invalid token")
          [ConsoleError (js "Authentication Error:")]
    end.

(** A route [app.METHOD(path, authMiddleware, handler)]: the handler runs
    only when the middleware calls [next()]. *)
Definition guarded {A}
    (getUser : option jsstring → UserResponse)
    (authorization : option jsstring) (handler : jsstring → A) : Auth + A :=
  match authMiddleware getUser authorization with
  | Next userId => inr (handler userId)
  | rejected => inl rejected
  end.

(** [req.file] as multer leaves it. *)
Record File := {
  buffer : bytes;
  originalname : jsstring;
  mimetype : jsstring
}.

(** The multipart request to [sendDocument]. *)
Record SendDocument := {
  url : jsstring;
  chat_id : jsstring;
  document : File;
  caption : jsstring
}.

(** What is read of Telegram's answer: [result.document], [result.photo]
    and the [file_id] of their elements, any of which may be missing. *)
Record TgFile := { file_id : option jsstring }.
Record TgResult := {
  result_document : option TgFile;
  result_photo : option (list TgFile)
}.

(** [await axios.post(..)] and the reading of its answer: the [result] of
    a 2xx response, or what the [catch] block receives, with its [message]
    and whether [error.response?.data] is there.  [Rejected] stands for
    the error axios throws and also for the [TypeError] of an answer
    without [data.result], which the same block catches. *)
Inductive Axios :=
| Resolved (result : TgResult)
| Rejected (message : jsstring) (response_data : bool).

(** A row of the table [files]; [uploaded_at] is filled in by the
    database. *)
Record FileRow := {
  user_id : jsstring;
  telegram_file_id : jsstring;
  original_filename : jsstring;
  mime_type : jsstring;
  uploaded_at : Z
}.

#[global] Instance File_eq_dec : EqDecision File.
Proof. solve_decision. Defined.
#[global] Instance FileRow_eq_dec : EqDecision FileRow.
Proof. solve_decision. Defined.

(** The bodies of the responses. *)
Inductive Body :=
| Error (error : jsstring)
| Linked (linked : bool)
| LinkedChat (linked : bool) (telegramChatId : option jsstring)
| Files (files : list FileRow)
| FilesLinked (files : list FileRow) (isLinked : bool)
| Uploaded
| UploadedAs (filename telegramId : jsstring).

(** What a handler of these routes does to the outside. *)
Inductive Effect :=
| Console (line : jsstring)
| Post (request : SendDocument)
| Respond (status : Z) (body : Body).

(** The console lines among the outputs of [getTelegramChatId]. *)
Definition console (out : list Output) : list Effect :=
  omap (λ o, match o with ConsoleError l => Some (Console l) | _ => None end)
       out.

(** [.from('files').insert({ .. })]: the row is appended, with the
    [uploaded_at] the database gives it; a failed call writes nothing. *)
Definition insert_file
    (files : list FileRow) (row : FileRow)
    (failure : option Supabase.PostgrestError)
    : list FileRow * option Supabase.PostgrestError :=
  match failure with
  | Some e => (files, Some e)
  | None => (files ++ [row], None)
  end.

(** [.from('files').select('*').eq('user_id', userId)
    .order('uploaded_at', { ascending: false })]: the rows of the user,
    the newest first.  Rows with the same [uploaded_at] come in the order
    the sort leaves them; the database may choose another one, and nothing
    below depends on it. *)
Definition newer (r1 r2 : FileRow) : Prop := uploaded_at r2 ≤ uploaded_at r1.

#[global] Instance newer_dec : RelDecision newer :=
  λ r1 r2, decide (uploaded_at r2 ≤ uploaded_at r1).

Definition select_files
    (files : list FileRow) (userId : jsstring)
    (failure : option Supabase.PostgrestError)
    : option (list FileRow) * option Supabase.PostgrestError :=
  match failure with
  | Some e => (None, Some e)
  | None =>
      (Some (merge_sort newer (filter (λ r, user_id r = userId) files)), None)
  end.

(** [array.pop()]: the last element, if any. *)
Definition pop {A} (l : list A) : option A := last l.

(** [result.document || (result.photo ? result.photo.pop() : null)], then
    [result?.file_id] *)
Definition telegramFileId (result : TgResult) : option jsstring :=
  let found :=
    match result_document result with
    | Some d => Some d
    | None =>
        match result_photo result with
        | Some sizes => pop sizes
        | None => None
        end
    end in
  d ← found; file_id d.

(** The texts in which the upload handlers of the two files differ, and
    whether the handler has the guard on the bot token. *)
Record UploadVariant := {
  token_guard : bool;
  not_linked : string;
  caption_prefix : string;
  detailed : bool
}.

(** [app.post('/api/upload', authMiddleware, upload.single('file'), ...)]
    after the middlewares.  [token] is [BOT_TOKEN] in [server.js] and
    [process.env.TELEGRAM_BOT_TOKEN] in the other file. *)
Definition upload_with
    (v : UploadVariant) (token : option jsstring)
    (tbl : Supabase.Table) (files : list FileRow)
    (userId : jsstring) (file : option File)
    (lookup : option Supabase.PostgrestError) (axios : Axios)
    (insert : option Supabase.PostgrestError) (at_ : Z)
    : list FileRow * list Effect :=
  match file with
  | None => (files, [Respond 400 (Error (js "No file provided."))])
  | Some file =>
      if token_guard v && negb (truthy token) then
        (files, [Respond 500 (Error (js "Bot token missing on server."))])
      else
        let '(telegramChatId, log) := getTelegramChatId tbl lookup userId in
        if negb (truthy telegramChatId) then
          (files, console log ++ [Respond 403 (Error (js (not_linked v)))])
        else
          let request :=
            {| url := js "https://api.telegram.org/bot" ++ template token
                        ++ js "/sendDocument";
               chat_id := template telegramChatId;
               document := file;
               caption := js (caption_prefix v) ++ originalname file |} in
          match axios with
          | Rejected message response_data =>
              (files,
               console log ++ [Post request]
                 ++ [Console (js "File upload fatal error:")]
                 ++ (if response_data
                     then [Console (js "Telegram API Error Response:")]
                     else [])
                 ++ [Respond 500 (Error (js "Upload failed: " ++ message))])
          | Resolved result =>
              let id := telegramFileId result in
              if negb (truthy id) then
                (files,
                 console log ++ [Post request]
                   ++ [Console (js "Telegram response missing file_id:");
                       Respond 500
                         (Error (js "Failed to retrieve permanent Telegram file ID."))])
              else
                let '(files', dbError) :=
                  insert_file files
                    {| user_id := userId;
                       telegram_file_id := template id;
                       original_filename := originalname file;
                       mime_type := mimetype file;
                       uploaded_at := at_ |} insert in
                match dbError with
                | Some _ =>
                    (files',
                     console log ++ [Post request]
                       ++ [Console (js "Supabase metadata save error:");
                           Respond 500
                             (Error (js "File uploaded but failed to save metadata to the database."))])
                | None =>
                    (files',
                     console log ++ [Post request]
                       ++ [Respond 201
                             (if detailed v
                              then UploadedAs (originalname file) (template id)
                              else Uploaded)])
                end
          end
  end.

End Http.

(** ** The other routes of [src/server.js] *)

Module ServerRoutes.
Import JS Http.

Definition variant : UploadVariant :=
  {| token_guard := true;
     not_linked := "Telegram account not linked.";
     caption_prefix := "Uploaded from Pixora: ";
     detailed := false |}.

(** [app.post('/api/upload', ...)] *)
Definition upload := upload_with variant.

(** [app.get('/api/gallery', authMiddleware, ...)] *)
Definition gallery
    (files : list FileRow) (userId : jsstring)
    (failure : option Supabase.PostgrestError) : list Effect :=
  match select_files files userId failure with
  | (_, Some _) =>
      [Respond 500 (Http.Error (js "Failed to retrieve files from database."))]
  | (rows, None) => [Respond 200 (Files (default [] rows))]
  end.

(** [app.get('/api/link/status', authMiddleware, ...)] *)
Definition link_status
    (tbl : Supabase.Table) (userId : jsstring)
    (failure : option Supabase.PostgrestError) : list Effect :=
  let '(telegramChatId, log) := getTelegramChatId tbl failure userId in
  console log ++ [Respond 200 (Linked (truthy telegramChatId))].

End ServerRoutes.

(** ** The other routes of [src/unnamed/part_000] *)

Module PairingRoutes.
Import JS Http.

Definition variant : UploadVariant :=
  {| token_guard := false;
     not_linked :=
       "Telegram account not linked. Please link your account first.";
     caption_prefix := "Uploaded from Web Gallery: ";
     detailed := true |}.

(** [app.post('/api/upload', ...)] *)
Definition upload := upload_with variant.

(** [app.get('/api/gallery', authMiddleware, ...)]; the chat id is looked
    up after the files were read. *)
Definition gallery
    (tbl : Supabase.Table) (files : list FileRow) (userId : jsstring)
    (failure lookup : option Supabase.PostgrestError) : list Effect :=
  match select_files files userId failure with
  | (_, Some _) =>
      [Console (js "Error fetching gallery metadata:");
       Respond 500 (Http.Error (js "Failed to retrieve files from database."))]
  | (rows, None) =>
      let '(telegramChatId, log) := getTelegramChatId tbl lookup userId in
      console log
        ++ [Respond 200 (FilesLinked (default [] rows) (truthy telegramChatId))]
  end.

(** [app.get('/api/link/status', authMiddleware, ...)] *)
Definition link_status
    (tbl : Supabase.Table) (userId : jsstring)
    (failure : option Supabase.PostgrestError) : list Effect :=
  let '(telegramChatId, log) := getTelegramChatId tbl failure userId in
  console log
    ++ [Respond 200 (LinkedChat (truthy telegramChatId) telegramChatId)].

(** [app.post('/api/link/initiate', authMiddleware, ...)] with its
    middleware. *)
Definition post_link_initiate `{!CaseMapping}
    (getUser : option jsstring → UserResponse)
    (authorization : option jsstring) (s : Pairing.State)
    (failure : option Supabase.PostgrestError)
    (randomBytes : Byte.byte * Byte.byte * Byte.byte)
    : Auth + Pairing.State * list Output :=
  guarded getUser authorization
    (λ userId, Pairing.link_initiate s userId failure randomBytes).

End PairingRoutes.

(** ** [src/tunnel.js] *)

Module Tunnel.
Import JS.

Definition BACKEND_PORT : Z := 8082.
Definition WEBHOOK_PATH : jsstring := js "/telegram/webhook".

(** What the script does to the outside, in order: lines on the console,
    the call of [ngrok.connect], the end of the process. *)
Inductive Effect :=
| ConsoleError (line : jsstring)
| ConsoleLog (line : jsstring)
| Connect (addr : Z) (proto region : jsstring) (authtoken : option jsstring)
| Exit (code : Z).

(** The line of 82 dashes. *)
Definition rule : jsstring := replicate 82 45.
Definition quote : jsstring := [34].

(** [`https://api.telegram.org/bot${BOT_TOKEN}/setWebhook?url=${webhookUrl}`]
    with [webhookUrl = `${url}${WEBHOOK_PATH}`] *)
Definition telegramSetWebhookUrl
    (BOT_TOKEN : option jsstring) (url : jsstring) : jsstring :=
  let webhookUrl := url ++ WEBHOOK_PATH in
  js "https://api.telegram.org/bot" ++ template BOT_TOKEN
    ++ js "/setWebhook?url=" ++ webhookUrl.

(** [startTunnel()]; [connect] is what [await ngrok.connect(..)] gives: the
    public URL, or the [message] of the error it throws. *)
Definition startTunnel
    (BOT_TOKEN NGROK_TOKEN : option jsstring) (connect : jsstring + jsstring)
    : list Effect :=
  Connect BACKEND_PORT (js "http") (js "in") NGROK_TOKEN
  :: match connect with
     | inl url =>
         [ ConsoleLog rule;
           ConsoleLog ([0xD83D; 0xDE80]
                         ++ js " ngrok tunnel established! Backend Port "
                         ++ Number_toString BACKEND_PORT
                         ++ js " is publicly accessible.");
           ConsoleLog (js "Public URL: " ++ url);
           ConsoleLog ([10] ++ rule);
           ConsoleLog (js "STEP 1: Copy the link below and open it in your browser to set the Telegram Webhook:");
           ConsoleLog (js "  " ++ [0xD83D; 0xDC49] ++ js " "
                         ++ telegramSetWebhookUrl BOT_TOKEN url);
           ConsoleLog rule;
           ConsoleLog ([10] ++ js "STEP 2: In the browser, you must see: {"
                         ++ quote ++ js "ok" ++ quote ++ js ":true,"
                         ++ quote ++ js "result" ++ quote ++ js ":true,"
                         ++ quote ++ js "description" ++ quote ++ js ":"
                         ++ quote ++ js "Webhook was set" ++ quote ++ js "}");
           ConsoleLog rule ]
     | inr message =>
         [ ConsoleError (js "ngrok connection failed. Check if port "
                           ++ Number_toString BACKEND_PORT
                           ++ js " is busy or if your token is invalid.");
           ConsoleError (js "Error details: " ++ message);
           Exit 1 ]
     end.

(** The script from its first line: the two guards, each ending the
    process, then [startTunnel()]. *)
Definition main
    (BOT_TOKEN NGROK_TOKEN : option jsstring) (connect : jsstring + jsstring)
    : list Effect :=
  if negb (truthy BOT_TOKEN) then
    [ ConsoleError (js "FATAL ERROR: TELEGRAM_BOT_TOKEN is not defined in .env or not accessible.");
      Exit 1 ]
  else if negb (truthy NGROK_TOKEN) then
    [ ConsoleError (js "FATAL ERROR: NGROK_AUTH_TOKEN is not defined in .env. Please add it.");
      Exit 1 ]
  else startTunnel BOT_TOKEN NGROK_TOKEN connect.

(** The lines written to the console, of either kind. *)
Definition console (l : list Effect) : list jsstring :=
  omap (λ x, match x with
             | ConsoleError line | ConsoleLog line => Some line
             | _ => None
             end) l.

End Tunnel.

(** ** What is known of [toUpperCase] *)

(** On a string of ASCII code units [toUpperCase] is [ascii_toUpperCase]. *)
Definition ascii_case_mapping `{!JS.CaseMapping} : Prop :=
  ∀ s, Forall (λ c, 0 ≤ c < 128) s → JS.toUpperCase s = JS.ascii_toUpperCase s.

(** The character of one hexadecimal digit in a generated code: [0]..[9],
    [A]..[F]. *)
Definition code_digit (n : Z) : Z := if decide (n < 10) then 48 + n else 55 + n.

(** The statuses a handler answered with, and the requests it sent to
    Telegram, in order. *)
Definition statuses (l : list Http.Effect) : list Z :=
  omap (λ x, match x with Http.Respond st _ => Some st | _ => None end) l.
Definition posts (l : list Http.Effect) : list Http.SendDocument :=
  omap (λ x, match x with Http.Post r => Some r | _ => None end) l.


(** The calls of [ngrok.connect] a run of [tunnel.js] made (port and
    token), and the codes it ended the process with. *)
Definition connects (l : list Tunnel.Effect) : list (Z * option jsstring) :=
  omap (λ x, match x with
             | Tunnel.Connect addr _ _ authtoken => Some (addr, authtoken)
             | _ => None
             end) l.
Definition exits (l : list Tunnel.Effect) : list Z :=
  omap (λ x, match x with Tunnel.Exit code => Some code | _ => None end) l.

(** ** Requests and answers used in the concrete runs *)

Module Requests.
Import JS.

(** The auth service knows one token, that of [user-42]. *)
Definition bearer : jsstring := js "Bearer tok-1 trailing".
Definition getUser (token : option jsstring) : Http.UserResponse :=
  if decide (token = Some (js "tok-1"))
  then {| Http.user := Some Samples.user42; Http.error := None |}
  else {| Http.user := None; Http.error := Some (js "invalid JWT") |}.

Definition cat_png : Http.File :=
  {| Http.buffer := [0x89; 0x50; 0x4e; 0x47];
     Http.originalname := js "cat.png";
     Http.mimetype := js "image/png" |}.

(** Telegram took the file as a photo in two sizes. *)
Definition two_sizes : Http.TgResult :=
  {| Http.result_document := None;
     Http.result_photo :=
       Some [ {| Http.file_id := Some (js "AgAD-small") |};
              {| Http.file_id := Some (js "AgAD-large") |} ] |}.

(** A row of another user, uploaded earlier. *)
Definition older : Http.FileRow :=
  {| Http.user_id := js "user-7";
     Http.telegram_file_id := js "BQAD-7";
     Http.original_filename := js "notes.txt";
     Http.mime_type := js "text/plain";
     Http.uploaded_at := 1000 |}.

(** The registry after [user-42] asked for a code and drew [A3B9C4]. *)
Definition issued : Pairing.State :=
  (@Pairing.link_initiate Samples.ascii_case (Pairing.initial ∅ 0)
     Samples.user42 None Samples.A3B9C4).1.

End Requests.

(** ** What takes an entry out of the registry *)

#[global] Instance Suspended_eq_dec : EqDecision Suspended.
Proof. solve_decision. Defined.

Section Lifetime.
Context `{!CaseMapping}.
Context (BOT_TOKEN SUPABASE_URL : option jsstring).

(** A request to [/api/link/initiate], whoever makes it. *)
Definition is_initiate (ev : Event) : Prop :=
  match ev with
  | Initiate _ _ _ => True
  | _ => False
  end.

(** The event [ev], arriving in the state [s], may remove or replace the
    entry of the code [c]: an [initiate] that draws [c], the successful
    answer to the upsert of a handler that received [c], or the passing of
    time up to a timer set for [c].  Nothing else in the source calls
    [linkingCodes.set] or [linkingCodes.delete]. *)
Definition touches (c : jsstring) (s : State) (ev : Event) : Prop :=
  match ev with
  | Initiate _ _ randomBytes => generate randomBytes = c
  | Settled i None => receivedCode <$> awaiting s !! i = Some c
  | Elapse dt =>
      Exists (λ t, t.2 = c ∧ t.1 ≤ clock s + Z.max 0 dt) (timers s)
  | _ => False
  end.

#[global] Instance touches_dec c s ev : Decision (touches c s ev).
Proof.
  destruct ev as [uid f rnd|text chat|i [err|]|dt|ud se f]; simpl; apply _.
Defined.

(** No event of the run [evs] from [s] touches [c]. *)
Fixpoint untouched (c : jsstring) (s : State) (evs : list Event) : Prop :=
  match evs with
  | [] => True
  | ev :: evs' =>
      ¬ touches c s ev
      ∧ untouched c (step BOT_TOKEN SUPABASE_URL s ev).1 evs'
  end.

#[global] Instance untouched_dec c s evs : Decision (untouched c s evs).
Proof.
  revert s; induction evs as [|ev evs IH]; intros s; simpl; apply _.
Defined.

End Lifetime.

(** ** Payloads and tables with a username *)

Module Named.

(** [{first_name: "Bo\nid=5", hash}]: no [id] field, and the check-string
    and signature of [Samples.bo]. *)
Definition smuggled : Widget.Query :=
  <[ js "first_name" := js "Bo" ++ [10] ++ js "id=5" ]>
    {[ js "hash" :=
         js "c9a706804c61e507932cdbcbad212bc018fa88253a6913f3bcb66d0201449760" ]}.

(** [{id: "5", first_name: "Bo", username: "bo_tg", hash}] signed for the
    secret [T]. *)
Definition bo_tg : Widget.Query :=
  <[ js "id" := js "5" ]>
    (<[ js "first_name" := js "Bo" ]>
       (<[ js "username" := js "bo_tg" ]>
          {[ js "hash" :=
               js "957e6ea260f6becf8e9a3ed16bdd48c6a60fd38a622ac838cd00775249b2d2bb" ]})).

(** [user-42] is linked and has a username stored. *)
Definition table : Supabase.Table :=
  {[ Samples.user42 :=
       {| Supabase.telegram_chat_id := js "998877";
          Supabase.telegram_username := Some (js "old_name") |} ]}.

(** [user-42] asked for a code, drew [A3B9C4], and then linked through the
    widget as [bo_tg]; the code is still in the registry. *)
Definition pending : Pairing.State :=
  (@Pairing.run Samples.ascii_case (Some (js "T")) None
     (Pairing.initial ∅ 0)
     [Pairing.Initiate Samples.user42 None Samples.A3B9C4;
      Pairing.WidgetCallback bo_tg (Some Samples.user42) None]).1.

End Named.

(** * Properties *)

(** ** The order of [sort] *)

Lemma str_ltb_irrefl x : str_ltb x x = false.
Proof.
  induction x as [|a x IH]; simpl; [done|].
  by rewrite Z.ltb_irrefl.
Qed.

Lemma str_ltb_asym x y : str_ltb x y = true → str_ltb y x = false.
Proof.
  revert y; induction x as [|a x IH]; intros [|b y]; simpl; try done.
  destruct (Z.ltb_spec a b), (Z.ltb_spec b a); try done; try lia.
  apply IH.
Qed.

Lemma str_ltb_connex x y :
  str_ltb x y = false → str_ltb y x = false → x = y.
Proof.
  revert y; induction x as [|a x IH]; intros [|b y]; simpl; try done.
  destruct (Z.ltb_spec a b), (Z.ltb_spec b a); try done.
  intros ??; f_equal; [lia | by apply IH].
Qed.

Lemma str_ltb_trans x y z :
  str_ltb x y = true → str_ltb y z = true → str_ltb x z = true.
Proof.
  revert y z; induction x as [|a x IH]; intros [|b y] [|c z]; simpl;
    try done.
  destruct (Z.ltb_spec a b), (Z.ltb_spec b a), (Z.ltb_spec b c),
    (Z.ltb_spec c b), (Z.ltb_spec a c), (Z.ltb_spec c a);
    try done; try lia.
  apply IH.
Qed.

#[export] Instance str_le_total : Total str_le.
Proof.
  intros x y; unfold str_le.
  destruct (str_ltb y x) eqn:E; [right; by apply str_ltb_asym | by left].
Qed.

#[export] Instance str_le_antisymm : AntiSymm (=) str_le.
Proof. intros x y ??; by apply str_ltb_connex. Qed.

#[export] Instance str_le_trans : Transitive str_le.
Proof.
  intros x y z Hxy Hyz; unfold str_le in *.
  destruct (str_ltb z x) eqn:Hzx; [|done].
  destruct (str_ltb y z) eqn:E.
  - by rewrite (str_ltb_trans _ _ _ E Hzx) in Hxy.
  - destruct (str_ltb z y) eqn:E'; [congruence|].
    rewrite (str_ltb_connex _ _ E' E) in Hzx. congruence.
Qed.

(** The sorted array depends on the elements only, not on the order they
    were enumerated in nor on the algorithm. *)
Lemma sort_Permutation l1 l2 : l1 ≡ₚ l2 → sort l1 = sort l2.
Proof.
  intros Hp. apply (StronglySorted_unique str_le).
  - apply StronglySorted_merge_sort; apply _.
  - apply StronglySorted_merge_sort; apply _.
  - unfold sort. by rewrite !merge_sort_Permutation.
Qed.

Lemma sort_sorted l : StronglySorted str_le (sort l) ∧ sort l ≡ₚ l.
Proof.
  split; [apply StronglySorted_merge_sort; apply _|].
  apply merge_sort_Permutation.
Qed.

(** ** The check-string *)

Lemma filter_all {A} (Q : A → Prop) `{!∀ x, Decision (Q x)} (l : list A) :
  Forall Q l → filter Q l = l.
Proof.
  induction 1 as [|x l Hx _ IH]; [done|].
  by rewrite filter_cons_True, IH.
Qed.

Lemma filter_map_to_list_absent (P : Query) (k : jsstring) :
  P !! k = None →
  filter (λ f : jsstring * jsstring, f.1 ≠ k) (map_to_list P) = map_to_list P.
Proof.
  intros Hk. apply filter_all, Forall_forall.
  intros [k' v] Hin%elem_of_map_to_list; simpl. congruence.
Qed.

Lemma filter_map_to_list_delete (P : Query) (k : jsstring) :
  filter (λ f : jsstring * jsstring, f.1 ≠ k) (map_to_list P)
  ≡ₚ map_to_list (delete k P).
Proof.
  destruct (P !! k) as [v|] eqn:Hk.
  - rewrite <- (map_to_list_delete P k v Hk).
    rewrite filter_cons_False by (simpl; auto).
    rewrite filter_map_to_list_absent; [done | apply lookup_delete_eq].
  - by rewrite filter_map_to_list_absent, delete_id.
Qed.

Lemma fmap_filter_keys {B} (g : jsstring → B) (k : jsstring)
    (l : list (jsstring * jsstring)) :
  g <$> filter (λ key, key ≠ k) (l.*1)
  = (λ f, g f.1) <$> filter (λ f : jsstring * jsstring, f.1 ≠ k) l.
Proof.
  induction l as [|[k' v] l IH]; [done|].
  rewrite fmap_cons; simpl fst.
  destruct (decide (k' ≠ k)) as [Hne|He].
  - rewrite !filter_cons_True by done. by rewrite !fmap_cons, IH.
  - by rewrite !filter_cons_False by done.
Qed.

(** What the source maps over [Object.keys] is the rendering of the
    fields other than [hash]. *)
Lemma rendered_keys (P : Query) :
  (λ key, key ++ js "=" ++ get P key)
    <$> filter (λ key, key ≠ js "hash") (keys P)
  ≡ₚ Spec.render <$> Spec.fields P.
Proof.
  unfold keys, Spec.fields.
  rewrite fmap_filter_keys, <- filter_map_to_list_delete.
  erewrite list_fmap_ext; [done|].
  intros i [k v] Hin%list_elem_of_lookup_2%list_elem_of_filter.
  destruct Hin as [_ Hin%elem_of_map_to_list].
  unfold Spec.render, get; simpl. by rewrite Hin.
Qed.

Lemma checkString_spec (P : Query) :
  checkString P = Spec.checkString_by str_le P.
Proof.
  unfold checkString, Spec.checkString_by. f_equal.
  apply sort_Permutation, rendered_keys.
Qed.

(** A secret the guard [!BOT_TOKEN] lets through. *)
Lemma truthy_Some (S : jsstring) : S ≠ [] → truthy (Some S) = true.
Proof. by destruct S. Qed.

Lemma validateTelegramHash_code_units (S : jsstring) (P : Query) :
  S ≠ [] →
  validateTelegramHash (Some S) P = true
  ↔ P !! js "hash" = Some (Spec.signature_code_units S P).
Proof.
  intros HS. unfold validateTelegramHash.
  rewrite truthy_Some by done; simpl.
  rewrite checkString_spec, bool_decide_eq_true.
  unfold Spec.signature_code_units, Spec.signature_of. split; congruence.
Qed.

(** ** UTF-8 keeps the order of strings without surrogates *)

Lemma utf8_cons c s :
  Spec.bmp_unit c → utf8 (c :: s) = utf8_unit c ++ utf8 s.
Proof.
  intros [Hr Hs]. unfold utf8_unit; simpl.
  destruct (Z.ltb_spec c 0x80); [done|].
  destruct (Z.ltb_spec c 0x800); [done|].
  unfold is_high, is_low.
  destruct (Z.leb_spec 0xD800 c), (Z.leb_spec c 0xDBFF),
    (Z.leb_spec 0xDC00 c), (Z.leb_spec c 0xDFFF); simpl; try done; lia.
Qed.

Lemma str_ltb_app p x y : str_ltb (p ++ x) (p ++ y) = str_ltb x y.
Proof.
  induction p as [|a p IH]; [done|]. simpl. by rewrite Z.ltb_irrefl.
Qed.

Lemma utf8_unit_lt c d x y :
  Spec.bmp_unit c → Spec.bmp_unit d → c < d →
  str_ltb (utf8_unit c ++ x) (utf8_unit d ++ y) = true.
Proof.
  intros [Hc _] [Hd _] Hlt. unfold utf8_unit, utf8_3.
  destruct (Z.ltb_spec c 0x80), (Z.ltb_spec c 0x800),
    (Z.ltb_spec d 0x80), (Z.ltb_spec d 0x800); try lia; simpl;
    repeat match goal with
           | |- context [?a <? ?b] => destruct (Z.ltb_spec a b)
           end; try done; exfalso; Z.div_mod_to_equations; lia.
Qed.

Lemma utf8_str_ltb x y :
  Spec.bmp x → Spec.bmp y → str_ltb (utf8 x) (utf8 y) = str_ltb x y.
Proof.
  intros Hx; revert y; induction Hx as [|c x Hc Hx IH];
    intros y Hy; destruct Hy as [|d y Hd Hy].
  - done.
  - rewrite utf8_cons by done. simpl.
    unfold utf8_unit, utf8_3; repeat case_match; done.
  - rewrite utf8_cons by done. simpl.
    unfold utf8_unit, utf8_3; repeat case_match; done.
  - rewrite !utf8_cons by done.
    change (str_ltb (c :: x) (d :: y))
      with (if c <? d then true else if d <? c then false else str_ltb x y).
    destruct (Z.lt_trichotomy c d) as [Hlt|[->|Hgt]].
    + rewrite (utf8_unit_lt c d _ _ Hc Hd Hlt).
      by destruct (Z.ltb_spec c d); [|lia].
    + rewrite str_ltb_app, Z.ltb_irrefl. by apply IH.
    + rewrite (str_ltb_asym _ _ (utf8_unit_lt d c (utf8 y) (utf8 x) Hd Hc Hgt)).
      destruct (Z.ltb_spec c d); [lia|].
      by destruct (Z.ltb_spec d c); [|lia].
Qed.

Lemma bytewise_le_str_le x y :
  Spec.bmp x → Spec.bmp y → Spec.bytewise_le x y ↔ str_le x y.
Proof.
  intros Hx Hy. unfold Spec.bytewise_le, str_le.
  by rewrite utf8_str_ltb.
Qed.

#[export] Instance bytewise_le_total : Total Spec.bytewise_le.
Proof. intros x y. apply (total str_le). Qed.

#[export] Instance bytewise_le_trans : Transitive Spec.bytewise_le.
Proof. intros x y z. apply (transitivity (R := str_le)). Qed.

Lemma StronglySorted_bmp l :
  Forall Spec.bmp l →
  StronglySorted Spec.bytewise_le l → StronglySorted str_le l.
Proof.
  intros Hl Hs. induction Hs as [|x l Hs IH Hx]; [constructor|].
  apply Forall_cons in Hl as [Hbx Hbl]. constructor; [by apply IH|].
  rewrite Forall_forall in *. intros y Hy.
  apply bytewise_le_str_le; auto.
Qed.

Lemma merge_sort_bytewise l :
  Forall Spec.bmp l → merge_sort Spec.bytewise_le l = sort l.
Proof.
  intros Hl. apply (StronglySorted_unique str_le).
  - apply StronglySorted_bmp.
    + by rewrite merge_sort_Permutation.
    + apply StronglySorted_merge_sort; apply _.
  - apply sort_sorted.
  - unfold sort. by rewrite !merge_sort_Permutation.
Qed.

Lemma render_bmp (P : Query) :
  Spec.bmp_payload P → Forall Spec.bmp (Spec.render <$> Spec.fields P).
Proof.
  intros HP. apply Forall_fmap, Forall_forall.
  intros [k v] Hin%elem_of_map_to_list.
  apply lookup_delete_Some in Hin as [_ Hin].
  destruct (HP _ _ Hin) as [Hk Hv]. unfold Spec.render; simpl.
  apply Forall_app; split; [done|]. apply Forall_cons; split; [|done].
  vm_compute. split; [split|]; intros; intuition discriminate.
Qed.

Lemma checkString_bytewise (P : Query) :
  Spec.bmp_payload P →
  Spec.checkString_by Spec.bytewise_le P = Spec.checkString_by str_le P.
Proof.
  intros HP. unfold Spec.checkString_by.
  by rewrite merge_sort_bytewise by by apply render_bmp.
Qed.

(** ** The link resolver *)

Lemma getTelegramChatId_row tbl userId r :
  tbl !! userId = Some r →
  getTelegramChatId tbl None userId = (Some (Supabase.telegram_chat_id r), []).
Proof. intros Hr. unfold getTelegramChatId, Supabase.select_single. by rewrite Hr. Qed.

Lemma getTelegramChatId_no_row tbl userId :
  tbl !! userId = None → getTelegramChatId tbl None userId = (None, []).
Proof. intros Hr. unfold getTelegramChatId, Supabase.select_single. by rewrite Hr. Qed.

Lemma getTelegramChatId_failure tbl userId e :
  (getTelegramChatId tbl (Some e) userId).1 = None.
Proof. done. Qed.

Lemma getTelegramChatId_unlinked tbl userId failure :
  tbl !! userId = None → (getTelegramChatId tbl failure userId).1 = None.
Proof.
  intros Hr. destruct failure; [done|]. by rewrite getTelegramChatId_no_row.
Qed.

Lemma getTelegramChatId_log tbl failure userId o :
  o ∈ (getTelegramChatId tbl failure userId).2 → ∃ line, o = ConsoleError line.
Proof.
  unfold getTelegramChatId; simpl.
  destruct (Supabase.error _); [case_decide|]; simpl.
  - intros ->%list_elem_of_singleton. eauto.
  - by intros ?%elem_of_nil.
  - by intros ?%elem_of_nil.
Qed.

(** ** Lists of suspended handlers *)

Lemma lookup_snoc {A} (l : list A) (x : A) : (l ++ [x]) !! length l = Some x.
Proof. by rewrite lookup_app_r, Nat.sub_diag by lia. Qed.

Lemma delete_snoc {A} (l : list A) (x : A) : delete (length l) (l ++ [x]) = l.
Proof.
  induction l as [|y l IH]; [done|]. simpl. by rewrite IH.
Qed.


Section PairingProperties.
Context `{!CaseMapping}.

Lemma state_eta (s : State) :
  {| linkingCodes := linkingCodes s; timers := timers s; clock := clock s;
     user_telegram_settings := user_telegram_settings s;
     awaiting := awaiting s |} = s.
Proof. by destruct s. Qed.

Lemma run_app B U s evs1 evs2 :
  run B U s (evs1 ++ evs2)
  = let '(s1, out1) := run B U s evs1 in
    let '(s2, out2) := run B U s1 evs2 in (s2, out1 ++ out2).
Proof.
  revert s; induction evs1 as [|ev evs1 IH]; intros s; simpl.
  - by destruct (run B U s evs2).
  - destruct (step B U s ev) as [s1 o1]. rewrite IH.
    destruct (run B U s1 evs1) as [s2 o2], (run B U s2 evs2) as [s3 o3].
    by rewrite app_assoc.
Qed.

Lemma run_snoc B U s evs ev :
  (run B U s (evs ++ [ev])).1 = (step B U (run B U s evs).1 ev).1.
Proof.
  rewrite run_app. destruct (run B U s evs) as [s1 o1]; simpl.
  by destruct (step B U s1 ev).
Qed.

(** [redeem] is the run of the two events of one handler. *)
Lemma redeem_run B U s text chat_id failure :
  redeem s text chat_id failure
  = run B U s [Text text chat_id; Settled (length (awaiting s)) failure].
Proof.
  unfold redeem; simpl. destruct (on_text s text chat_id) as [s1 o1].
  destruct (settle s1 _ failure) as [s2 o2]. by rewrite app_nil_r.
Qed.

(** A handler that runs alone resumes with the answer to its own upsert. *)
Lemma redeem_live s text chat_id failure e :
  linkingCodes s !! toUpperCase (trim text) = Some e →
  redeem s text chat_id failure
  = let k := {| receivedCode := toUpperCase (trim text); owner := userId e;
                telegramChatId := Number_toString chat_id;
                ctx_chat := chat_id |} in
    let '(tbl, error) :=
      Supabase.upsert (user_telegram_settings s) (owner k) (telegramChatId k)
        None failure in
    on_text_resume (with_table tbl s) k error.
Proof.
  intros He. unfold redeem, on_text. rewrite He.
  unfold settle; simpl. rewrite lookup_snoc, delete_snoc.
  destruct (Supabase.upsert _ _ _ _ _) as [tbl error]; simpl.
  unfold with_table, with_awaiting; simpl.
  by destruct (on_text_resume _ _ _) as [s' out].
Qed.

Lemma redeem_absent s text chat_id failure :
  linkingCodes s !! toUpperCase (trim text) = None →
  redeem s text chat_id failure = (s, [CtxReply chat_id ReplyHelp]).
Proof.
  intros He. unfold redeem, on_text. rewrite He.
  unfold settle. by rewrite lookup_ge_None_2.
Qed.

Lemma settle_failure s i e :
  linkingCodes (settle s i (Some e)).1 = linkingCodes s
  ∧ user_telegram_settings (settle s i (Some e)).1 = user_telegram_settings s
  ∧ timers (settle s i (Some e)).1 = timers s.
Proof. unfold settle. by destruct (awaiting s !! i). Qed.

Lemma settle_removes s i failure c :
  is_Some (linkingCodes s !! c) →
  linkingCodes (settle s i failure).1 !! c = None →
  failure = None
  ∧ ∃ k, awaiting s !! i = Some k ∧ receivedCode k = c
      ∧ Supabase.telegram_chat_id
          <$> user_telegram_settings (settle s i failure).1 !! owner k
        = Some (telegramChatId k).
Proof.
  intros [e He]. unfold settle.
  destruct (awaiting s !! i) as [k|]; simpl; [|congruence].
  destruct failure as [err|]; simpl; [congruence|].
  intros Hdel. split; [done|]. exists k. split; [done|].
  split; [|by rewrite lookup_insert_eq].
  destruct (decide (receivedCode k = c)) as [|Hne]; [done|].
  rewrite lookup_delete_ne in Hdel by done. congruence.
Qed.


(** [linkingCodes.delete] run by the timers that are due. *)
Lemma lookup_expire (m : gmap jsstring Entry) (due : list (Z * jsstring)) c :
  foldr (λ t m, delete t.2 m) m due !! c
  = if decide (c ∈ due.*2) then None else m !! c.
Proof.
  induction due as [|[d c'] due IH]; simpl; [done|].
  destruct (decide (c' = c)) as [->|Hne].
  - rewrite lookup_delete_eq. rewrite decide_True; [done|]. by left.
  - rewrite lookup_delete_ne, IH by done.
    destruct (decide (c ∈ due.*2)) as [Hin|Hnin].
    + rewrite decide_True; [done|]. by right.
    + rewrite decide_False; [done|]. intros [?|?]%elem_of_cons; simpl in *; [by subst|done].
Qed.

Lemma step_absent B U s ev c :
  ¬ issues c ev →
  linkingCodes s !! c = None → linkingCodes (step B U s ev).1 !! c = None.
Proof.
  intros Hev Hc. destruct ev as [uid f rnd|text chat|i f|dt|ud se f]; simpl.
  - unfold link_initiate. destruct (getTelegramChatId _ _ _) as [ex log].
    destruct (truthy ex); simpl; [done|].
    rewrite lookup_insert_ne; [done|]. exact Hev.
  - unfold on_text. by destruct (linkingCodes s !! toUpperCase (trim text)).
  - unfold settle. destruct (awaiting s !! i) as [k|]; [|done].
    destruct f; simpl; [done|]. by apply lookup_delete_None; right.
  - rewrite lookup_expire. by case_decide.
  - by destruct (auth_telegram _ _ _ _ _ _).
Qed.

Lemma run_absent B U s evs c :
  Forall (λ ev, ¬ issues c ev) evs →
  linkingCodes s !! c = None → linkingCodes (run B U s evs).1 !! c = None.
Proof.
  intros Hevs; revert s; induction Hevs as [|ev evs Hev _ IH]; intros s Hc;
    simpl; [done|].
  pose proof (step_absent B U s ev c Hev Hc) as H1.
  destruct (step B U s ev) as [s1 o1]; simpl in *.
  specialize (IH s1 H1). by destruct (run B U s1 evs).
Qed.


Lemma elapse_lookup s dt c :
  linkingCodes (elapse s dt) !! c
  = if decide (c ∈ (filter (λ t, t.1 ≤ clock s + Z.max 0 dt) (timers s)).*2)
    then None else linkingCodes s !! c.
Proof. unfold elapse; simpl. apply lookup_expire. Qed.

Lemma step_within_ttl B U s ev c t0 :
  ¬ issues c ev → within_ttl c t0 s → within_ttl c t0 (step B U s ev).1.
Proof.
  intros Hev Hs. unfold within_ttl in *.
  destruct ev as [uid f rnd|text chat|i f|dt|ud se f]; cbn [Pairing.step fst].
  - unfold link_initiate. destruct (getTelegramChatId _ _ _) as [ex log].
    destruct (truthy ex); simpl; [done|].
    rewrite lookup_insert_ne by exact Hev. intros Hc.
    destruct (Hs Hc) as [Hin Hlt]. split; [|done].
    apply elem_of_app. by left.
  - unfold on_text.
    by destruct (linkingCodes s !! toUpperCase (trim text)).
  - unfold settle. destruct (awaiting s !! i) as [k|]; [|done].
    destruct f; simpl; [done|].
    intros [e [_ He]%lookup_delete_Some]. by apply Hs.
  - rewrite elapse_lookup. case_decide as Hdue; [by intros [? ?]|].
    intros Hc. destruct (Hs Hc) as [Hin Hlt].
    assert (Hnd : ¬ t0 + TTL ≤ clock s + Z.max 0 dt).
    { intros Hle. apply Hdue. apply (list_elem_of_fmap_2 snd _ (t0 + TTL, c)).
      by apply list_elem_of_filter. }
    unfold elapse; simpl. split; [|lia]. by apply list_elem_of_filter.
  - by destruct (auth_telegram _ _ _ _ _ _).
Qed.

Lemma run_within_ttl B U s evs c t0 :
  Forall (λ ev, ¬ issues c ev) evs →
  within_ttl c t0 s → within_ttl c t0 (run B U s evs).1.
Proof.
  intros Hevs; revert s; induction Hevs as [|ev evs Hev _ IH]; intros s Hs;
    simpl; [done|].
  pose proof (step_within_ttl B U s ev c t0 Hev Hs) as H1.
  destruct (step B U s ev) as [s1 o1]; simpl in *.
  specialize (IH s1 H1). by destruct (run B U s1 evs).
Qed.

Lemma redeem_timers s text chat_id failure :
  timers (redeem s text chat_id failure).1 = timers s.
Proof.
  destruct (linkingCodes s !! toUpperCase (trim text)) as [e|] eqn:He.
  - rewrite (redeem_live _ _ _ _ _ He). by destruct failure.
  - by rewrite redeem_absent.
Qed.

(** Timers whose codes are gone fire without effect. *)
Lemma elapse_noop s dt :
  (∀ t, t ∈ timers s → t.1 ≤ clock s + Z.max 0 dt →
        linkingCodes s !! t.2 = None) →
  linkingCodes (elapse s dt) = linkingCodes s.
Proof.
  intros Hgone. apply map_eq; intros c. rewrite elapse_lookup.
  case_decide as Hdue; [|done].
  apply list_elem_of_fmap in Hdue as ([d c'] & -> & [Hd Hin]%list_elem_of_filter).
  symmetry. by apply (Hgone (d, c')).
Qed.


(** A redemption that runs alone and whose upsert succeeds. *)
Lemma redeem_succeeds s text chat_id e :
  linkingCodes s !! toUpperCase (trim text) = Some e →
  (redeem s text chat_id None).2 = [CtxReply chat_id ReplySuccess]
  ∧ Supabase.telegram_chat_id
      <$> user_telegram_settings (redeem s text chat_id None).1 !! userId e
    = Some (Number_toString chat_id)
  ∧ linkingCodes (redeem s text chat_id None).1
    = delete (toUpperCase (trim text)) (linkingCodes s)
  ∧ timers (redeem s text chat_id None).1 = timers s.
Proof.
  intros He. rewrite (redeem_live _ _ _ _ _ He); simpl.
  split; [done|]. split; [by rewrite lookup_insert_eq|]. done.
Qed.

(** What [initiate] does for an owner without a link, whatever the store
    answers. *)
Lemma link_initiate_unlinked s userId failure randomBytes :
  user_telegram_settings s !! userId = None →
  let code := generate randomBytes in
  let s' := (link_initiate s userId failure randomBytes).1 in
  linkingCodes s'
  = <[code := {| userId := userId; timestamp := clock s |}]> (linkingCodes s)
  ∧ timers s' = timers s ++ [(clock s + TTL, code)]
  ∧ clock s' = clock s
  ∧ user_telegram_settings s' = user_telegram_settings s
  ∧ awaiting s' = awaiting s
  ∧ Send 200 false (Some code)
    ∈ (link_initiate s userId failure randomBytes).2.
Proof.
  intros Hr. unfold link_initiate.
  pose proof (getTelegramChatId_unlinked _ _ failure Hr) as Hex.
  destruct (getTelegramChatId _ _ _) as [ex log]; simpl in Hex; subst ex.
  simpl. repeat split. apply elem_of_app; right. by left.
Qed.

(** What the response of [initiate] tells: a code in it is the generated
    one, registered with the current time and with a timer of its own. *)
Lemma link_initiate_issued s userId failure randomBytes c :
  Send 200 false (Some c) ∈ (link_initiate s userId failure randomBytes).2 →
  let s' := (link_initiate s userId failure randomBytes).1 in
  c = generate randomBytes
  ∧ linkingCodes s'
    = <[c := {| userId := userId; timestamp := clock s |}]> (linkingCodes s)
  ∧ timers s' = timers s ++ [(clock s + TTL, c)]
  ∧ clock s' = clock s.
Proof.
  unfold link_initiate.
  pose proof (getTelegramChatId_log (user_telegram_settings s) failure userId)
    as Hlog.
  destruct (getTelegramChatId _ _ _) as [ex log]; simpl in Hlog.
  destruct (truthy ex); simpl.
  - intros [Hin|Hin%list_elem_of_singleton]%elem_of_app; [|done].
    by destruct (Hlog _ Hin) as [line ?].
  - intros [Hin|Hin%list_elem_of_singleton]%elem_of_app.
    + by destruct (Hlog _ Hin) as [line ?].
    + by injection Hin as ->.
Qed.


(** In every run from the start of the process, an entry of the registry
    has its own timer pending, and is younger than the TTL. *)
Lemma live_codes_within_ttl B U tbl0 t0 evs c e :
  linkingCodes (run B U (initial tbl0 t0) evs).1 !! c = Some e →
  (timestamp e + TTL, c) ∈ timers (run B U (initial tbl0 t0) evs).1
  ∧ clock (run B U (initial tbl0 t0) evs).1 < timestamp e + TTL.
Proof.
  revert c e. induction evs as [|ev evs IH] using rev_ind; intros c e.
  - simpl. by rewrite lookup_empty.
  - rewrite run_snoc. set (s := (run B U (initial tbl0 t0) evs).1) in *.
    destruct ev as [uid f rnd|text chat|i f|dt|ud se f];
      cbn [Pairing.step fst].
    + unfold link_initiate. destruct (getTelegramChatId _ _ _) as [ex log].
      destruct (truthy ex); simpl; [apply IH|].
      destruct (decide (generate rnd = c)) as [<-|Hne].
      * rewrite lookup_insert_eq. intros [= <-]; simpl.
        split; [|unfold TTL; lia]. apply elem_of_app; right. by left.
      * rewrite lookup_insert_ne by done. intros [Hin Hlt]%IH.
        split; [|done]. apply elem_of_app. by left.
    + unfold on_text.
      destruct (linkingCodes s !! toUpperCase (trim text)); apply IH.
    + unfold settle. destruct (awaiting s !! i) as [k|]; [|apply IH].
      destruct f; simpl; [apply IH|].
      intros [_ He]%lookup_delete_Some. by apply IH.
    + rewrite elapse_lookup. case_decide as Hdue; [done|].
      intros [Hin Hlt]%IH.
      assert (Hnd : ¬ timestamp e + TTL ≤ clock s + Z.max 0 dt).
      { intros Hle. apply Hdue.
        apply (list_elem_of_fmap_2 snd _ (timestamp e + TTL, c)).
        by apply list_elem_of_filter. }
      unfold elapse; simpl. split; [|lia]. by apply list_elem_of_filter.
    + destruct (auth_telegram _ _ _ _ _ _). apply IH.
Qed.

(** ** Where upserts come from *)

Lemma step_awaiting B U s ev k :
  k ∈ awaiting (step B U s ev).1 →
  k ∈ awaiting s
  ∨ ∃ text chat_id e,
      ev = Text text chat_id
      ∧ linkingCodes s !! toUpperCase (trim text) = Some e
      ∧ k = {| receivedCode := toUpperCase (trim text); owner := userId e;
               telegramChatId := Number_toString chat_id;
               ctx_chat := chat_id |}.
Proof.
  destruct ev as [uid f rnd|text chat|i f|dt|ud se f]; cbn [Pairing.step fst].
  - unfold link_initiate. destruct (getTelegramChatId _ _ _) as [ex log].
    destruct (truthy ex); simpl; auto.
  - unfold on_text.
    destruct (linkingCodes s !! toUpperCase (trim text)) as [e|] eqn:He;
      simpl; [|auto].
    intros [Hin| ->%list_elem_of_singleton]%elem_of_app; [auto|].
    right. by exists text, chat, e.
  - unfold settle. destruct (awaiting s !! i) as [k'|]; [|auto].
    destruct f; simpl; intros Hin%list_elem_of_delete_inv; auto.
  - auto.
  - destruct (auth_telegram _ _ _ _ _ _); auto.
Qed.

Lemma awaiting_justified B U s0 evs k :
  awaiting s0 = [] →
  k ∈ awaiting (run B U s0 evs).1 → justified B U s0 evs k.
Proof.
  intros H0. revert k. induction evs as [|ev evs IH] using rev_ind; intros k.
  - simpl. rewrite H0. by intros ?%elem_of_nil.
  - rewrite run_snoc. intros [Hin|(text & chat & e & -> & He & ->)]%step_awaiting.
    + destruct (IH k Hin) as (evs1 & text & chat & evs2 & e & -> & He & Hk).
      exists evs1, text, chat, (evs2 ++ [ev]), e.
      split; [by rewrite <- app_assoc|]. done.
    + exists evs, text, chat, [], e. done.
Qed.

(** The two ways the link of [u] can change in one step. *)
Lemma step_table B U s ev u :
  user_telegram_settings (step B U s ev).1 !! u
  ≠ user_telegram_settings s !! u →
  (∃ userData session failure id,
     ev = WidgetCallback userData session failure
     ∧ validateTelegramHash B userData = true
     ∧ userData !! js "id" = Some id
     ∧ session = Some u
     ∧ Supabase.telegram_chat_id
         <$> user_telegram_settings (step B U s ev).1 !! u = Some id)
  ∨ (∃ i k,
       ev = Settled i None
       ∧ awaiting s !! i = Some k
       ∧ owner k = u
       ∧ Supabase.telegram_chat_id
           <$> user_telegram_settings (step B U s ev).1 !! u
         = Some (telegramChatId k)).
Proof.
  destruct ev as [uid f rnd|text chat|i f|dt|ud se f]; cbn [Pairing.step fst].
  - unfold link_initiate. destruct (getTelegramChatId _ _ _) as [ex log].
    by destruct (truthy ex).
  - unfold on_text. by destruct (linkingCodes s !! toUpperCase (trim text)).
  - unfold settle. destruct (awaiting s !! i) as [k|] eqn:Hk; [|done].
    destruct f; simpl; [done|]. intros Hne. right. exists i, k.
    destruct (decide (owner k = u)) as [<-|Hu].
    + by rewrite lookup_insert_eq.
    + by rewrite lookup_insert_ne in Hne.
  - done.
  - unfold auth_telegram.
    destruct (validateTelegramHash B ud) eqn:Hv; simpl; [|done].
    destruct (ud !! js "id") as [id|] eqn:Hid; simpl; [|done].
    destruct se as [[|c se]|]; simpl; [done| |done].
    destruct f; simpl; [done|]. intros Hne. left.
    exists ud, (Some (c :: se)), None, id.
    destruct (decide (c :: se = u)) as [<-|Hu].
    + by rewrite lookup_insert_eq.
    + by rewrite lookup_insert_ne in Hne.
Qed.

End PairingProperties.

(** ** Test vectors *)

Example sha256_empty :
  hex (sha256 (utf8 (js ""))) =
  js "e3b0c44298fc1c149afbf4c8996fb92427ae41e4649b934ca495991b7852b855".
Proof. vm_compute. reflexivity. Qed.

Example sha256_abc :
  hex (sha256 (utf8 (js "abc"))) =
  js "ba7816bf8f01cfea414140de5dae2223b00361a396177a9cb410ff61f20015ad".
Proof. vm_compute. reflexivity. Qed.

Example hmac_rfc4231_2 :
  hex (hmac_sha256 (utf8 (js "Jefe")) (utf8 (js "what do ya want for nothing?")))
  = js "5bdcc146bf60754e6a042426089575c75a003f089d2739839dec58b964ec3843".
Proof. vm_compute. reflexivity. Qed.

Example sha256_two_blocks :
  hex (sha256 (utf8
    (js "abcdbcdecdefdefgefghfghighijhijkijkljklmklmnlmnomnopnopq"))) =
  js "248d6a61d20638b8e5c026930c3e6039a33ce45964ff2167f6ecedd419db06c1".
Proof. vm_compute. reflexivity. Qed.

Example hmac_rfc4231_6 :
  hex (hmac_sha256 (replicate 131 0xaa)
         (utf8 (js "Test Using Larger Than Block-Size Key - Hash Key First")))
  = js "60e431591ee0b67f0d8a26aacbf5b77f8e0bc6213728c5140546040f0ee37f54".
Proof. vm_compute. reflexivity. Qed.

Example utf8_ex :
  utf8 [0xFF5E; 0xD83D; 0xDE00; 0xE9; 0x20AC; 0xDC00]
  = [0xEF; 0xBD; 0x9E; 0xF0; 0x9F; 0x98; 0x80; 0xC3; 0xA9; 0xE2; 0x82; 0xAC;
     0xEF; 0xBF; 0xBD].
Proof. vm_compute. reflexivity. Qed.

Example number_toString : Number_toString 998877 = js "998877" ∧ Number_toString (-5) = js "-5" ∧ Number_toString 0 = js "0".
Proof. vm_compute. done. Qed.

Example trim_ex : trim (js "  a3 b9c4 ") = js "a3 b9c4".
Proof. vm_compute. done. Qed.

(** ** How long entries, timers and suspended handlers last *)

Section LifetimeProperties.
Context `{!CaseMapping}.

Lemma on_text_live s text chat_id e :
  linkingCodes s !! toUpperCase (trim text) = Some e →
  on_text s text chat_id
  = (with_awaiting
       (awaiting s ++ [{| receivedCode := toUpperCase (trim text);
                          owner := userId e;
                          telegramChatId := Number_toString chat_id;
                          ctx_chat := chat_id |}]) s,
     []).
Proof. intros He. unfold on_text. by rewrite He. Qed.

Lemma on_text_absent s text chat_id :
  linkingCodes s !! toUpperCase (trim text) = None →
  on_text s text chat_id = (s, [CtxReply chat_id ReplyHelp]).
Proof. intros He. unfold on_text. by rewrite He. Qed.

(** The answer to an upsert that succeeded, whenever it comes. *)
Lemma settle_success s i k :
  awaiting s !! i = Some k →
  (settle s i None).2 = [CtxReply (ctx_chat k) ReplySuccess]
  ∧ Supabase.telegram_chat_id
      <$> user_telegram_settings (settle s i None).1 !! owner k
    = Some (telegramChatId k)
  ∧ (∀ u, u ≠ owner k →
       user_telegram_settings (settle s i None).1 !! u
       = user_telegram_settings s !! u)
  ∧ linkingCodes (settle s i None).1
    = delete (receivedCode k) (linkingCodes s)
  ∧ timers (settle s i None).1 = timers s
  ∧ clock (settle s i None).1 = clock s.
Proof.
  intros Hk. unfold settle. rewrite Hk. simpl.
  split; [done|]. split; [by rewrite lookup_insert_eq|].
  split; [|done]. intros u Hu. by rewrite lookup_insert_ne.
Qed.

Lemma elem_of_delete_other {A} (l : list A) (i : nat) (x : A) :
  x ∈ l → l !! i ≠ Some x → x ∈ delete i l.
Proof.
  intros [j Hj]%list_elem_of_lookup Hi.
  destruct (decide (j < i)%nat) as [Hlt|Hge].
  - apply list_elem_of_lookup. exists j. by rewrite list_lookup_delete_lt by lia.
  - assert (j ≠ i) by (intros ->; congruence).
    apply list_elem_of_lookup. exists (pred j).
    rewrite list_lookup_delete_ge by lia.
    by replace (S (pred j)) with j by lia.
Qed.

(** A suspended handler stays suspended until its own upsert is
    answered. *)
Lemma step_suspended B U s ev k :
  k ∈ awaiting s →
  k ∈ awaiting (step B U s ev).1
  ∨ ∃ i f, ev = Settled i f ∧ awaiting s !! i = Some k.
Proof.
  intros Hk.
  destruct ev as [uid f rnd|text chat|i f|dt|ud se f]; cbn [Pairing.step fst].
  - left. unfold link_initiate. destruct (getTelegramChatId _ _ _) as [ex log].
    by destruct (truthy ex).
  - left. unfold on_text.
    destruct (linkingCodes s !! toUpperCase (trim text)); simpl; [|done].
    apply elem_of_app. by left.
  - destruct (decide (awaiting s !! i = Some k)) as [Hi|Hi]; [right; eauto|].
    left. unfold settle. destruct (awaiting s !! i) as [k'|] eqn:Hk'; [|done].
    destruct f; simpl; (apply elem_of_delete_other; [done|by rewrite Hk']).
  - by left.
  - left. by destruct (auth_telegram _ _ _ _ _ _).
Qed.

Lemma run_cons B U s ev evs :
  (run B U s (ev :: evs)).1 = (run B U (step B U s ev).1 evs).1.
Proof.
  simpl. destruct (step B U s ev) as [s1 o1]; simpl.
  by destruct (run B U s1 evs).
Qed.

Lemma run_suspended B U s evs k :
  k ∈ awaiting s →
  k ∈ awaiting (run B U s evs).1
  ∨ ∃ evs1 i f evs2,
      evs = evs1 ++ Settled i f :: evs2
      ∧ awaiting (run B U s evs1).1 !! i = Some k.
Proof.
  revert s; induction evs as [|ev evs IH]; intros s Hk; [by left|].
  destruct (step_suspended B U s ev k Hk) as [Hk1|(i & f & -> & Hi)].
  - rewrite run_cons. destruct (IH _ Hk1) as [?|(evs1 & i & f & evs2 & -> & Hi)];
      [by left|right].
    exists (ev :: evs1), i, f, evs2. split; [done|]. by rewrite run_cons.
  - right. by exists [], i, f, evs.
Qed.

(** The clock does not go back. *)
Lemma step_clock B U s ev : clock s ≤ clock (step B U s ev).1.
Proof.
  destruct ev as [uid f rnd|text chat|i f|dt|ud se f]; cbn [Pairing.step fst].
  - unfold link_initiate. destruct (getTelegramChatId _ _ _) as [ex log].
    by destruct (truthy ex).
  - unfold on_text. by destruct (linkingCodes s !! toUpperCase (trim text)).
  - unfold settle. destruct (awaiting s !! i) as [k|]; [|done].
    by destruct f.
  - unfold elapse; simpl. lia.
  - by destruct (auth_telegram _ _ _ _ _ _).
Qed.

Lemma run_clock B U s evs : clock s ≤ clock (run B U s evs).1.
Proof.
  revert s; induction evs as [|ev evs IH]; intros s; [done|].
  rewrite run_cons. pose proof (step_clock B U s ev).
  specialize (IH (step B U s ev).1). lia.
Qed.

(** A timer is pending until it is due: nothing cancels it. *)
Lemma step_timer B U s ev t :
  t ∈ timers s → clock (step B U s ev).1 < t.1 →
  t ∈ timers (step B U s ev).1.
Proof.
  destruct ev as [uid f rnd|text chat|i f|dt|ud se f]; cbn [Pairing.step fst].
  - unfold link_initiate. destruct (getTelegramChatId _ _ _) as [ex log].
    destruct (truthy ex); simpl; [done|]. intros Hin _.
    apply elem_of_app. by left.
  - unfold on_text. by destruct (linkingCodes s !! toUpperCase (trim text)).
  - unfold settle. destruct (awaiting s !! i) as [k|]; [|done].
    by destruct f.
  - unfold elapse; simpl. intros Hin Hlt.
    apply list_elem_of_filter. split; [lia|done].
  - by destruct (auth_telegram _ _ _ _ _ _).
Qed.

Lemma run_timer B U s evs t :
  t ∈ timers s → clock (run B U s evs).1 < t.1 →
  t ∈ timers (run B U s evs).1.
Proof.
  revert s; induction evs as [|ev evs IH]; intros s Hin; [done|].
  rewrite run_cons. intros Hlt. apply IH; [|done].
  apply step_timer; [done|].
  pose proof (run_clock B U (step B U s ev).1 evs). lia.
Qed.

(** A timer that is due deletes what the registry holds under its code. *)
Lemma elapse_due s dt t :
  t ∈ timers s → t.1 ≤ clock s + Z.max 0 dt →
  linkingCodes (elapse s dt) !! t.2 = None.
Proof.
  intros Hin Hle. rewrite elapse_lookup, decide_True; [done|].
  apply (list_elem_of_fmap_2 snd _ t). by apply list_elem_of_filter.
Qed.

(** An entry stays as it is through every event that does not touch its
    code. *)
Lemma step_keeps B U s ev c e :
  ¬ touches c s ev →
  linkingCodes s !! c = Some e → linkingCodes (step B U s ev).1 !! c = Some e.
Proof.
  intros Hev Hc.
  destruct ev as [uid f rnd|text chat|i f|dt|ud se f]; cbn [Pairing.step fst].
  - unfold link_initiate. destruct (getTelegramChatId _ _ _) as [ex log].
    destruct (truthy ex); simpl; [done|].
    by rewrite lookup_insert_ne.
  - unfold on_text. by destruct (linkingCodes s !! toUpperCase (trim text)).
  - unfold settle. destruct (awaiting s !! i) as [k|] eqn:Hk; [|done].
    destruct f as [err|]; simpl; [done|].
    rewrite lookup_delete_ne; [done|].
    intros Heq. apply Hev. simpl. by rewrite Hk, <- Heq.
  - rewrite elapse_lookup, decide_False; [done|].
    intros ([d c'] & Hc' & [Hd Hin]%list_elem_of_filter)%list_elem_of_fmap.
    simpl in *. subst c'. apply Hev. simpl.
    apply Exists_exists. by exists (d, c).
  - by destruct (auth_telegram _ _ _ _ _ _).
Qed.

Lemma run_keeps B U s evs c e :
  untouched B U c s evs →
  linkingCodes s !! c = Some e → linkingCodes (run B U s evs).1 !! c = Some e.
Proof.
  revert s; induction evs as [|ev evs IH]; intros s; [done|].
  intros [Hev Hevs] Hc. rewrite run_cons.
  apply IH; [done|]. by apply step_keeps.
Qed.

(** Events other than [initiate] set no timer. *)
Lemma step_no_timer B U s ev t :
  ¬ is_initiate ev → t ∈ timers (step B U s ev).1 → t ∈ timers s.
Proof.
  destruct ev as [uid f rnd|text chat|i f|dt|ud se f]; cbn [Pairing.step fst].
  - by intros [].
  - unfold on_text. by destruct (linkingCodes s !! toUpperCase (trim text)).
  - unfold settle. destruct (awaiting s !! i) as [k|]; [|done].
    by destruct f.
  - unfold elapse; simpl. by intros _ [_ ?]%list_elem_of_filter.
  - by destruct (auth_telegram _ _ _ _ _ _).
Qed.

Lemma run_no_timer B U s evs t :
  Forall (λ ev, ¬ is_initiate ev) evs →
  t ∈ timers (run B U s evs).1 → t ∈ timers s.
Proof.
  intros Hevs; revert s; induction Hevs as [|ev evs Hev _ IH]; intros s;
    [done|].
  rewrite run_cons. intros Hin%IH. by apply (step_no_timer B U s ev).
Qed.

(** In every run from the start of the process, the pending timers are
    not due yet. *)
Lemma timers_pending B U tbl0 t0 evs t :
  t ∈ timers (run B U (initial tbl0 t0) evs).1 →
  clock (run B U (initial tbl0 t0) evs).1 < t.1.
Proof.
  revert t. induction evs as [|ev evs IH] using rev_ind; intros t.
  - simpl. by intros ?%elem_of_nil.
  - rewrite run_snoc. set (s := (run B U (initial tbl0 t0) evs).1) in *.
    destruct ev as [uid f rnd|text chat|i f|dt|ud se f];
      cbn [Pairing.step fst].
    + unfold link_initiate. destruct (getTelegramChatId _ _ _) as [ex log].
      destruct (truthy ex); simpl; [apply IH|].
      intros [Hin| ->%list_elem_of_singleton]%elem_of_app;
        [by apply IH | simpl; unfold TTL; lia].
    + unfold on_text.
      destruct (linkingCodes s !! toUpperCase (trim text)); apply IH.
    + unfold settle. destruct (awaiting s !! i) as [k|]; [|apply IH].
      destruct f; simpl; apply IH.
    + unfold elapse; simpl. intros [Hnd _]%list_elem_of_filter. lia.
    + destruct (auth_telegram _ _ _ _ _ _). apply IH.
Qed.

Lemma run_run B U s evs1 evs2 :
  (run B U (run B U s evs1).1 evs2).1 = (run B U s (evs1 ++ evs2)).1.
Proof.
  rewrite run_app. destruct (run B U s evs1) as [s1 o1]; simpl.
  by destruct (run B U s1 evs2).
Qed.

End LifetimeProperties.

(** * The claims *)

(** ** C1 and C5: the hash verifier *)

(** C1 as stated does not hold, for two reasons.  With the empty secret
    [verify] is false although the payload's [hash] is exactly the
    prescribed HMAC; and for the secret [T] a payload whose field names are
    U+FF5E and U+1F600 verifies although its [hash] is not the HMAC of the
    check-string sorted byte-wise: [sort()] compares UTF-16 code units,
    and the surrogate pair (D83D DE00) sorts before FF5E, while its bytes
    (F0 ..) sort after those of U+FF5E (EF ..). *)
Lemma verify_not_iff_bytewise_signature :
  (validateTelegramHash (Some []) only_hash = false
   ∧ only_hash !! js "hash"
     = Some (Spec.signature_bytewise [] only_hash))
  ∧ (validateTelegramHash (Some (js "T")) astral = true
     ∧ astral !! js "hash"
       ≠ Some (Spec.signature_bytewise (js "T") astral)).
Proof. vm_compute. repeat split; intros; discriminate. Qed.

(** C1, amended: for every payload [P] and every non-empty secret [S],
    [verify] is true exactly when [P.hash] equals the lowercase-hex
    HMAC-SHA256, keyed with the raw SHA256 digest of [S], of the
    check-string built by rendering every field except [hash] as
    [key=value], sorting these strings ascending by UTF-16 code units and
    joining them with a newline; the comparison is an exact match of the
    two strings.  When no field name or value holds a surrogate code unit
    this order is the byte-wise order of the claim. *)
Theorem validateTelegramHash_spec (S : jsstring) (P : Query) :
  S ≠ [] →
  (validateTelegramHash (Some S) P = true
   ↔ P !! js "hash" = Some (Spec.signature_code_units S P))
  ∧ (Spec.bmp_payload P
     → Spec.signature_code_units S P = Spec.signature_bytewise S P).
Proof.
  intros HS. split; [by apply validateTelegramHash_code_units|].
  intros HP. unfold Spec.signature_code_units, Spec.signature_bytewise.
  by rewrite checkString_bytewise.
Qed.

Lemma validateTelegramHash_spec_witness :
  js "T" ≠ []
  ∧ validateTelegramHash (Some (js "T")) bo = true
  ∧ Spec.signature_code_units (js "T") bo
    = Spec.signature_bytewise (js "T") bo.
Proof.
  assert (HT : js "T" ≠ []) by discriminate.
  destruct (validateTelegramHash_spec (js "T") bo HT) as [Hiff Hbmp].
  split; [exact HT|]. split.
  - apply Hiff. vm_compute. reflexivity.
  - apply Hbmp. compute_done.
Defined.

(** C5: with the bot secret unset or empty, [verify] returns false for
    every payload; the guard returns before any key is derived. *)
Theorem validateTelegramHash_fails_closed (P : Query) :
  validateTelegramHash None P = false
  ∧ validateTelegramHash (Some []) P = false.
Proof. done. Qed.

(** ** The pairing registry, the resolver and the widget callback *)

(** C2: in every run of the subsystem, every upsert that a text handler
    has issued and that the store has not answered yet was issued for a
    code then live in the registry; and whenever a step changes the link
    stored for a user, either the step is a widget callback whose payload
    passed the HMAC check, and the chat written is the signed [id]; or the
    write is the upsert of a text handler that, earlier in the run, was
    sent a code then live in the registry, and it links the code's owner
    to the chat that message came from. *)
Theorem link_written_only_after_proof `{!CaseMapping} B U tbl0 t0 evs :
  let s := (run B U (initial tbl0 t0) evs).1 in
  (∀ k, k ∈ awaiting s → justified B U (initial tbl0 t0) evs k)
  ∧ ∀ ev u,
      let s' := (step B U s ev).1 in
      user_telegram_settings s' !! u ≠ user_telegram_settings s !! u →
      (∃ userData session failure id,
         ev = WidgetCallback userData session failure
         ∧ validateTelegramHash B userData = true
         ∧ userData !! js "id" = Some id
         ∧ session = Some u
         ∧ Supabase.telegram_chat_id <$> user_telegram_settings s' !! u
           = Some id)
      ∨ (∃ evs1 text chat_id evs2 e,
           evs = evs1 ++ Text text chat_id :: evs2
           ∧ linkingCodes (run B U (initial tbl0 t0) evs1).1
               !! toUpperCase (trim text) = Some e
           ∧ userId e = u
           ∧ Supabase.telegram_chat_id <$> user_telegram_settings s' !! u
             = Some (Number_toString chat_id)).
Proof.
  intros s. split; [intros k; by apply awaiting_justified|].
  intros ev u s' [Hw|(i & k & -> & Hk & Hu & Hc)]%step_table; [by left|].
  right. apply list_elem_of_lookup_2 in Hk.
  apply awaiting_justified in Hk as
    (evs1 & text & chat & evs2 & e & -> & He & _ & Ho & Ht); [|done].
  exists evs1, text, chat, evs2, e. subst s'. by rewrite Hc, <- Ho, Ht.
Qed.

(** The scenario of §8: [initiate("user-42")] issues [A3B9C4], the chat
    998877 sends [a3b9c4], and the upsert of that handler settles. *)
Lemma link_written_only_after_proof_witness :
  let evs := [Initiate user42 None A3B9C4; Text (js "a3b9c4") 998877] in
  let s := (@run ascii_case None None (initial ∅ 0) evs).1 in
  let s' := (@step ascii_case None None s (Settled 0 None)).1 in
  user_telegram_settings s' !! user42 ≠ user_telegram_settings s !! user42
  ∧ ((∃ userData session failure id,
        Settled 0 None = WidgetCallback userData session failure
        ∧ validateTelegramHash None userData = true
        ∧ userData !! js "id" = Some id
        ∧ session = Some user42
        ∧ Supabase.telegram_chat_id <$> user_telegram_settings s' !! user42
          = Some id)
     ∨ (∃ evs1 text chat_id evs2 e,
          evs = evs1 ++ Text text chat_id :: evs2
          ∧ linkingCodes (@run ascii_case None None (initial ∅ 0) evs1).1
              !! ascii_toUpperCase (trim text) = Some e
          ∧ userId e = user42
          ∧ Supabase.telegram_chat_id <$> user_telegram_settings s' !! user42
            = Some (Number_toString chat_id))).
Proof.
  intros evs s s'.
  assert (Hw : user_telegram_settings s' !! user42
               ≠ user_telegram_settings s !! user42)
    by (vm_compute; discriminate).
  split; [exact Hw|].
  exact (proj2 (@link_written_only_after_proof ascii_case None None ∅ 0 evs)
           (Settled 0 None) user42 Hw).
Defined.

(** C4: when the upsert of a redemption fails, the handler answers with
    the error reply (PersistenceFailed) and leaves everything as it found
    it: the code is still live and the registry is unchanged.  This holds
    for a handler that runs alone and for one that resumes after other
    handlers ran.  A handler takes no code out of the registry before its
    upsert is answered, and whenever a handler that resumes takes a code
    out, its upsert had succeeded and the link is in the table. *)
Theorem redeem_persistence_failed `{!CaseMapping} s text chat_id e err :
  linkingCodes s !! toUpperCase (trim text) = Some e →
  redeem s text chat_id (Some err)
  = (s, [ConsoleError (js "Database link error:");
         CtxReply chat_id ReplyError])
  ∧ (∀ s' i, linkingCodes (settle s' i (Some err)).1 = linkingCodes s')
  ∧ (∀ s' text' chat_id',
       linkingCodes (on_text s' text' chat_id').1 = linkingCodes s')
  ∧ (∀ s' i failure c,
       is_Some (linkingCodes s' !! c) →
       linkingCodes (settle s' i failure).1 !! c = None →
       failure = None
       ∧ ∃ k, awaiting s' !! i = Some k ∧ receivedCode k = c
           ∧ Supabase.telegram_chat_id
               <$> user_telegram_settings (settle s' i failure).1 !! owner k
             = Some (telegramChatId k)).
Proof.
  intros He. split; [|split; [|split]].
  - rewrite (redeem_live _ _ _ _ _ He); simpl.
    unfold with_table; simpl. by rewrite state_eta.
  - intros s' i. apply settle_failure.
  - intros s' text' chat_id'. unfold on_text.
    by destruct (linkingCodes s' !! toUpperCase (trim text')).
  - intros s' i failure c. apply settle_removes.
Qed.

Lemma redeem_persistence_failed_witness :
  let s := (@link_initiate ascii_case (initial ∅ 0) user42 None A3B9C4).1 in
  linkingCodes s !! js "A3B9C4" = Some {| userId := user42; timestamp := 0 |}
  ∧ @redeem ascii_case s (js " a3b9c4 ") 998877 (Some query_canceled)
    = (s, [ConsoleError (js "Database link error:");
           CtxReply 998877 ReplyError]).
Proof.
  intros s.
  assert (Hlive : linkingCodes s
                    !! @toUpperCase ascii_case (trim (js " a3b9c4 "))
                  = Some {| userId := user42; timestamp := 0 |})
    by (vm_compute; reflexivity).
  split; [exact Hlive|].
  exact (proj1 (@redeem_persistence_failed ascii_case s (js " a3b9c4 ")
                  998877 _ query_canceled Hlive)).
Defined.


(** C3 as stated does not hold for a concurrent attempt.  The code
    [A3B9C4] is live; chat 998877 sends it, and chat 111 sends it while the
    first handler still awaits its upsert, so [linkingCodes.has] is true
    for both; both upserts succeed.  Both chats are answered Success, and
    the link of [user-42] ends up pointing to chat 111. *)
Lemma concurrent_redemptions_both_succeed :
  let s := (@link_initiate ascii_case (initial ∅ 0) user42 None A3B9C4).1 in
  let r := @run ascii_case None None s
             [Text (js "a3b9c4") 998877; Text (js "A3B9C4") 111;
              Settled 0 None; Settled 0 None] in
  linkingCodes s !! js "A3B9C4" = Some {| userId := user42; timestamp := 0 |}
  ∧ r.2 = [CtxReply 998877 ReplySuccess; CtxReply 111 ReplySuccess]
  ∧ Supabase.telegram_chat_id <$> user_telegram_settings r.1 !! user42
    = Some (js "111").
Proof. split; [|split]; vm_compute; reflexivity. Qed.

(** C3, amended.  For every live code [c], an attempt with [c] is not
    refused: its handler issues the upsert for the owner the registry
    holds for [c] at that moment, and stays suspended, whatever else is
    handled meanwhile, until that upsert is answered.  When the upsert
    succeeds the handler answers Success, the link of that owner to the
    chat is written, and [c] is removed; every attempt with [c] that
    arrives after the removal, whatever happened in between short of
    [initiate] generating [c] again, answers Unrecognized and changes
    nothing.  There is no lock: an attempt that arrives while [c] is in
    the registry, as it is while the first handler awaits its upsert
    unless something removed it, issues an upsert of its own, for the
    owner the registry then holds.  The last five parts are the case of a
    handler that runs with nothing in between. *)
Theorem redeem_once `{!CaseMapping} s text chat_id e :
  linkingCodes s !! toUpperCase (trim text) = Some e →
  let c := toUpperCase (trim text) in
  let k := {| receivedCode := c; owner := userId e;
              telegramChatId := Number_toString chat_id;
              ctx_chat := chat_id |} in
  let s1 := (redeem s text chat_id None).1 in
  on_text s text chat_id = (with_awaiting (awaiting s ++ [k]) s, [])
  ∧ (∀ B U evs,
       k ∈ awaiting (run B U (on_text s text chat_id).1 evs).1
       ∨ ∃ evs1 i f evs2,
           evs = evs1 ++ Settled i f :: evs2
           ∧ awaiting (run B U (on_text s text chat_id).1 evs1).1 !! i
             = Some k)
  ∧ (∀ s' i,
       awaiting s' !! i = Some k →
       let s2 := (settle s' i None).1 in
       (settle s' i None).2 = [CtxReply chat_id ReplySuccess]
       ∧ Supabase.telegram_chat_id <$> user_telegram_settings s2 !! userId e
         = Some (Number_toString chat_id)
       ∧ linkingCodes s2 = delete c (linkingCodes s')
       ∧ ∀ B U evs text' chat_id',
           Forall (λ ev, ¬ issues c ev) evs →
           toUpperCase (trim text') = c →
           let s3 := (run B U s2 evs).1 in
           on_text s3 text' chat_id' = (s3, [CtxReply chat_id' ReplyHelp]))
  ∧ (∀ s' e' text' chat_id',
       linkingCodes s' !! c = Some e' →
       toUpperCase (trim text') = c →
       on_text s' text' chat_id'
       = (with_awaiting
            (awaiting s' ++ [{| receivedCode := c; owner := userId e';
                                telegramChatId := Number_toString chat_id';
                                ctx_chat := chat_id' |}]) s',
          []))
  ∧ (redeem s text chat_id None).2 = [CtxReply chat_id ReplySuccess]
  ∧ Supabase.telegram_chat_id <$> user_telegram_settings s1 !! userId e
    = Some (Number_toString chat_id)
  ∧ linkingCodes s1 = delete c (linkingCodes s)
  ∧ (∀ B U evs text' chat_id' failure,
       Forall (λ ev, ¬ issues c ev) evs →
       toUpperCase (trim text') = c →
       let s2 := (run B U s1 evs).1 in
       redeem s2 text' chat_id' failure
       = (s2, [CtxReply chat_id' ReplyHelp]))
  ∧ (∀ text' chat_id',
       toUpperCase (trim text') = c →
       let s' := (on_text s text chat_id).1 in
       on_text s' text' chat_id'
       = (with_awaiting
            (awaiting s' ++ [{| receivedCode := c; owner := userId e;
                                telegramChatId := Number_toString chat_id';
                                ctx_chat := chat_id' |}]) s',
          [])).
Proof.
  intros He c k s1. subst c k s1.
  destruct (redeem_succeeds s text chat_id e He) as (Ho & Ht & Hd & _).
  split; [by apply on_text_live|]. split.
  { intros B U evs. apply run_suspended.
    rewrite (on_text_live _ _ _ _ He). simpl.
    apply elem_of_app; right. by left. }
  split.
  { intros s' i Hk s2.
    destruct (settle_success s' i _ Hk) as (Hout & Hrow & _ & Hdel & _).
    split; [done|]. split; [done|]. split; [done|].
    intros B U evs text' chat_id' Hevs Htext s3.
    apply on_text_absent. rewrite Htext.
    apply run_absent; [done|]. subst s2. rewrite Hdel.
    apply lookup_delete_eq. }
  split.
  { intros s' e' text' chat_id' He' Htext.
    rewrite <- Htext in He'. rewrite (on_text_live _ _ _ _ He').
    by rewrite Htext. }
  split; [done|]. split; [done|]. split; [done|]. split.
  - intros B U evs text' chat_id' failure Hevs Htext.
    apply redeem_absent. rewrite Htext.
    apply run_absent; [done|]. rewrite Hd. apply lookup_delete_eq.
  - intros text' chat_id' Htext s'.
    assert (Hs' : linkingCodes s' = linkingCodes s).
    { subst s'. unfold on_text. by rewrite He. }
    unfold on_text. by rewrite Htext, Hs', He.
Qed.

Lemma redeem_once_witness :
  let s := (@link_initiate ascii_case (initial ∅ 0) user42 None A3B9C4).1 in
  let k := {| receivedCode := js "A3B9C4"; owner := user42;
              telegramChatId := js "998877"; ctx_chat := 998877 |} in
  let s' := (@run ascii_case None None
               (@on_text ascii_case s (js " a3b9c4 ") 998877).1
               [Text (js "hello") 5; Elapse 1000;
                Initiate (js "user-7") None C0FFEE]).1 in
  let s2 := (settle s' 0 None).1 in
  awaiting s' !! 0%nat = Some k
  ∧ (settle s' 0 None).2 = [CtxReply 998877 ReplySuccess]
  ∧ Supabase.telegram_chat_id <$> user_telegram_settings s2 !! user42
    = Some (js "998877")
  ∧ linkingCodes s2 !! js "A3B9C4" = None
  ∧ @on_text ascii_case
      (@run ascii_case None None s2 [Elapse 1000]).1 (js "A3B9C4") 111
    = ((@run ascii_case None None s2 [Elapse 1000]).1,
       [CtxReply 111 ReplyHelp]).
Proof.
  intros s k s' s2.
  assert (Hlive : linkingCodes s
                    !! @toUpperCase ascii_case (trim (js " a3b9c4 "))
                  = Some {| userId := user42; timestamp := 0 |})
    by (vm_compute; reflexivity).
  assert (Hk : awaiting s' !! 0%nat = Some k) by (vm_compute; reflexivity).
  destruct (@redeem_once ascii_case s (js " a3b9c4 ") 998877 _ Hlive)
    as (_ & _ & Hsettle & _).
  destruct (Hsettle s' 0%nat Hk) as (Hout & Hrow & Hdel & Hnext).
  split; [exact Hk|]. split; [exact Hout|]. split; [exact Hrow|].
  split; [subst s2; rewrite Hdel; apply lookup_delete_eq|].
  apply (Hnext None None [Elapse 1000] (js "A3B9C4") 111).
  - repeat constructor. intros [].
  - vm_compute; reflexivity.
Defined.

(** C6 as stated does not hold when the store fails to answer the lookup:
    [user-42] has a persisted link, the query comes back with an error
    other than PGRST116, [getTelegramChatId] returns null, and [initiate]
    answers with a new code that is now in the registry. *)
Lemma link_initiate_linked_owner_store_failure :
  let s := initial linked 0 in
  let r := @link_initiate ascii_case s user42 (Some query_canceled) A3B9C4 in
  Supabase.telegram_chat_id <$> user_telegram_settings s !! user42
  = Some (js "998877")
  ∧ r.2 = [ConsoleError (js "Database Error retrieving chat ID:");
           Send 200 false (Some (js "A3B9C4"))]
  ∧ linkingCodes s !! js "A3B9C4" = None
  ∧ linkingCodes r.1 !! js "A3B9C4"
    = Some {| userId := user42; timestamp := 0 |}.
Proof. repeat split; vm_compute; reflexivity. Qed.

(** C6, amended: for an owner whose persisted link the store returns, with
    a chat id that is not the empty string, [initiate] answers "already
    linked" and changes nothing: no code is generated, the registry and
    the timers are as before.  When the lookup fails, the same owner is
    answered with a new code, which is registered. *)
Theorem link_initiate_already_linked `{!CaseMapping} s userId r randomBytes :
  user_telegram_settings s !! userId = Some r →
  Supabase.telegram_chat_id r ≠ [] →
  link_initiate s userId None randomBytes = (s, [Send 200 true None])
  ∧ ∀ err,
      Send 200 false (Some (generate randomBytes))
        ∈ (link_initiate s userId (Some err) randomBytes).2
      ∧ linkingCodes (link_initiate s userId (Some err) randomBytes).1
        = <[generate randomBytes :=
              {| userId := userId; timestamp := clock s |}]> (linkingCodes s).
Proof.
  intros Hr Hc. split.
  - unfold link_initiate. rewrite (getTelegramChatId_row _ _ _ Hr).
    by destruct (Supabase.telegram_chat_id r).
  - intros err. unfold link_initiate.
    pose proof (getTelegramChatId_failure (user_telegram_settings s) userId err)
      as Hex.
    destruct (getTelegramChatId _ _ _) as [ex log]; simpl in Hex; subst ex.
    simpl. split; [|done]. apply elem_of_app; right. by left.
Qed.

Lemma link_initiate_already_linked_witness :
  @link_initiate ascii_case (initial linked 0) user42 None A3B9C4
  = (initial linked 0, [Send 200 true None]).
Proof.
  refine (proj1 (@link_initiate_already_linked ascii_case (initial linked 0)
                   user42
                   {| Supabase.telegram_chat_id := js "998877";
                      Supabase.telegram_username := None |} A3B9C4 _ _)).
  - vm_compute; reflexivity.
  - vm_compute; discriminate.
Defined.

(** C9 as stated does not hold when [crypto.randomBytes(3)] returns the same
    bytes twice: both calls answer with the code [A3B9C4], and the registry
    holds one entry. *)
Lemma link_initiate_twice_same_bytes :
  let r := @run ascii_case None None (initial ∅ 0)
             [Initiate user42 None A3B9C4; Initiate user42 None A3B9C4] in
  r.2 = [Send 200 false (Some (js "A3B9C4"));
         Send 200 false (Some (js "A3B9C4"))]
  ∧ map_to_list (linkingCodes r.1)
    = [(js "A3B9C4", {| userId := user42; timestamp := 0 |})].
Proof. split; vm_compute; reflexivity. Qed.

(** The first of two codes is not there for ever: with 600 s between the
    two calls the first code has expired when the second is issued, and
    a timer left from an earlier issue of the same value removes the
    first code before its own 600 s are over. *)
Lemma link_initiate_twice_first_code_gone :
  let r := @run ascii_case None None (initial ∅ 0)
             [Initiate user42 None A3B9C4; Elapse 600000;
              Initiate user42 None C0FFEE] in
  let r' := @run ascii_case None None (initial ∅ 0)
              [Initiate (js "user-7") None A3B9C4;
               Text (js "A3B9C4") 7; Settled 0 None;
               Elapse 599000;
               Initiate user42 None A3B9C4; Elapse 1000;
               Initiate user42 None C0FFEE] in
  linkingCodes r.1 !! js "A3B9C4" = None
  ∧ @redeem ascii_case r.1 (js "A3B9C4") 998877 None
    = (r.1, [CtxReply 998877 ReplyHelp])
  ∧ user_telegram_settings r'.1 !! user42 = None
  ∧ linkingCodes r'.1 !! js "A3B9C4" = None
  ∧ linkingCodes r'.1 !! js "C0FFEE"
    = Some {| userId := user42; timestamp := 600000 |}.
Proof.
  repeat (split; [vm_compute; reflexivity|]).
  vm_compute; reflexivity.
Qed.

(** C9, amended.  For an owner without a link at both calls, each of two
    [initiate] calls, whatever happens between them, registers the code it
    generated for the owner and answers with it, and the second call
    leaves every other entry as it is.  The first code is still
    registered at the second call when nothing touched it in between: no
    redemption of it, no timer for its value coming due (its own is due
    600 s after the first call) and no [initiate] generating it again.
    When the two codes differ and the first is still registered, both are
    live after the second call, and each redeems successfully, in either
    order, when its upsert succeeds; in general a live code redeems
    successfully after any events that do not touch it, and its
    redemption leaves every other entry as it is.  When the two codes are
    the same, the second call overwrote the entry of the first and one
    code is live for that value. *)
Theorem link_initiate_twice `{!CaseMapping} B U s userId f1 f2 rnd1 rnd2 evs :
  user_telegram_settings s !! userId = None →
  let s1 := (link_initiate s userId f1 rnd1).1 in
  let s' := (run B U s1 evs).1 in
  user_telegram_settings s' !! userId = None →
  let s2 := (link_initiate s' userId f2 rnd2).1 in
  let e1 := {| userId := userId; timestamp := clock s |} in
  let e2 := {| userId := userId; timestamp := clock s' |} in
  linkingCodes s1 = <[generate rnd1 := e1]> (linkingCodes s)
  ∧ Send 200 false (Some (generate rnd1)) ∈ (link_initiate s userId f1 rnd1).2
  ∧ linkingCodes s2 = <[generate rnd2 := e2]> (linkingCodes s')
  ∧ Send 200 false (Some (generate rnd2))
    ∈ (link_initiate s' userId f2 rnd2).2
  ∧ (untouched B U (generate rnd1) s1 evs →
     linkingCodes s' !! generate rnd1 = Some e1)
  ∧ (generate rnd1 = generate rnd2 →
     linkingCodes s2 !! generate rnd1 = Some e2)
  ∧ (generate rnd1 ≠ generate rnd2 →
     linkingCodes s' !! generate rnd1 = Some e1 →
     linkingCodes s2 !! generate rnd1 = Some e1
     ∧ linkingCodes s2 !! generate rnd2 = Some e2
     ∧ ∀ text1 chat1 text2 chat2,
         toUpperCase (trim text1) = generate rnd1 →
         toUpperCase (trim text2) = generate rnd2 →
         ((redeem s2 text1 chat1 None).2 = [CtxReply chat1 ReplySuccess]
          ∧ (redeem (redeem s2 text1 chat1 None).1 text2 chat2 None).2
            = [CtxReply chat2 ReplySuccess])
         ∧ ((redeem s2 text2 chat2 None).2 = [CtxReply chat2 ReplySuccess]
            ∧ (redeem (redeem s2 text2 chat2 None).1 text1 chat1 None).2
              = [CtxReply chat1 ReplySuccess]))
  ∧ (∀ s3 evs3 c e text chat_id,
       linkingCodes s3 !! c = Some e →
       untouched B U c s3 evs3 →
       toUpperCase (trim text) = c →
       let s4 := (run B U s3 evs3).1 in
       (redeem s4 text chat_id None).2 = [CtxReply chat_id ReplySuccess]
       ∧ Supabase.telegram_chat_id
           <$> user_telegram_settings (redeem s4 text chat_id None).1
               !! Pairing.userId e
         = Some (Number_toString chat_id)
       ∧ ∀ c', c' ≠ c →
           linkingCodes (redeem s4 text chat_id None).1 !! c'
           = linkingCodes s4 !! c').
Proof.
  intros Hr s1 s' Hr' s2 e1 e2.
  destruct (link_initiate_unlinked s userId f1 rnd1 Hr)
    as (Hl1 & _ & _ & _ & _ & Hs1).
  fold s1 in Hl1.
  destruct (link_initiate_unlinked s' userId f2 rnd2 Hr')
    as (Hl2 & _ & _ & _ & _ & Hs2).
  fold s2 in Hl2.
  split; [done|]. split; [done|]. split; [done|]. split; [done|].
  split.
  { intros Hevs. apply run_keeps; [done|]. by rewrite Hl1, lookup_insert_eq. }
  split.
  { intros Heq. by rewrite Hl2, Heq, lookup_insert_eq. }
  split.
  { intros Hne He1.
    assert (H1 : linkingCodes s2 !! generate rnd1 = Some e1)
      by by rewrite Hl2, lookup_insert_ne.
    assert (H2 : linkingCodes s2 !! generate rnd2 = Some e2)
      by by rewrite Hl2, lookup_insert_eq.
    split; [done|]. split; [done|].
    intros text1 chat1 text2 chat2 Ht Ht'.
    rewrite <- Ht in H1. rewrite <- Ht' in H2.
    destruct (redeem_succeeds s2 text1 chat1 e1 H1) as (Ho1 & _ & Hd1 & _).
    destruct (redeem_succeeds s2 text2 chat2 e2 H2) as (Ho2 & _ & Hd2 & _).
    split; (split; [done|]).
    - eapply redeem_succeeds.
      rewrite Hd1, lookup_delete_ne; [done|]. congruence.
    - eapply redeem_succeeds.
      rewrite Hd2, lookup_delete_ne; [done|]. congruence. }
  intros s3 evs3 c e text chat_id He Hevs Htext s4.
  assert (H4 : linkingCodes s4 !! toUpperCase (trim text) = Some e).
  { rewrite Htext. by apply run_keeps. }
  destruct (redeem_succeeds s4 text chat_id e H4) as (Ho & Hrow & Hd & _).
  split; [done|]. split; [done|].
  intros c' Hne. rewrite Hd, lookup_delete_ne; [done|]. congruence.
Qed.

Lemma link_initiate_twice_witness :
  let between := [Elapse 1000; Text (js "hello") 5; Elapse 1000] in
  let s1 := (@link_initiate ascii_case (initial ∅ 0) user42 None A3B9C4).1 in
  let s' := (@run ascii_case None None s1 between).1 in
  let s2 := (@link_initiate ascii_case s' user42 None C0FFEE).1 in
  linkingCodes s2 !! js "A3B9C4" = Some {| userId := user42; timestamp := 0 |}
  ∧ linkingCodes s2 !! js "C0FFEE"
    = Some {| userId := user42; timestamp := 2000 |}
  ∧ (@redeem ascii_case s2 (js "a3b9c4") 998877 None).2
    = [CtxReply 998877 ReplySuccess]
  ∧ (@redeem ascii_case
       (@redeem ascii_case s2 (js "a3b9c4") 998877 None).1
       (js "c0ffee") 111 None).2
    = [CtxReply 111 ReplySuccess]
  ∧ (@redeem ascii_case
       (@run ascii_case None None s2 [Elapse 300000]).1
       (js "c0ffee") 111 None).2
    = [CtxReply 111 ReplySuccess].
Proof.
  intros between s1 s' s2.
  assert (Hu : user_telegram_settings (initial ∅ 0) !! user42 = None)
    by (vm_compute; reflexivity).
  assert (Hu' : user_telegram_settings s' !! user42 = None)
    by (vm_compute; reflexivity).
  assert (Hne : @generate ascii_case A3B9C4 ≠ @generate ascii_case C0FFEE)
    by (vm_compute; discriminate).
  assert (Hevs : @untouched ascii_case None None
                   (@generate ascii_case A3B9C4) s1 between)
    by compute_done.
  destruct (@link_initiate_twice ascii_case None None (initial ∅ 0) user42
              None None A3B9C4 C0FFEE between Hu Hu')
    as (_ & _ & _ & _ & Hkept & _ & Hdiff & Hany).
  destruct (Hdiff Hne (Hkept Hevs)) as (H1 & H2 & Hredeem).
  split; [exact H1|]. split; [exact H2|].
  destruct (Hredeem (js "a3b9c4") 998877 (js "c0ffee") 111) as [[Ha Hb] _];
    [vm_compute; reflexivity..|].
  split; [exact Ha|]. split; [exact Hb|].
  apply (Hany s2 [Elapse 300000] (js "C0FFEE") _ (js "c0ffee") 111 H2).
  - compute_done.
  - vm_compute; reflexivity.
Defined.


(** C7 as stated does not hold when [initiate] draws a value again.  The
    timer is set for the value of the code, not for the entry.  In the
    first run [A3B9C4] is issued to [user-42] at 0 and redeemed at once;
    at 599000 [initiate] draws [A3B9C4] for [user-7]; at 600000 the timer
    of the first issue, whose code was already removed, fires, and it is
    not a no-op: it deletes the entry of [user-7], 1 s and not 600 s
    after its creation.  In the second run [A3B9C4] is issued at 0 and
    again at 600000: an attempt made when the 600 s of the first issue
    have elapsed is answered Success. *)
Lemma stale_timer_deletes_reissued_code :
  let r := @run ascii_case None None (initial ∅ 0)
             [Initiate user42 None A3B9C4;
              Text (js "A3B9C4") 998877; Settled 0 None;
              Elapse 599000;
              Initiate (js "user-7") None A3B9C4] in
  let r' := @run ascii_case None None (initial ∅ 0)
              [Initiate user42 None A3B9C4;
               Elapse 600000;
               Initiate (js "user-7") None A3B9C4;
               Text (js "A3B9C4") 5; Settled 0 None] in
  linkingCodes r.1 !! js "A3B9C4"
  = Some {| userId := js "user-7"; timestamp := 599000 |}
  ∧ timers r.1 = [(600000, js "A3B9C4"); (1199000, js "A3B9C4")]
  ∧ linkingCodes (elapse r.1 1000) = ∅
  ∧ clock (elapse r.1 1000) = 600000
  ∧ @redeem ascii_case (elapse r.1 1000) (js "A3B9C4") 7 None
    = (elapse r.1 1000, [CtxReply 7 ReplyHelp])
  ∧ clock r'.1 = 600000
  ∧ r'.2 = [Send 200 false (Some (js "A3B9C4"));
            Send 200 false (Some (js "A3B9C4"));
            CtxReply 5 ReplySuccess].
Proof.
  repeat (split; [vm_compute; reflexivity|]).
  vm_compute; reflexivity.
Qed.

(** C7, amended.  A code that [initiate] issues gets, with its entry, a
    timer that is due [10 * 60 * 1000] ms = 600 s later and deletes the
    value of the code.  Nothing cancels the timer: redemption does not
    touch it, and it is pending in every later state until it is due.
    When it fires it deletes whatever entry the registry then holds under
    that value, also one that a later [initiate] put there; timers whose
    codes are gone fire without effect.  Whatever happens after the code
    was issued, short of [initiate] generating the same value again, a
    redemption attempt with it once 600 s have passed answers
    Unrecognized; and in no run does the registry hold an entry that is
    600 s old. *)
Theorem code_expires_after_ttl `{!CaseMapping}
    s0 userId failure0 randomBytes c :
  Send 200 false (Some c)
    ∈ (link_initiate s0 userId failure0 randomBytes).2 →
  let s1 := (link_initiate s0 userId failure0 randomBytes).1 in
  TTL = 600 * 1000
  ∧ linkingCodes s1 !! c
    = Some {| userId := userId; timestamp := clock s0 |}
  ∧ timers s1 = timers s0 ++ [(clock s0 + TTL, c)]
  ∧ (∀ s text chat_id failure,
       timers (redeem s text chat_id failure).1 = timers s)
  ∧ (∀ B U evs,
       clock (run B U s1 evs).1 < clock s0 + TTL →
       (clock s0 + TTL, c) ∈ timers (run B U s1 evs).1)
  ∧ (∀ B U evs dt,
       let s := (run B U s1 evs).1 in
       clock s < clock s0 + TTL → clock s0 + TTL ≤ clock s + dt →
       linkingCodes (elapse s dt) !! c = None)
  ∧ (∀ s dt,
       (∀ t, t ∈ timers s → t.1 ≤ clock s + Z.max 0 dt →
             linkingCodes s !! t.2 = None) →
       linkingCodes (elapse s dt) = linkingCodes s)
  ∧ (∀ B U evs text chat_id failure,
       Forall (λ ev, ¬ issues c ev) evs →
       let s := (run B U s1 evs).1 in
       clock s0 + TTL ≤ clock s →
       toUpperCase (trim text) = c →
       redeem s text chat_id failure = (s, [CtxReply chat_id ReplyHelp]))
  ∧ (∀ B U tbl0 t0 evs c' e,
       let s := (run B U (initial tbl0 t0) evs).1 in
       linkingCodes s !! c' = Some e → clock s < timestamp e + TTL).
Proof.
  intros Hsend s1.
  destruct (link_initiate_issued _ _ _ _ _ Hsend) as (Hc & Hl & Ht & Hk).
  fold s1 in Hl, Ht, Hk.
  assert (Hin : (clock s0 + TTL, c) ∈ timers s1).
  { rewrite Ht. apply elem_of_app; right. by left. }
  split; [done|]. split; [by rewrite Hl, lookup_insert_eq|].
  split; [done|]. split; [apply redeem_timers|].
  split; [intros B U evs; by apply (run_timer B U s1 evs (clock s0 + TTL, c))|].
  split.
  { intros B U evs dt s Hlt Hle.
    apply (elapse_due s dt (clock s0 + TTL, c));
      [by apply (run_timer B U s1 evs (clock s0 + TTL, c))|].
    simpl. lia. }
  split; [apply elapse_noop|].
  split.
  - intros B U evs text chat_id failure Hevs s Hclock Htext.
    apply redeem_absent. rewrite Htext.
    assert (H1 : within_ttl c (clock s0) s1).
    { intros _. by rewrite Hk; split; [|unfold TTL; lia]. }
    pose proof (run_within_ttl B U s1 evs c (clock s0) Hevs H1) as Hs.
    fold s in Hs. destruct (linkingCodes s !! c) as [e|] eqn:He; [|done].
    destruct Hs as [_ Hlt]; [by eexists|]. lia.
  - intros B U tbl0 t0 evs c' e s He.
    by destruct (live_codes_within_ttl B U tbl0 t0 evs c' e He).
Qed.

Lemma code_expires_after_ttl_witness :
  let s1 := (@link_initiate ascii_case (initial ∅ 0) user42 None A3B9C4).1 in
  let s := (@run ascii_case None None s1 [Elapse 600000]).1 in
  let s' := (@run ascii_case None None s1
               [Text (js "A3B9C4") 998877; Settled 0 None; Elapse 599000;
                Initiate (js "user-7") None A3B9C4]).1 in
  linkingCodes s1 !! js "A3B9C4" = Some {| userId := user42; timestamp := 0 |}
  ∧ timers s1 = [(600000, js "A3B9C4")]
  ∧ @redeem ascii_case s (js "a3b9c4") 998877 None
    = (s, [CtxReply 998877 ReplyHelp])
  ∧ (600000, js "A3B9C4") ∈ timers s'
  ∧ linkingCodes (elapse s' 1000) !! js "A3B9C4" = None.
Proof.
  intros s1 s s'.
  assert (Hsend : Send 200 false (Some (js "A3B9C4"))
                  ∈ (@link_initiate ascii_case (initial ∅ 0) user42 None
                       A3B9C4).2)
    by (vm_compute; left).
  destruct (@code_expires_after_ttl ascii_case (initial ∅ 0) user42 None
              A3B9C4 (js "A3B9C4") Hsend)
    as (_ & Hlive & Htimer & _ & Hpend & Hfire & _ & Hexp & _).
  split; [exact Hlive|]. split; [exact Htimer|]. split; [|split].
  - apply (Hexp None None [Elapse 600000] (js "a3b9c4") 998877 None).
    + repeat constructor. intros [].
    + vm_compute; discriminate.
    + vm_compute; reflexivity.
  - apply (Hpend None None
             [Text (js "A3B9C4") 998877; Settled 0 None; Elapse 599000;
              Initiate (js "user-7") None A3B9C4]).
    vm_compute; reflexivity.
  - apply (Hfire None None
             [Text (js "A3B9C4") 998877; Settled 0 None; Elapse 599000;
              Initiate (js "user-7") None A3B9C4] 1000).
    + vm_compute; reflexivity.
    + vm_compute; discriminate.
Defined.

(** C8 as stated does not hold for a failure of the store: [user-42] has a
    record, the query fails with an error other than PGRST116, and the
    caller receives null, the very value it receives when there is no
    record; the failure only shows in the server's console. *)
Lemma getTelegramChatId_failure_looks_like_not_found :
  Supabase.telegram_chat_id <$> linked !! user42 = Some (js "998877")
  ∧ (getTelegramChatId linked (Some query_canceled) user42).1 = None
  ∧ (getTelegramChatId ∅ None user42).1 = None.
Proof. repeat split; vm_compute; reflexivity. Qed.

(** C8, amended: [resolve] returns the chat id when the store returns the
    record, and none when the store reports that there is no row, which is
    not logged; any other failure of the store is logged on the console
    and returned to the caller as the same none. *)
Theorem getTelegramChatId_none_on_failure tbl userId :
  (∀ r, tbl !! userId = Some r →
        getTelegramChatId tbl None userId
        = (Some (Supabase.telegram_chat_id r), []))
  ∧ (tbl !! userId = None → getTelegramChatId tbl None userId = (None, []))
  ∧ (∀ e, Supabase.code e ≠ js "PGRST116" →
          getTelegramChatId tbl (Some e) userId
          = (None, [ConsoleError (js "Database Error retrieving chat ID:")])).
Proof.
  split; [apply getTelegramChatId_row|].
  split; [apply getTelegramChatId_no_row|].
  intros e He. unfold getTelegramChatId; simpl. by rewrite decide_True.
Qed.

Lemma getTelegramChatId_none_on_failure_witness :
  getTelegramChatId linked None user42 = (Some (js "998877"), [])
  ∧ getTelegramChatId ∅ None user42 = (None, [])
  ∧ getTelegramChatId linked (Some query_canceled) user42
    = (None, [ConsoleError (js "Database Error retrieving chat ID:")]).
Proof.
  destruct (getTelegramChatId_none_on_failure linked user42)
    as (Hrow & _ & Hfail).
  destruct (getTelegramChatId_none_on_failure ∅ user42) as (_ & Hnone & _).
  split; [|split].
  - apply (Hrow {| Supabase.telegram_chat_id := js "998877";
                   Supabase.telegram_username := None |}).
    vm_compute; reflexivity.
  - apply Hnone. vm_compute; reflexivity.
  - apply Hfail. vm_compute; discriminate.
Defined.

(** C10 as stated does not hold for a payload without [id].  The payload
    [{first_name: "Bo\nid=5", hash}] has the check-string of
    [{id: "5", first_name: "Bo"}] and so passes the hash check with its
    signature; it has no [id], and with no session on the server the
    handler ends at [userData.id.toString()], before the session is read:
    it does not redirect. *)
Lemma auth_telegram_no_id_no_redirect :
  validateTelegramHash (Some (js "T")) Named.smuggled = true
  ∧ Named.smuggled !! js "id" = None
  ∧ auth_telegram (Some (js "T")) (Some (js "https://pixora.supabase.co")) ∅
      Named.smuggled None None
    = (∅, [Threw]).
Proof.
  split; [vm_compute; reflexivity|].
  split; vm_compute; reflexivity.
Qed.

(** C10, amended: once the hash check has passed, for a payload that
    carries [id], the handler links the user of the server's own session,
    whatever the request holds; when that session is absent it redirects
    with [no_active_supabase_session].  Without a session nothing is
    written, for any request at all. *)
Theorem auth_telegram_server_session B U tbl userData session failure id :
  validateTelegramHash B userData = true →
  userData !! js "id" = Some id →
  (truthy session = false →
   auth_telegram B U tbl userData session failure
   = (tbl,
      [ConsoleError
         (js "Telegram Auth Failed: No active Supabase session to link to.");
       Redirect (template U
                 ++ js "/auth/v1/callback?error=no_active_supabase_session")]))
  ∧ (∀ u, session = Some u → u ≠ [] →
       auth_telegram B U tbl userData session None
       = (<[u := {| Supabase.telegram_chat_id := id;
                    Supabase.telegram_username :=
                      or_null (userData !! js "username") |}]> tbl,
          [Redirect (js "/")]))
  ∧ (∀ B' U' request failure',
       truthy session = false →
       (auth_telegram B' U' tbl request session failure').1 = tbl).
Proof.
  intros Hv Hid. split; [|split].
  - intros Hs. unfold auth_telegram. by rewrite Hv, Hid, Hs.
  - intros u -> Hu. unfold auth_telegram. rewrite Hv, Hid.
    destruct u; [done|]. done.
  - intros B' U' request failure' Hs. unfold auth_telegram.
    destruct (validateTelegramHash B' request); [|done].
    destruct (request !! js "id"); [|done]. by rewrite Hs.
Qed.

Lemma auth_telegram_server_session_witness :
  auth_telegram (Some (js "T")) (Some (js "https://pixora.supabase.co")) ∅
    bo None None
  = (∅, [ConsoleError
           (js "Telegram Auth Failed: No active Supabase session to link to.");
         Redirect (js "https://pixora.supabase.co/auth/v1/callback?error=no_active_supabase_session")])
  ∧ auth_telegram (Some (js "T")) (Some (js "https://pixora.supabase.co")) ∅
      bo (Some user42) None
    = ({[ user42 := {| Supabase.telegram_chat_id := js "5";
                       Supabase.telegram_username := None |} ]},
       [Redirect (js "/")]).
Proof.
  assert (Hv : validateTelegramHash (Some (js "T")) bo = true)
    by (vm_compute; reflexivity).
  assert (Hid : bo !! js "id" = Some (js "5")) by (vm_compute; reflexivity).
  split.
  - destruct (auth_telegram_server_session (Some (js "T"))
                (Some (js "https://pixora.supabase.co")) ∅ bo None None
                (js "5") Hv Hid) as (Hnone & _ & _).
    apply Hnone. reflexivity.
  - destruct (auth_telegram_server_session (Some (js "T"))
                (Some (js "https://pixora.supabase.co")) ∅ bo (Some user42)
                None (js "5") Hv Hid) as (_ & Hsome & _).
    apply (Hsome user42); [reflexivity | vm_compute; discriminate].
Defined.

(** * Further properties of the code *)

(** ** [authMiddleware] *)

Lemma startsWith_app p s :
  Http.startsWith p s = true ↔ ∃ r, s = p ++ r.
Proof.
  revert s; induction p as [|a p IH]; intros s; simpl.
  - split; [eauto|done].
  - destruct s as [|b s]; [split; [done|by intros [r ?]]|].
    rewrite andb_true_iff, IH, Z.eqb_eq. split.
    + intros [-> [r ->]]. by exists r.
    + intros [r [= -> ->]]. eauto.
Qed.

Lemma split_cons_sep sep r : Http.split sep (sep :: r) = [] :: Http.split sep r.
Proof. simpl. by rewrite Z.eqb_refl. Qed.

Lemma split_app_sep sep w r :
  sep ∉ w → Http.split sep (w ++ sep :: r) = w :: Http.split sep r.
Proof.
  induction w as [|c w IH]; intros Hw.
  - apply split_cons_sep.
  - apply not_elem_of_cons in Hw as [Hc Hw]. simpl.
    destruct (Z.eqb_spec c sep); [congruence|]. by rewrite IH.
Qed.

(** The first piece is what stands before the first separator. *)
Lemma split_head sep s :
  ∃ w ws, (Http.split sep s = w :: ws) ∧ (sep ∉ w)
          ∧ ∃ rest, s = w ++ rest ∧ (rest = [] ∨ ∃ r, rest = sep :: r).
Proof.
  induction s as [|c s (w & ws & Hs & Hw & rest & -> & Hrest)].
  - exists [], []. split; [done|]. split; [apply not_elem_of_nil|].
    exists []. eauto.
  - simpl. destruct (Z.eqb_spec c sep) as [->|Hc].
    + exists [], (Http.split sep (w ++ rest)). split; [done|].
      split; [apply not_elem_of_nil|]. exists (sep :: w ++ rest). eauto.
    + rewrite Hs. exists (c :: w), ws. split; [done|].
      split; [by apply not_elem_of_cons|]. exists rest. eauto.
Qed.

(** X1: for a header that begins with [Bearer ], the token the middleware
    hands to [getUser] is the text between the first space and the next
    one, or the end; it holds no space, and what follows a second space is
    ignored. *)
Theorem authMiddleware_token (authHeader : jsstring) :
  Http.startsWith (js "Bearer ") authHeader = true →
  ∃ token rest,
    Http.split 32 authHeader !! 1%nat = Some token
    ∧ (32 ∉ token)
    ∧ authHeader = js "Bearer " ++ token ++ rest
    ∧ (rest = [] ∨ ∃ r, rest = 32 :: r).
Proof.
  intros [h ->]%startsWith_app.
  destruct (split_head 32 h) as (w & ws & Hs & Hw & rest & -> & Hrest).
  exists w, rest.
  change (js "Bearer " ++ (w ++ rest)) with (js "Bearer" ++ 32 :: (w ++ rest)).
  rewrite split_app_sep by compute_done.
  simpl. rewrite Hs. done.
Qed.

Lemma authMiddleware_token_witness :
  Http.startsWith (js "Bearer ") Requests.bearer = true
  ∧ ∃ token rest,
      Http.split 32 Requests.bearer !! 1%nat = Some token
      ∧ (32 ∉ token)
      ∧ Requests.bearer = js "Bearer " ++ token ++ rest
      ∧ (rest = [] ∨ ∃ r, rest = 32 :: r).
Proof.
  assert (H : Http.startsWith (js "Bearer ") Requests.bearer = true)
    by (vm_compute; reflexivity).
  split; [exact H|]. exact (authMiddleware_token Requests.bearer H).
Defined.

(** X2: a request to [/api/link/initiate] reaches the handler only with
    the user id that [getUser] returned, without error, for the token of a
    [Bearer ] header; every entry the request adds to the registry belongs
    to that user.  With no header, an empty one or one that does not begin
    with [Bearer ] (in this spelling), the answer is 401 whatever the auth
    service would say, and nothing is registered. *)
Theorem post_link_initiate_authenticated `{!CaseMapping}
    getUser authorization s failure randomBytes :
  (∀ s' out,
     PairingRoutes.post_link_initiate getUser authorization s failure
       randomBytes = inr (s', out) →
     ∃ authHeader userId,
       authorization = Some authHeader
       ∧ Http.startsWith (js "Bearer ") authHeader = true
       ∧ getUser (Http.split 32 authHeader !! 1%nat)
         = {| Http.user := Some userId; Http.error := None |}
       ∧ link_initiate s userId failure randomBytes = (s', out)
       ∧ ∀ c e, linkingCodes s' !! c = Some e →
                linkingCodes s !! c = Some e ∨ Pairing.userId e = userId)
  ∧ (JS.truthy authorization = false
     ∨ Http.startsWith (js "Bearer ") (JS.template authorization) = false →
     PairingRoutes.post_link_initiate getUser authorization s failure
       randomBytes
     = inl (Http.Unauthorized (js "Unauthorized: No token provided") [])).
Proof.
  unfold PairingRoutes.post_link_initiate, Http.guarded, Http.authMiddleware.
  split.
  - intros s' out.
    destruct authorization as [[|c h']|]; [done| |done].
    set (h := c :: h') in *. change (truthy (Some h)) with true.
    change (template (Some h)) with h. cbn [negb orb].
    destruct (Http.startsWith (js "Bearer ") h) eqn:Hb; cbn [negb]; [|done].
    destruct (getUser _) as [[u|] [e|]] eqn:Hg; cbn [Http.error Http.user];
      try done.
    intros Hi%(inj inr). exists h, u. repeat split; try done.
    intros c' e.
    replace s' with (link_initiate s u failure randomBytes).1
      by (by rewrite Hi).
    clear Hi. intros He. unfold link_initiate in He.
    destruct (getTelegramChatId _ _ _) as [ex log].
    destruct (truthy ex); simpl in He; [by left|].
    destruct (decide (generate randomBytes = c')) as [<-|Hne].
    + rewrite lookup_insert_eq in He. injection He as <-. by right.
    + rewrite lookup_insert_ne in He by done. by left.
  - intros [Ht|Hb].
    + by rewrite Ht.
    + rewrite Hb. by rewrite orb_true_r.
Qed.

Lemma post_link_initiate_authenticated_witness :
  let r := @link_initiate ascii_case (initial ∅ 0) user42 None A3B9C4 in
  @PairingRoutes.post_link_initiate ascii_case Requests.getUser
    (Some Requests.bearer) (initial ∅ 0) None A3B9C4 = inr r
  ∧ (∀ c e, linkingCodes r.1 !! c = Some e → userId e = user42)
  ∧ @PairingRoutes.post_link_initiate ascii_case Requests.getUser
      (Some (js "tok-1")) (initial ∅ 0) None A3B9C4
    = inl (Http.Unauthorized (js "Unauthorized: No token provided") []).
Proof.
  intros r.
  destruct (@post_link_initiate_authenticated ascii_case Requests.getUser
              (Some Requests.bearer) (initial ∅ 0) None A3B9C4) as [Hin _].
  destruct (@post_link_initiate_authenticated ascii_case Requests.getUser
              (Some (js "tok-1")) (initial ∅ 0) None A3B9C4) as [_ Hout].
  assert (Heq : @PairingRoutes.post_link_initiate ascii_case Requests.getUser
                  (Some Requests.bearer) (initial ∅ 0) None A3B9C4
                = inr (r.1, r.2)) by (vm_compute; reflexivity).
  split; [by rewrite Heq, <- surjective_pairing|]. split.
  - intros c e He.
    destruct (Hin _ _ Heq) as (h & u & Hh & _ & Hu & _ & Hown).
    injection Hh as <-.
    assert (u = user42) as ->
      by (vm_compute in Hu; injection Hu as <-; reflexivity).
    destruct (Hown c e He) as [Hold|Hnew]; [|exact Hnew].
    cbn [initial linkingCodes] in Hold. by rewrite lookup_empty in Hold.
  - apply Hout. right. vm_compute. reflexivity.
Defined.

(** ** The chat id as it is stored *)

Lemma js_inj s1 s2 : js s1 = js s2 → s1 = s2.
Proof.
  unfold js. intros Heq.
  rewrite <- (String.string_of_list_ascii_of_string s1),
          <- (String.string_of_list_ascii_of_string s2).
  f_equal. revert Heq.
  generalize (String.list_ascii_of_string s1) as l1,
             (String.list_ascii_of_string s2) as l2.
  induction l1 as [|a l1 IH]; intros [|b l2]; simpl; try done.
  intros [= Hab Hl]. f_equal; [|by apply IH].
  apply N2Z.inj in Hab.
  rewrite <- (Ascii.ascii_N_embedding a), <- (Ascii.ascii_N_embedding b).
  by rewrite Hab.
Qed.

Lemma to_int_not_nil n :
  Z.to_int n ≠ Decimal.Pos Decimal.Nil ∧ Z.to_int n ≠ Decimal.Neg Decimal.Nil.
Proof.
  destruct n as [|p|p]; simpl; split; try done; intros [= Hp];
    by eapply DecimalPos.Unsigned.to_uint_nonnil.
Qed.

Lemma Number_toString_inj n m :
  Number_toString n = Number_toString m → n = m.
Proof.
  unfold Number_toString. intros Heq%js_inj.
  apply DecimalZ.to_int_inj.
  destruct (to_int_not_nil n), (to_int_not_nil m).
  assert (Some (Z.to_int n) = Some (Z.to_int m)) as [= ->]; [|done].
  rewrite <- (NilZero.isi (Z.to_int n)), <- (NilZero.isi (Z.to_int m)) by done.
  by rewrite Heq.
Qed.

Lemma Number_toString_nonempty n : Number_toString n ≠ [].
Proof.
  unfold Number_toString, js.
  destruct (NilZero.string_of_int (Z.to_int n)) eqn:Hs; [|done].
  destruct (to_int_not_nil n) as [Hp Hn].
  destruct (Z.to_int n) as [d|d]; simpl in Hs; [|done].
  destruct d; simpl in Hs; done.
Qed.

(** ** The pairing flow, end to end *)

(** X3: once a code has been redeemed, the owner of the code is linked:
    both status routes say so, with the decimal form of the chat's
    identifier, from which the identifier can be read back; and a new
    [initiate] of the owner is answered "already linked" and registers
    nothing. *)
Theorem redeem_then_linked `{!CaseMapping} s text chat_id e :
  linkingCodes s !! toUpperCase (trim text) = Some e →
  let s1 := (redeem s text chat_id None).1 in
  PairingRoutes.link_status (user_telegram_settings s1) (userId e) None
  = [Http.Respond 200
       (Http.LinkedChat true (Some (Number_toString chat_id)))]
  ∧ ServerRoutes.link_status (user_telegram_settings s1) (userId e) None
    = [Http.Respond 200 (Http.Linked true)]
  ∧ (∀ randomBytes,
       link_initiate s1 (userId e) None randomBytes
       = (s1, [Send 200 true None]))
  ∧ (∀ n, Number_toString n = Number_toString chat_id → n = chat_id).
Proof.
  intros He s1.
  destruct (redeem_succeeds s text chat_id e He) as (_ & Hrow & _).
  fold s1 in Hrow.
  destruct (user_telegram_settings s1 !! userId e) as [r|] eqn:Hr; [|done].
  injection Hrow as Hchat.
  pose proof (Number_toString_nonempty chat_id) as Hne.
  split; [|split; [|split]].
  - unfold PairingRoutes.link_status.
    rewrite (getTelegramChatId_row _ _ _ Hr), Hchat.
    by destruct (Number_toString chat_id).
  - unfold ServerRoutes.link_status.
    rewrite (getTelegramChatId_row _ _ _ Hr), Hchat.
    by destruct (Number_toString chat_id).
  - intros rnd. unfold link_initiate.
    rewrite (getTelegramChatId_row _ _ _ Hr), Hchat.
    by destruct (Number_toString chat_id).
  - intros n. apply Number_toString_inj.
Qed.

Lemma redeem_then_linked_witness :
  let s1 := (@redeem ascii_case Requests.issued (js " a3b9c4 ") 998877 None).1 in
  linkingCodes Requests.issued !! @toUpperCase ascii_case (trim (js " a3b9c4 "))
  = Some {| userId := user42; timestamp := 0 |}
  ∧ PairingRoutes.link_status (user_telegram_settings s1) user42 None
    = [Http.Respond 200 (Http.LinkedChat true (Some (js "998877")))]
  ∧ ServerRoutes.link_status (user_telegram_settings s1) user42 None
    = [Http.Respond 200 (Http.Linked true)]
  ∧ @link_initiate ascii_case s1 user42 None C0FFEE
    = (s1, [Send 200 true None]).
Proof.
  intros s1.
  assert (Hlive : linkingCodes Requests.issued
                    !! @toUpperCase ascii_case (trim (js " a3b9c4 "))
                  = Some {| userId := user42; timestamp := 0 |})
    by (vm_compute; reflexivity).
  destruct (@redeem_then_linked ascii_case Requests.issued (js " a3b9c4 ")
              998877 _ Hlive) as (H1 & H2 & H3 & _).
  split; [exact Hlive|]. split; [exact H1|]. split; [exact H2|].
  exact (H3 C0FFEE).
Defined.

(** X4: the status routes always answer 200, after at most one console
    line; [linked] is true exactly when the store answered the lookup with
    a row whose chat id is not empty, so a failure of the store is
    reported as "not linked". *)
Theorem link_status_linked_iff tbl userId failure :
  ∃ log linked,
    ServerRoutes.link_status tbl userId failure
    = log ++ [Http.Respond 200 (Http.Linked linked)]
    ∧ PairingRoutes.link_status tbl userId failure
      = log ++ [Http.Respond 200
                  (Http.LinkedChat linked
                     (getTelegramChatId tbl failure userId).1)]
    ∧ (log = [] ∨ log = [Http.Console (js "Database Error retrieving chat ID:")])
    ∧ (linked = true
       ↔ failure = None
         ∧ ∃ r, tbl !! userId = Some r ∧ Supabase.telegram_chat_id r ≠ []).
Proof.
  unfold ServerRoutes.link_status, PairingRoutes.link_status.
  destruct failure as [err|].
  - exists (Http.console (getTelegramChatId tbl (Some err) userId).2), false.
    split; [done|]. split; [done|]. split.
    + unfold getTelegramChatId; simpl. case_decide; auto.
    + split; [done|]. by intros [? _].
  - destruct (tbl !! userId) as [r|] eqn:Hr.
    + rewrite (getTelegramChatId_row _ _ _ Hr).
      exists [], (truthy (Some (Supabase.telegram_chat_id r))).
      split; [done|]. split; [done|]. split; [auto|].
      destruct (Supabase.telegram_chat_id r) eqn:Hc; simpl.
      * split; [done|]. intros (_ & r' & [= <-] & Hne). congruence.
      * split; [|done]. intros _. split; [done|]. exists r. by rewrite Hc.
    + rewrite (getTelegramChatId_no_row _ _ Hr). exists [], false.
      split; [done|]. split; [done|]. split; [auto|].
      split; [done|]. by intros (_ & r & ? & _).
Qed.

(** ** The hash verifier *)

Lemma length_round st kw : length (Crypto.round st kw) = length st.
Proof. unfold round. by repeat (destruct st as [|? st]; try done). Qed.

Lemma length_rounds l st : length (fold_left Crypto.round l st) = length st.
Proof.
  revert st; induction l as [|kw l IH]; intros st; simpl; [done|].
  by rewrite IH, length_round.
Qed.

Lemma length_compress h block : length (compress h block) = length h.
Proof.
  unfold compress. rewrite length_zip_with, length_rounds. lia.
Qed.

Lemma length_blocks n h bs : length (blocks n h bs) = length h.
Proof.
  revert h bs; induction n as [|n IH]; intros h bs; simpl; [done|].
  by rewrite IH, length_compress.
Qed.

Lemma be_bytes_range n x : Forall (λ b, 0 ≤ b < 256) (be_bytes n x).
Proof.
  induction n as [|n IH]; simpl; constructor; [|done].
  apply Z.mod_pos_bound. lia.
Qed.

Lemma length_be_bytes n x : length (be_bytes n x) = n.
Proof. induction n as [|n IH]; simpl; [done|]. by rewrite IH. Qed.

Lemma mjoin_words (ws : list Z) :
  length (mjoin (be_bytes 4 <$> ws)) = (4 * length ws)%nat
  ∧ Forall (λ b, 0 ≤ b < 256) (mjoin (be_bytes 4 <$> ws)).
Proof.
  induction ws as [|w ws [IHl IHr]]; [done|].
  rewrite fmap_cons.
  change (mjoin (be_bytes 4 w :: (be_bytes 4 <$> ws)))
    with (be_bytes 4 w ++ mjoin (be_bytes 4 <$> ws)).
  split.
  - rewrite length_app, IHl, length_be_bytes. simpl. lia.
  - apply Forall_app. split; [apply be_bytes_range | done].
Qed.

(** A digest has 32 bytes. *)
Lemma sha256_digest msg :
  length (sha256 msg) = 32%nat ∧ Forall (λ b, 0 ≤ b < 256) (sha256 msg).
Proof.
  unfold sha256. destruct (mjoin_words (blocks (length (pad msg) / 64) H256
                                          (pad msg))) as [Hl Hr].
  split; [|done]. by rewrite Hl, length_blocks.
Qed.

Lemma hmac_digest key msg :
  length (hmac_sha256 key msg) = 32%nat
  ∧ Forall (λ b, 0 ≤ b < 256) (hmac_sha256 key msg).
Proof. unfold hmac_sha256. apply sha256_digest. Qed.

Lemma hex_digit_range n :
  0 ≤ n < 16 → 48 ≤ hex_digit n ≤ 57 ∨ 97 ≤ hex_digit n ≤ 102.
Proof. intros Hn. unfold hex_digit. case_decide; lia. Qed.

Lemma hex_cons b bs :
  hex (b :: bs) = hex_digit (b / 16) :: hex_digit (b mod 16) :: hex bs.
Proof. done. Qed.

Lemma hex_digits bs :
  Forall (λ b, 0 ≤ b < 256) bs →
  length (hex bs) = (2 * length bs)%nat
  ∧ Forall (λ c, 48 ≤ c ≤ 57 ∨ 97 ≤ c ≤ 102) (hex bs).
Proof.
  induction 1 as [|b bs Hb _ [IHl IHr]]; [done|]. rewrite hex_cons. split.
  - simpl. rewrite IHl. lia.
  - apply Forall_cons. split; [|apply Forall_cons; split; [|done]];
      apply hex_digit_range; Z.div_mod_to_equations; lia.
Qed.

(** X5: a payload that verifies carries a [hash] of exactly 64 characters,
    each a digit or a letter from [a] to [f]: a payload without [hash], or
    with the signature in capitals or cut short, never verifies. *)
Theorem valid_hash_format (BOT_TOKEN : option jsstring) (data : Query) :
  validateTelegramHash BOT_TOKEN data = true →
  ∃ hash, data !! js "hash" = Some hash
          ∧ length hash = 64%nat
          ∧ Forall (λ c, 48 ≤ c ≤ 57 ∨ 97 ≤ c ≤ 102) hash.
Proof.
  unfold validateTelegramHash. destruct (truthy BOT_TOKEN); simpl; [|done].
  intros Heq%bool_decide_eq_true. eexists. split; [done|].
  destruct (hmac_digest (sha256 (utf8 (template BOT_TOKEN)))
              (utf8 (checkString data))) as [Hl Hr].
  destruct (hex_digits _ Hr) as [Hhl Hhr]. rewrite Hl in Hhl.
  split; [exact Hhl | exact Hhr].
Qed.

Lemma valid_hash_format_witness :
  validateTelegramHash (Some (js "T")) bo = true
  ∧ ∃ hash, bo !! js "hash" = Some hash
            ∧ length hash = 64%nat
            ∧ Forall (λ c, 48 ≤ c ≤ 57 ∨ 97 ≤ c ≤ 102) hash.
Proof.
  assert (H : validateTelegramHash (Some (js "T")) bo = true)
    by (vm_compute; reflexivity).
  split; [exact H|]. exact (valid_hash_format (Some (js "T")) bo H).
Defined.

Lemma checkString_insert_hash (data : Query) (hash : jsstring) :
  checkString (<[js "hash" := hash]> data) = checkString data.
Proof.
  rewrite !checkString_spec. unfold Spec.checkString_by, Spec.fields.
  by rewrite delete_insert_eq.
Qed.

(** X6: the check-string does not depend on the [hash] field, so for the
    other fields of a payload and a bot token there is one signature that
    verifies: once a payload verifies, putting any other value in [hash]
    makes it fail, and putting the same value back makes it pass. *)
Theorem valid_hash_unique
    (BOT_TOKEN : option jsstring) (data : Query) (hash' : jsstring) :
  validateTelegramHash BOT_TOKEN data = true →
  checkString (<[js "hash" := hash']> data) = checkString data
  ∧ (validateTelegramHash BOT_TOKEN (<[js "hash" := hash']> data) = true
     ↔ data !! js "hash" = Some hash').
Proof.
  unfold validateTelegramHash. destruct (truthy BOT_TOKEN); simpl; [|done].
  intros Heq%bool_decide_eq_true.
  split; [apply checkString_insert_hash|].
  rewrite checkString_insert_hash, bool_decide_eq_true, lookup_insert_eq.
  rewrite <- Heq. split; congruence.
Qed.

Lemma valid_hash_unique_witness :
  validateTelegramHash (Some (js "T")) bo = true
  ∧ checkString (<[js "hash" := js "00"]> bo) = checkString bo
  ∧ validateTelegramHash (Some (js "T")) (<[js "hash" := js "00"]> bo)
    = false.
Proof.
  assert (H : validateTelegramHash (Some (js "T")) bo = true)
    by (vm_compute; reflexivity).
  destruct (valid_hash_unique (Some (js "T")) bo (js "00") H) as [Hc Hiff].
  split; [exact H|]. split; [exact Hc|].
  destruct (validateTelegramHash (Some (js "T")) (<[js "hash" := js "00"]> bo));
    [|reflexivity].
  destruct Hiff as [Hiff _]. specialize (Hiff eq_refl).
  vm_compute in Hiff. discriminate.
Defined.

(** ** The widget callback *)

(** X7: the callback redirects to [/] exactly when the hash verifies, the
    payload has an [id], the server's session has a user and the upsert
    succeeds; it then has written that user's row.  In every other case
    the table is as before.  Whatever happens, the rows of all other
    users are untouched. *)
Theorem auth_telegram_outcome
    (BOT_TOKEN SUPABASE_URL : option jsstring) (tbl : Supabase.Table)
    (userData : Query) (session : option jsstring)
    (failure : option Supabase.PostgrestError) :
  let r := auth_telegram BOT_TOKEN SUPABASE_URL tbl userData session failure in
  (r.2 = [Redirect (js "/")]
   ↔ validateTelegramHash BOT_TOKEN userData = true
     ∧ is_Some (userData !! js "id")
     ∧ truthy session = true
     ∧ failure = None)
  ∧ (r.2 = [Redirect (js "/")] →
     Supabase.telegram_chat_id <$> r.1 !! template session
     = userData !! js "id")
  ∧ (r.2 ≠ [Redirect (js "/")] → r.1 = tbl)
  ∧ (∀ u, u ≠ template session → r.1 !! u = tbl !! u).
Proof.
  unfold auth_telegram.
  destruct (validateTelegramHash BOT_TOKEN userData); simpl.
  2: { split; [split; [done|by intros [? _]]|done]. }
  destruct (userData !! js "id") as [id|]; simpl.
  2: { split; [split; [done|by intros (_ & [? ?] & _)]|done]. }
  destruct (truthy session) eqn:Hs; simpl.
  2: { split; [split; [done|by intros (_ & _ & ? & _)]|done]. }
  destruct failure as [err|]; simpl.
  { split; [split; [done|by intros (_ & _ & _ & ?)]|done]. }
  split; [done|]. split; [by rewrite lookup_insert_eq|]. split; [done|].
  intros u Hu. by rewrite lookup_insert_ne.
Qed.

(** X8: linking through the bot keeps the username stored for the user,
    linking through the widget replaces it with the [username] of the
    payload, and clears it when the payload has none or an empty one. *)
Theorem username_kept_or_replaced `{!CaseMapping}
    (s : State) (text : jsstring) (chat_id : Z) (e : Entry)
    (BOT_TOKEN SUPABASE_URL : option jsstring) (userData : Query)
    (id u : jsstring) :
  (linkingCodes s !! toUpperCase (trim text) = Some e →
   Supabase.telegram_username
     <$> user_telegram_settings (redeem s text chat_id None).1 !! userId e
   = Some (r ← user_telegram_settings s !! userId e;
           Supabase.telegram_username r))
  ∧ (validateTelegramHash BOT_TOKEN userData = true →
     userData !! js "id" = Some id → u ≠ [] →
     ∀ tbl,
       Supabase.telegram_username
         <$> (auth_telegram BOT_TOKEN SUPABASE_URL tbl userData (Some u)
                None).1 !! u
       = Some (match userData !! js "username" with
               | Some (c :: name) => Some (c :: name)
               | _ => None
               end)).
Proof.
  split.
  - intros He. rewrite (redeem_live _ _ _ _ _ He); simpl.
    by rewrite lookup_insert_eq.
  - intros Hv Hid Hu tbl. unfold auth_telegram. rewrite Hv, Hid; simpl.
    destruct u as [|c u]; [done|]. simpl. rewrite lookup_insert_eq. simpl.
    f_equal. unfold or_null. by destruct (userData !! js "username") as [[|]|].
Qed.

Lemma username_kept_or_replaced_witness :
  Supabase.telegram_username <$> Named.table !! user42
  = Some (Some (js "old_name"))
  ∧ Supabase.telegram_username
      <$> (auth_telegram (Some (js "T")) None Named.table Named.bo_tg
             (Some user42) None).1 !! user42
    = Some (Some (js "bo_tg"))
  ∧ Supabase.telegram_username
      <$> (auth_telegram (Some (js "T")) None Named.table bo
             (Some user42) None).1 !! user42
    = Some None
  ∧ user_telegram_settings Named.pending !! user42
    = Some {| Supabase.telegram_chat_id := js "5";
              Supabase.telegram_username := Some (js "bo_tg") |}
  ∧ Supabase.telegram_chat_id
      <$> user_telegram_settings
            (@redeem ascii_case Named.pending (js "A3B9C4") 998877 None).1
          !! user42
    = Some (js "998877")
  ∧ Supabase.telegram_username
      <$> user_telegram_settings
            (@redeem ascii_case Named.pending (js "A3B9C4") 998877 None).1
          !! user42
    = Some (Some (js "bo_tg")).
Proof.
  destruct (@username_kept_or_replaced ascii_case Named.pending
              (js "A3B9C4") 998877 {| userId := user42; timestamp := 0 |}
              (Some (js "T")) None Named.bo_tg (js "5") user42)
    as [Hkept Hreplaced].
  destruct (@username_kept_or_replaced ascii_case Named.pending
              (js "A3B9C4") 998877 {| userId := user42; timestamp := 0 |}
              (Some (js "T")) None bo (js "5") user42)
    as [_ Hcleared].
  assert (Hbo_tg : validateTelegramHash (Some (js "T")) Named.bo_tg = true)
    by (vm_compute; reflexivity).
  assert (Hbo : validateTelegramHash (Some (js "T")) bo = true)
    by (vm_compute; reflexivity).
  assert (Hlive : linkingCodes Named.pending
                    !! @toUpperCase ascii_case (trim (js "A3B9C4"))
                  = Some {| userId := user42; timestamp := 0 |})
    by (vm_compute; reflexivity).
  split; [vm_compute; reflexivity|]. split.
  { etransitivity.
    - apply (Hreplaced Hbo_tg); [vm_compute; reflexivity | discriminate].
    - vm_compute; reflexivity. }
  split.
  { etransitivity.
    - apply (Hcleared Hbo); [vm_compute; reflexivity | discriminate].
    - vm_compute; reflexivity. }
  split; [vm_compute; reflexivity|].
  split; [vm_compute; reflexivity|].
  etransitivity; [exact (Hkept Hlive)|]. vm_compute; reflexivity.
Defined.

(** ** The registry over a run *)

Lemma timers_within_ttl `{!CaseMapping} B U tbl0 t0 evs t :
  t ∈ timers (run B U (initial tbl0 t0) evs).1 →
  t.1 ≤ clock (run B U (initial tbl0 t0) evs).1 + TTL.
Proof.
  revert t. induction evs as [|ev evs IH] using rev_ind; intros t.
  - simpl. by intros ?%elem_of_nil.
  - rewrite run_snoc. set (s := (run B U (initial tbl0 t0) evs).1) in *.
    destruct ev as [uid f rnd|text chat|i f|dt|ud se f];
      cbn [Pairing.step fst].
    + unfold link_initiate. destruct (getTelegramChatId _ _ _) as [ex log].
      destruct (truthy ex); simpl; [apply IH|].
      intros [Hin| ->%list_elem_of_singleton]%elem_of_app;
        [by apply IH | simpl; lia].
    + unfold on_text.
      destruct (linkingCodes s !! toUpperCase (trim text)); apply IH.
    + unfold settle. destruct (awaiting s !! i) as [k|]; [|apply IH].
      destruct f; simpl; apply IH.
    + unfold elapse; simpl. intros [_ Hin%IH]%list_elem_of_filter. lia.
    + destruct (auth_telegram _ _ _ _ _ _). apply IH.
Qed.

(** X9: in every run, once [10 * 60 * 1000] ms have passed without an
    [initiate] request, whatever else was handled in that time (texts,
    answers to upserts, widget callbacks), the registry is empty and no
    timer is pending: codes and their timers do not pile up. *)
Theorem registry_empty_after_ttl `{!CaseMapping} B U tbl0 t0 evs0 evs :
  Forall (λ ev, ¬ is_initiate ev) evs →
  let s := (run B U (initial tbl0 t0) evs0).1 in
  let s' := (run B U s evs).1 in
  clock s + TTL ≤ clock s' →
  linkingCodes s' = ∅ ∧ timers s' = [].
Proof.
  intros Hevs s s' Hclock.
  assert (Hs' : s' = (run B U (initial tbl0 t0) (evs0 ++ evs)).1)
    by apply run_run.
  assert (Ht : timers s' = []).
  { apply elem_of_nil_inv. intros t Hin.
    pose proof (run_no_timer B U s evs t Hevs Hin) as Hin0.
    apply (timers_within_ttl B U tbl0 t0 evs0) in Hin0. fold s in Hin0.
    rewrite Hs' in Hin. apply timers_pending in Hin.
    rewrite <- Hs' in Hin. lia. }
  split; [|done].
  apply map_eq; intros c. rewrite lookup_empty.
  destruct (linkingCodes s' !! c) as [e|] eqn:He; [|done].
  rewrite Hs' in He.
  destruct (live_codes_within_ttl B U tbl0 t0 _ c e He) as [Hin _].
  rewrite <- Hs', Ht in Hin. by apply elem_of_nil in Hin.
Qed.

Lemma registry_empty_after_ttl_witness :
  let s := (@run ascii_case None None (initial ∅ 0)
              [Initiate user42 None A3B9C4; Elapse 1000;
               Initiate (js "user-7") None C0FFEE]).1 in
  let evs := [Elapse 300000; Text (js "a3b9c4") 998877; Elapse 200000;
              Settled 0 (Some query_canceled); Text (js "hello") 5;
              Elapse 100000] in
  let s' := (@run ascii_case None None s evs).1 in
  map_to_list (linkingCodes s)
  ≡ₚ [(js "A3B9C4", {| userId := user42; timestamp := 0 |});
      (js "C0FFEE", {| userId := js "user-7"; timestamp := 1000 |})]
  ∧ clock s + TTL ≤ clock s'
  ∧ linkingCodes s' = ∅ ∧ timers s' = [].
Proof.
  intros s evs s'.
  assert (Hevs : Forall (λ ev, ¬ is_initiate ev) evs)
    by (repeat constructor; intros []).
  assert (Hclock : clock s + TTL ≤ clock s') by (vm_compute; discriminate).
  split; [|split; [exact Hclock|]].
  - vm_compute. apply perm_swap || reflexivity.
  - exact (@registry_empty_after_ttl ascii_case None None ∅ 0
             [Initiate user42 None A3B9C4; Elapse 1000;
              Initiate (js "user-7") None C0FFEE] evs Hevs Hclock).
Defined.

(** X10: in every run, an entry of the registry was put there by an
    [initiate] request earlier in the run: its owner is the user of that
    request, its code the one generated for it, its timestamp the time of
    the request.  No other step adds an entry or changes an owner. *)
Theorem entry_provenance `{!CaseMapping} B U tbl0 t0 evs c e :
  linkingCodes (run B U (initial tbl0 t0) evs).1 !! c = Some e →
  ∃ evs1 failure randomBytes evs2,
    evs = evs1 ++ Initiate (userId e) failure randomBytes :: evs2
    ∧ generate randomBytes = c
    ∧ timestamp e = clock (run B U (initial tbl0 t0) evs1).1.
Proof.
  revert c e. induction evs as [|ev evs IH] using rev_ind; intros c e.
  - simpl. by rewrite lookup_empty.
  - assert (Hold : linkingCodes (run B U (initial tbl0 t0) evs).1 !! c
                   = Some e →
                   ∃ evs1 failure randomBytes evs2,
                     evs ++ [ev]
                     = evs1 ++ Initiate (userId e) failure randomBytes :: evs2
                     ∧ generate randomBytes = c
                     ∧ timestamp e = clock (run B U (initial tbl0 t0) evs1).1).
    { intros (evs1 & f & rnd & evs2 & -> & Hc & Ht)%IH.
      exists evs1, f, rnd, (evs2 ++ [ev]). by rewrite <- app_assoc. }
    rewrite run_snoc. set (s := (run B U (initial tbl0 t0) evs).1) in *.
    destruct ev as [uid f rnd|text chat|i f|dt|ud se f];
      cbn [Pairing.step fst].
    + unfold link_initiate. destruct (getTelegramChatId _ _ _) as [ex log].
      destruct (truthy ex); simpl; [done|].
      destruct (decide (generate rnd = c)) as [<-|Hne].
      * rewrite lookup_insert_eq. intros [= <-]; simpl.
        by exists evs, f, rnd, [].
      * by rewrite lookup_insert_ne.
    + unfold on_text.
      by destruct (linkingCodes s !! toUpperCase (trim text)).
    + unfold settle. destruct (awaiting s !! i) as [k|]; [|done].
      destruct f; simpl; [done|].
      intros [_ He]%lookup_delete_Some. by apply Hold.
    + rewrite elapse_lookup. by case_decide.
    + by destruct (auth_telegram _ _ _ _ _ _).
Qed.

Lemma entry_provenance_witness :
  let evs := [Initiate user42 None A3B9C4; Elapse 1000;
              Initiate (js "user-7") None C0FFEE] in
  let e := {| userId := js "user-7"; timestamp := 1000 |} in
  linkingCodes (@run ascii_case None None (initial ∅ 0) evs).1
    !! js "C0FFEE" = Some e
  ∧ ∃ evs1 failure randomBytes evs2,
      evs = evs1 ++ Initiate (userId e) failure randomBytes :: evs2
      ∧ @generate ascii_case randomBytes = js "C0FFEE"
      ∧ timestamp e
        = clock (@run ascii_case None None (initial ∅ 0) evs1).1.
Proof.
  intros evs e.
  assert (H : linkingCodes (@run ascii_case None None (initial ∅ 0) evs).1
                !! js "C0FFEE" = Some e) by (vm_compute; reflexivity).
  split; [exact H|].
  exact (@entry_provenance ascii_case None None ∅ 0 evs (js "C0FFEE") e H).
Defined.

(** ** Codes and what users type *)

Lemma hex_ascii bs :
  Forall (λ b, 0 ≤ b < 256) bs → Forall (λ c, 0 ≤ c < 128) (hex bs).
Proof.
  intros Hbs. destruct (hex_digits bs Hbs) as [_ Hd].
  eapply Forall_impl; [exact Hd|]. simpl. lia.
Qed.

Lemma byte_range (b : Byte.byte) : 0 ≤ Z.of_N (Byte.to_N b) < 256.
Proof. pose proof (Byte.to_N_bounded b). lia. Qed.

Lemma byte_inj (b1 b2 : Byte.byte) :
  Z.of_N (Byte.to_N b1) = Z.of_N (Byte.to_N b2) → b1 = b2.
Proof.
  intros Heq%N2Z.inj.
  assert (Some b1 = Some b2) as [= ->]; [|done].
  by rewrite <- (Byte.of_to_N b1), <- (Byte.of_to_N b2), Heq.
Qed.

Lemma upper_hex_digit n :
  0 ≤ n < 16 →
  (if (97 <=? hex_digit n) && (hex_digit n <=? 122)
   then hex_digit n - 32 else hex_digit n)
  = code_digit n.
Proof.
  intros Hn. unfold hex_digit, code_digit. case_decide.
  - destruct (Z.leb_spec 97 (48 + n)); [lia|done].
  - destruct (Z.leb_spec 97 (87 + n)), (Z.leb_spec (87 + n) 122);
      simpl; lia.
Qed.

Lemma code_digit_range n :
  0 ≤ n < 16 → 48 ≤ code_digit n ≤ 57 ∨ 65 ≤ code_digit n ≤ 70.
Proof. intros Hn. unfold code_digit. case_decide; lia. Qed.

Lemma code_digit_inj n m :
  0 ≤ n < 16 → 0 ≤ m < 16 → code_digit n = code_digit m → n = m.
Proof. intros Hn Hm. unfold code_digit. repeat case_decide; lia. Qed.

Lemma code_digits_byte (b1 b2 : Byte.byte) :
  code_digit (Z.of_N (Byte.to_N b1) / 16)
  = code_digit (Z.of_N (Byte.to_N b2) / 16) →
  code_digit (Z.of_N (Byte.to_N b1) mod 16)
  = code_digit (Z.of_N (Byte.to_N b2) mod 16) →
  b1 = b2.
Proof.
  pose proof (byte_range b1). pose proof (byte_range b2).
  intros Hhi%code_digit_inj Hlo%code_digit_inj;
    try (Z.div_mod_to_equations; lia).
  apply byte_inj. Z.div_mod_to_equations; lia.
Qed.

(** A code spelled out. *)
Lemma generate_eq `{!CaseMapping}
    (randomBytes : Byte.byte * Byte.byte * Byte.byte) :
  ascii_case_mapping →
  generate randomBytes
  = let '(b0, b1, b2) := randomBytes in
    mjoin ((λ b, [code_digit (Z.of_N (Byte.to_N b) / 16);
                  code_digit (Z.of_N (Byte.to_N b) mod 16)])
             <$> [b0; b1; b2]).
Proof.
  intros Hcase. destruct randomBytes as [[b0 b1] b2]. unfold generate.
  rewrite Hcase.
  2: { apply hex_ascii. repeat constructor; apply byte_range. }
  pose proof (byte_range b0). pose proof (byte_range b1).
  pose proof (byte_range b2).
  unfold ascii_toUpperCase. simpl.
  rewrite !upper_hex_digit by (Z.div_mod_to_equations; lia). done.
Qed.

Lemma generate_digits `{!CaseMapping}
    (randomBytes : Byte.byte * Byte.byte * Byte.byte) :
  ascii_case_mapping →
  length (generate randomBytes) = 6%nat
  ∧ Forall (λ c, 48 ≤ c ≤ 57 ∨ 65 ≤ c ≤ 70) (generate randomBytes).
Proof.
  intros Hcase. rewrite generate_eq by done.
  destruct randomBytes as [[a0 a1] a2]. simpl.
  pose proof (byte_range a0). pose proof (byte_range a1).
  pose proof (byte_range a2).
  split; [done|].
  repeat (apply Forall_cons; split); [..|done];
    apply code_digit_range; Z.div_mod_to_equations; lia.
Qed.

(** The case mapping of the concrete runs is the ASCII one. *)
Lemma ascii_case_ascii : @ascii_case_mapping ascii_case.
Proof.
  by intros s _.
Qed.

(** X11: a generated code has six characters, each a digit or a letter from
    [A] to [F], and it determines the three random bytes it was made from:
    two [initiate] requests get the same code only when
    [crypto.randomBytes(3)] returned the same bytes. *)
Theorem generate_code `{!CaseMapping}
    (rnd1 rnd2 : Byte.byte * Byte.byte * Byte.byte) :
  ascii_case_mapping →
  length (generate rnd1) = 6%nat
  ∧ Forall (λ c, 48 ≤ c ≤ 57 ∨ 65 ≤ c ≤ 70) (generate rnd1)
  ∧ (generate rnd1 = generate rnd2 → rnd1 = rnd2).
Proof.
  intros Hcase. destruct (generate_digits rnd1 Hcase) as [Hl Hd].
  split; [done|]. split; [done|].
  rewrite !generate_eq by done.
  destruct rnd1 as [[a0 a1] a2], rnd2 as [[b0 b1] b2]. simpl.
  intros [= E0 E1 E2 E3 E4 E5].
  f_equal; [f_equal|]; by apply code_digits_byte.
Qed.

Lemma generate_code_witness :
  @generate ascii_case A3B9C4 = js "A3B9C4"
  ∧ length (@generate ascii_case A3B9C4) = 6%nat
  ∧ Forall (λ c, 48 ≤ c ≤ 57 ∨ 65 ≤ c ≤ 70) (@generate ascii_case A3B9C4)
  ∧ (@generate ascii_case A3B9C4 = @generate ascii_case C0FFEE
     → A3B9C4 = C0FFEE).
Proof.
  split; [vm_compute; reflexivity|].
  exact (@generate_code ascii_case A3B9C4 C0FFEE ascii_case_ascii).
Defined.

Lemma trimStart_blanks ws s :
  Forall (λ c, is_white_space c = true) ws → trimStart (ws ++ s) = trimStart s.
Proof. induction 1 as [|c ws Hc _ IH]; simpl; [done|]. by rewrite Hc. Qed.

Lemma trimStart_solid s :
  Forall (λ c, is_white_space c = false) s → trimStart s = s.
Proof. destruct 1 as [|c s Hc _]; simpl; [done|]. by rewrite Hc. Qed.

(** [trim] takes the blanks around a text without blanks, and nothing
    else. *)
Lemma trim_blanks ws1 t ws2 :
  Forall (λ c, is_white_space c = true) ws1 →
  Forall (λ c, is_white_space c = true) ws2 →
  Forall (λ c, is_white_space c = false) t →
  trim (ws1 ++ t ++ ws2) = t.
Proof.
  intros H1 H2 Ht. unfold trim. rewrite trimStart_blanks by done.
  destruct t as [|c t].
  - simpl. rewrite <- (app_nil_r ws2), trimStart_blanks by done. done.
  - assert (trimStart ((c :: t) ++ ws2) = (c :: t) ++ ws2) as ->.
    { simpl. apply Forall_cons in Ht as [-> _]. done. }
    rewrite reverse_app, trimStart_blanks by by apply Forall_reverse.
    rewrite trimStart_solid by by apply Forall_reverse.
    apply reverse_involutive.
Qed.

Lemma not_blank c : 48 ≤ c ≤ 122 → is_white_space c = false.
Proof.
  intros Hc. unfold is_white_space. apply orb_false_iff. split.
  - apply bool_decide_eq_false. rewrite !elem_of_cons, elem_of_nil. lia.
  - destruct (Z.leb_spec 0x2000 c); [lia|done].
Qed.

(** X12: the code may be typed in small or capital letters and with blanks
    before and after it: such a text is normalised to the code, and
    redeems it when it is live. *)
Theorem redeem_tolerates_case_and_blanks `{!CaseMapping}
    (s : State) (randomBytes : Byte.byte * Byte.byte * Byte.byte)
    (e : Entry) (ws1 t ws2 : jsstring) (chat_id : Z) :
  ascii_case_mapping →
  linkingCodes s !! generate randomBytes = Some e →
  Forall (λ c, is_white_space c = true) ws1 →
  Forall (λ c, is_white_space c = true) ws2 →
  Forall (λ c, 0 ≤ c < 128) t →
  ascii_toUpperCase t = generate randomBytes →
  toUpperCase (trim (ws1 ++ t ++ ws2)) = generate randomBytes
  ∧ (redeem s (ws1 ++ t ++ ws2) chat_id None).2
    = [CtxReply chat_id ReplySuccess].
Proof.
  intros Hcase He H1 H2 Ha Ht.
  assert (Hsolid : Forall (λ c, is_white_space c = false) t).
  { destruct (generate_digits randomBytes Hcase) as [_ Hd].
    rewrite <- Ht in Hd. unfold ascii_toUpperCase in Hd.
    rewrite Forall_fmap in Hd. eapply Forall_impl; [exact Hd|].
    intros c Hc; simpl in Hc. apply not_blank.
    destruct ((97 <=? c) && (c <=? 122)) eqn:Hlow; [|lia].
    apply andb_true_iff in Hlow as [?%Z.leb_le ?%Z.leb_le]. lia. }
  assert (Hnorm : toUpperCase (trim (ws1 ++ t ++ ws2)) = generate randomBytes).
  { by rewrite trim_blanks, Hcase. }
  split; [done|].
  rewrite <- Hnorm in He. by destruct (redeem_succeeds _ _ chat_id _ He).
Qed.

Lemma redeem_tolerates_case_and_blanks_witness :
  let text := [9; 32] ++ js "a3B9c4" ++ [10; 0xA0] in
  linkingCodes Requests.issued !! @generate ascii_case A3B9C4
  = Some {| userId := user42; timestamp := 0 |}
  ∧ @toUpperCase ascii_case (trim text) = @generate ascii_case A3B9C4
  ∧ (@redeem ascii_case Requests.issued text 998877 None).2
    = [CtxReply 998877 ReplySuccess].
Proof.
  intros text.
  assert (H : linkingCodes Requests.issued !! @generate ascii_case A3B9C4
              = Some {| userId := user42; timestamp := 0 |})
    by (vm_compute; reflexivity).
  split; [exact H|].
  apply (@redeem_tolerates_case_and_blanks ascii_case Requests.issued A3B9C4
           _ [9; 32] (js "a3B9c4") [10; 0xA0] 998877 ascii_case_ascii H).
  - compute_done.
  - compute_done.
  - compute_done.
  - vm_compute. reflexivity.
Defined.

(** ** Upload and gallery *)

Lemma statuses_app l1 l2 : statuses (l1 ++ l2) = statuses l1 ++ statuses l2.
Proof. apply omap_app. Qed.

Lemma posts_app l1 l2 : posts (l1 ++ l2) = posts l1 ++ posts l2.
Proof. apply omap_app. Qed.

Lemma console_quiet out :
  statuses (Http.console out) = [] ∧ posts (Http.console out) = [].
Proof.
  induction out as [|o out [IH1 IH2]]; [done|]. by destruct o.
Qed.

(** The lookup of the chat id as the handlers use it. *)
Lemma getTelegramChatId_truthy tbl failure userId :
  truthy (getTelegramChatId tbl failure userId).1 = true →
  failure = None
  ∧ ∃ r, tbl !! userId = Some r
         ∧ (getTelegramChatId tbl failure userId).1
           = Some (Supabase.telegram_chat_id r)
         ∧ Supabase.telegram_chat_id r ≠ [].
Proof.
  destruct failure as [err|]; [done|].
  destruct (tbl !! userId) as [r|] eqn:Hr.
  - rewrite (getTelegramChatId_row _ _ _ Hr). simpl.
    intros Ht. split; [done|]. exists r. split; [done|]. split; [done|].
    by destruct (Supabase.telegram_chat_id r).
  - by rewrite (getTelegramChatId_no_row _ _ Hr).
Qed.

(** X13: an upload answers exactly once, with 201, 400, 403 or 500.  It
    answers 201 exactly when there is a file, the bot token is set where
    the handler checks it, the store returned a chat id for the user,
    Telegram's answer holds a file id and the row was inserted; the table
    [files] then has one more row, with the user, that file id, and the
    name and type of the file.  In every other case the table is
    unchanged. *)
Theorem upload_created
    (v : Http.UploadVariant) (token : option jsstring)
    (tbl : Supabase.Table) (files : list Http.FileRow) (userId : jsstring)
    (file : option Http.File) (lookup : option Supabase.PostgrestError)
    (axios : Http.Axios) (insert : option Supabase.PostgrestError)
    (at_ : Z) :
  let r := Http.upload_with v token tbl files userId file lookup axios
             insert at_ in
  (∃ st, statuses r.2 = [st] ∧ st ∈ [201; 400; 403; 500])
  ∧ (statuses r.2 = [201]
     ↔ ∃ f result id,
         file = Some f
         ∧ (Http.token_guard v = true → truthy token = true)
         ∧ truthy (getTelegramChatId tbl lookup userId).1 = true
         ∧ axios = Http.Resolved result
         ∧ Http.telegramFileId result = Some id ∧ id ≠ []
         ∧ insert = None
         ∧ r.1 = files ++ [{| Http.user_id := userId;
                              Http.telegram_file_id := id;
                              Http.original_filename := Http.originalname f;
                              Http.mime_type := Http.mimetype f;
                              Http.uploaded_at := at_ |}])
  ∧ (statuses r.2 ≠ [201] → r.1 = files).
Proof.
  unfold Http.upload_with. cbv zeta.
  destruct file as [f|].
  2: { split; [exists 400; split; [done|set_solver]|].
       split; [split; [done|by intros (? & ? & ? & ? & _)]|done]. }
  destruct (Http.token_guard v && negb (truthy token)) eqn:Hguard.
  { split; [exists 500; split; [done|set_solver]|].
    split; [split; [done|]|done].
    intros (? & ? & ? & _ & Hg & _).
    apply andb_true_iff in Hguard as [Hv Ht]. rewrite (Hg Hv) in Ht. done. }
  assert (Hg : Http.token_guard v = true → truthy token = true).
  { intros Hv. rewrite Hv in Hguard. by destruct (truthy token). }
  pose proof (console_quiet (getTelegramChatId tbl lookup userId).2) as [Hq _].
  destruct (getTelegramChatId tbl lookup userId) as [chat log]. simpl in Hq.
  destruct (truthy chat) eqn:Hchat; cbn [negb fst snd].
  2: { rewrite (statuses_app (Http.console log)), Hq.
       split; [exists 403; split; [done|set_solver]|].
       split; [split; [done|]|done].
       intros (? & ? & ? & _ & _ & ? & _). congruence. }
  destruct axios as [result|message rd]; cbn [fst snd].
  2: { rewrite (statuses_app (Http.console log)), Hq. destruct rd; simpl.
       all: split; [exists 500; split; [done|set_solver]|].
       all: split; [split; [done|by intros (? & ? & ? & _ & _ & _ & ? & _)]|done]. }
  destruct (Http.telegramFileId result) as [[|c id]|] eqn:Hid;
    cbn [truthy negb fst snd].
  1, 3: rewrite (statuses_app (Http.console log)), Hq; simpl.
  1, 2: split; [exists 500; split; [done|set_solver]|].
  1, 2: split; [split; [done|]|done].
  1, 2: intros (? & ? & ? & _ & _ & _ & [= <-] & Hid' & Hne & _); congruence.
  destruct insert as [err|]; cbn [Http.insert_file fst snd].
  - rewrite (statuses_app (Http.console log)), Hq; simpl.
    split; [exists 500; split; [done|set_solver]|].
    split; [split; [done|by intros (? & ? & ? & _ & _ & _ & _ & _ & _ & ? & _)]|done].
  - rewrite (statuses_app (Http.console log)), Hq; simpl.
    split; [exists 201; split; [done|set_solver]|].
    split; [|done]. split; [|done]. intros _.
    exists f, result, (c :: id). by repeat split.
Qed.

(** The row an upload that answered 201 has added. *)
Lemma upload_outcome_row
    (v : Http.UploadVariant) (token : option jsstring)
    (tbl : Supabase.Table) (files : list Http.FileRow) (userId : jsstring)
    (file : option Http.File) (lookup : option Supabase.PostgrestError)
    (axios : Http.Axios) (insert : option Supabase.PostgrestError)
    (at_ : Z) :
  statuses (Http.upload_with v token tbl files userId file lookup axios
              insert at_).2 = [201] →
  ∃ f id,
    file = Some f
    ∧ (Http.upload_with v token tbl files userId file lookup axios
         insert at_).1
      = files ++ [{| Http.user_id := userId;
                     Http.telegram_file_id := id;
                     Http.original_filename := Http.originalname f;
                     Http.mime_type := Http.mimetype f;
                     Http.uploaded_at := at_ |}].
Proof.
  unfold Http.upload_with.
  destruct file as [f|]; [|done].
  destruct (Http.token_guard v && negb (truthy token)); [done|].
  pose proof (console_quiet (getTelegramChatId tbl lookup userId).2) as [Hq _].
  destruct (getTelegramChatId tbl lookup userId) as [chat log]. simpl in Hq.
  destruct (truthy chat); cbn [negb fst snd].
  2: { by rewrite (statuses_app (Http.console log)), Hq. }
  destruct axios as [result|message rd]; cbn [fst snd].
  2: { rewrite (statuses_app (Http.console log)), Hq. by destruct rd. }
  destruct (Http.telegramFileId result) as [[|c id]|];
    cbn [truthy negb fst snd].
  1, 3: by rewrite (statuses_app (Http.console log)), Hq.
  destruct insert as [err|]; cbn [Http.insert_file fst snd].
  - by rewrite (statuses_app (Http.console log)), Hq.
  - intros _. by exists f, (c :: id).
Qed.

(** X14: an upload sends at most one request to Telegram, and only for a
    user for whom the store returned a chat id that is not empty: the
    request goes to that chat, with the file of the request and its name
    in the caption.  Without a file, without a link, when the store fails
    to answer, or without the bot token where the handler checks it,
    nothing is sent. *)
Theorem upload_sends_to_linked_chat
    (v : Http.UploadVariant) (token : option jsstring)
    (tbl : Supabase.Table) (files : list Http.FileRow) (userId : jsstring)
    (file : option Http.File) (lookup : option Supabase.PostgrestError)
    (axios : Http.Axios) (insert : option Supabase.PostgrestError)
    (at_ : Z) :
  let r := Http.upload_with v token tbl files userId file lookup axios
             insert at_ in
  posts r.2 = []
  ∨ ∃ request f row,
      posts r.2 = [request]
      ∧ file = Some f
      ∧ lookup = None
      ∧ tbl !! userId = Some row
      ∧ Supabase.telegram_chat_id row ≠ []
      ∧ (Http.token_guard v = true → truthy token = true)
      ∧ Http.chat_id request = Supabase.telegram_chat_id row
      ∧ Http.document request = f
      ∧ Http.caption request
        = js (Http.caption_prefix v) ++ Http.originalname f.
Proof.
  unfold Http.upload_with. cbv zeta.
  destruct file as [f|]; [|by left].
  destruct (Http.token_guard v && negb (truthy token)) eqn:Hguard;
    [by left|].
  assert (Hg : Http.token_guard v = true → truthy token = true).
  { intros Hv. rewrite Hv in Hguard. by destruct (truthy token). }
  pose proof (getTelegramChatId_truthy tbl lookup userId) as Hlinked.
  pose proof (console_quiet (getTelegramChatId tbl lookup userId).2)
    as [_ Hq].
  destruct (getTelegramChatId tbl lookup userId) as [chat log].
  simpl in Hlinked, Hq.
  destruct (truthy chat) eqn:Hchat; cbn [negb fst snd].
  2: { left. by rewrite (posts_app (Http.console log)), Hq. }
  destruct (Hlinked eq_refl) as (-> & row & Hrow & -> & Hne).
  right.
  exists {| Http.url := js "https://api.telegram.org/bot" ++ template token
                          ++ js "/sendDocument";
            Http.chat_id := Supabase.telegram_chat_id row;
            Http.document := f;
            Http.caption := js (Http.caption_prefix v)
                              ++ Http.originalname f |}, f, row.
  split; [|by repeat split].
  cbn [template].
  destruct axios as [result|message rd]; cbn [fst snd].
  2: { rewrite (posts_app (Http.console log)), Hq. by destruct rd. }
  destruct (truthy (Http.telegramFileId result)); cbn [negb fst snd].
  2: { by rewrite (posts_app (Http.console log)), Hq. }
  destruct insert; cbn [Http.insert_file fst snd];
    by rewrite (posts_app (Http.console log)), Hq.
Qed.

(** X15: when Telegram has taken the file and the insert of its row
    fails, the upload answers 500 and the table [files] is as before,
    although the file was sent: the document stays in the chat without a
    row that points to it. *)
Theorem upload_without_row
    (v : Http.UploadVariant) (token : option jsstring)
    (tbl : Supabase.Table) (files : list Http.FileRow) (userId : jsstring)
    (f : Http.File) (result : Http.TgResult) (id : jsstring)
    (err : Supabase.PostgrestError) (at_ : Z) :
  (Http.token_guard v = true → truthy token = true) →
  truthy (getTelegramChatId tbl None userId).1 = true →
  Http.telegramFileId result = Some id → id ≠ [] →
  let r := Http.upload_with v token tbl files userId (Some f) None
             (Http.Resolved result) (Some err) at_ in
  statuses r.2 = [500]
  ∧ r.1 = files
  ∧ ∃ request, posts r.2 = [request] ∧ Http.document request = f.
Proof.
  intros Hg Hchat Hid Hne. unfold Http.upload_with. cbv zeta.
  assert (Http.token_guard v && negb (truthy token) = false) as ->.
  { destruct (Http.token_guard v); [|done]. by rewrite Hg. }
  pose proof (console_quiet (getTelegramChatId tbl None userId).2)
    as [Hq1 Hq2].
  destruct (getTelegramChatId tbl None userId) as [chat log].
  simpl in Hchat, Hq1, Hq2. rewrite Hchat, Hid; cbn [negb].
  destruct id as [|c id]; [done|]. cbn [truthy negb Http.insert_file fst snd].
  rewrite (statuses_app (Http.console log)), (posts_app (Http.console log)),
    Hq1, Hq2. simpl. split; [done|]. split; [done|]. eauto.
Qed.

Lemma upload_without_row_witness :
  let r := ServerRoutes.upload (Some (js "T")) linked [Requests.older] user42
             (Some Requests.cat_png) None (Http.Resolved Requests.two_sizes)
             (Some query_canceled) 2000 in
  Http.telegramFileId Requests.two_sizes = Some (js "AgAD-large")
  ∧ statuses r.2 = [500]
  ∧ r.1 = [Requests.older]
  ∧ ∃ request,
      posts r.2 = [request] ∧ Http.document request = Requests.cat_png.
Proof.
  intros r. split; [vm_compute; reflexivity|].
  apply (upload_without_row ServerRoutes.variant (Some (js "T")) linked
           [Requests.older] user42 Requests.cat_png Requests.two_sizes
           (js "AgAD-large") query_canceled 2000).
  - intros _. reflexivity.
  - vm_compute. reflexivity.
  - vm_compute. reflexivity.
  - discriminate.
Defined.

(** X16: the gallery of a user holds the rows of [files] whose [user_id]
    is that user, all of them and no others, the newest first; when the
    store fails it answers 500 and shows no rows.  This holds for both
    files; the handler of [part_000] adds whether the user is linked. *)
Theorem gallery_own_files
    (tbl : Supabase.Table) (files : list Http.FileRow) (userId : jsstring)
    (lookup : option Supabase.PostgrestError) :
  (∃ rows,
     ServerRoutes.gallery files userId None
     = [Http.Respond 200 (Http.Files rows)]
     ∧ (∃ log,
          PairingRoutes.gallery tbl files userId None lookup
          = log ++ [Http.Respond 200
                      (Http.FilesLinked rows
                         (truthy (getTelegramChatId tbl lookup userId).1))]
          ∧ statuses log = [])
     ∧ rows ≡ₚ filter (λ r, Http.user_id r = userId) files
     ∧ Sorted Http.newer rows
     ∧ Forall (λ r, Http.user_id r = userId) rows)
  ∧ (∀ err,
       statuses (ServerRoutes.gallery files userId (Some err)) = [500]
       ∧ statuses (PairingRoutes.gallery tbl files userId (Some err) lookup)
         = [500]).
Proof.
  split; [|done].
  exists (merge_sort Http.newer (filter (λ r, Http.user_id r = userId) files)).
  split; [done|]. split; [|split; [|split]].
  - unfold PairingRoutes.gallery, Http.select_files.
    pose proof (console_quiet (getTelegramChatId tbl lookup userId).2)
      as [Hq _].
    destruct (getTelegramChatId tbl lookup userId) as [chat log].
    cbn [fst snd] in *. by exists (Http.console log).
  - apply merge_sort_Permutation.
  - apply Sorted_merge_sort. intros r1 r2. unfold Http.newer. lia.
  - rewrite merge_sort_Permutation. apply Forall_forall.
    by intros r [? _]%list_elem_of_filter.
Qed.

(** X17: after an upload that answered 201, the gallery of the uploader
    holds one row more, the one of this file; the galleries of all other
    users are what they were. *)
Theorem upload_then_gallery
    (v : Http.UploadVariant) (token : option jsstring)
    (tbl : Supabase.Table) (files : list Http.FileRow) (userId : jsstring)
    (file : option Http.File) (lookup : option Supabase.PostgrestError)
    (axios : Http.Axios) (insert : option Supabase.PostgrestError)
    (at_ : Z) :
  let r := Http.upload_with v token tbl files userId file lookup axios
             insert at_ in
  statuses r.2 = [201] →
  (∃ f id rows rows',
     file = Some f
     ∧ ServerRoutes.gallery files userId None
       = [Http.Respond 200 (Http.Files rows)]
     ∧ ServerRoutes.gallery r.1 userId None
       = [Http.Respond 200 (Http.Files rows')]
     ∧ rows' ≡ₚ {| Http.user_id := userId;
                   Http.telegram_file_id := id;
                   Http.original_filename := Http.originalname f;
                   Http.mime_type := Http.mimetype f;
                   Http.uploaded_at := at_ |} :: rows)
  ∧ (∀ other, other ≠ userId →
       ServerRoutes.gallery r.1 other None
       = ServerRoutes.gallery files other None).
Proof.
  intros r H201.
  destruct (upload_outcome_row v token tbl files userId file lookup axios
              insert at_ H201) as (f & id & -> & Hr).
  fold r in Hr. rewrite Hr. split.
  - eexists f, id, _, _. split; [done|]. split; [done|]. split; [done|].
    cbn [default].
    rewrite !merge_sort_Permutation, filter_app, filter_cons_True by done.
    rewrite filter_nil. by rewrite Permutation_app_comm.
  - intros other Hne. unfold ServerRoutes.gallery; simpl.
    rewrite filter_app, filter_cons_False, filter_nil, app_nil_r;
      [done|]. simpl. congruence.
Qed.

Lemma upload_then_gallery_witness :
  let r := PairingRoutes.upload None linked [Requests.older] user42
             (Some Requests.cat_png) None (Http.Resolved Requests.two_sizes)
             None 2000 in
  statuses r.2 = [201]
  ∧ (∃ f id rows rows',
       Some Requests.cat_png = Some f
       ∧ ServerRoutes.gallery [Requests.older] user42 None
         = [Http.Respond 200 (Http.Files rows)]
       ∧ ServerRoutes.gallery r.1 user42 None
         = [Http.Respond 200 (Http.Files rows')]
       ∧ rows' ≡ₚ {| Http.user_id := user42;
                     Http.telegram_file_id := id;
                     Http.original_filename := Http.originalname f;
                     Http.mime_type := Http.mimetype f;
                     Http.uploaded_at := 2000 |} :: rows)
  ∧ (∀ other, other ≠ user42 →
       ServerRoutes.gallery r.1 other None
       = ServerRoutes.gallery [Requests.older] other None).
Proof.
  intros r.
  assert (H : statuses r.2 = [201]) by (vm_compute; reflexivity).
  split; [exact H|].
  exact (upload_then_gallery PairingRoutes.variant None linked
           [Requests.older] user42 (Some Requests.cat_png) None
           (Http.Resolved Requests.two_sizes) None 2000 H).
Defined.

(** ** Two users drawing the same code *)

Lemma timestamp_le_clock `{!CaseMapping} B U tbl0 t0 evs c e :
  linkingCodes (run B U (initial tbl0 t0) evs).1 !! c = Some e →
  timestamp e ≤ clock (run B U (initial tbl0 t0) evs).1.
Proof.
  revert c e. induction evs as [|ev evs IH] using rev_ind; intros c e.
  - simpl. by rewrite lookup_empty.
  - rewrite run_snoc. set (s := (run B U (initial tbl0 t0) evs).1) in *.
    destruct ev as [uid f rnd|text chat|i f|dt|ud se f];
      cbn [Pairing.step fst].
    + unfold link_initiate. destruct (getTelegramChatId _ _ _) as [ex log].
      destruct (truthy ex); simpl; [apply IH|].
      destruct (decide (generate rnd = c)) as [<-|Hne].
      * rewrite lookup_insert_eq. by intros [= <-].
      * rewrite lookup_insert_ne by done. apply IH.
    + unfold on_text.
      destruct (linkingCodes s !! toUpperCase (trim text)); apply IH.
    + unfold settle. destruct (awaiting s !! i) as [k|]; [|apply IH].
      destruct f; simpl; [apply IH|].
      intros [_ He]%lookup_delete_Some. by apply (IH c).
    + rewrite elapse_lookup. case_decide as Hdue; [done|].
      intros Hle%(IH c). unfold elapse; simpl. lia.
    + destruct (auth_telegram _ _ _ _ _ _). apply IH.
Qed.

(** X18: [initiate] does not look whether the code it drew is in the
    registry.  When a user without a link draws a code that is live for
    another user, the entry is overwritten: a message with that code now
    links the sender's chat to the second user and leaves the row of the
    first as it was; and the timer set for the first entry, still
    pending, deletes the second user's code when the first one's ten
    minutes are over, which is no later than its own. *)
Theorem code_taken_over `{!CaseMapping} B U tbl0 t0 evs
    (userB : jsstring) (randomBytes : Byte.byte * Byte.byte * Byte.byte)
    (eA : Entry) (text : jsstring) (chat_id : Z) :
  let s := (run B U (initial tbl0 t0) evs).1 in
  linkingCodes s !! generate randomBytes = Some eA →
  user_telegram_settings s !! userB = None →
  toUpperCase (trim text) = generate randomBytes →
  let s1 := (link_initiate s userB None randomBytes).1 in
  let s2 := (redeem s1 text chat_id None).1 in
  let dt := timestamp eA + TTL - clock s in
  linkingCodes s1 !! generate randomBytes
  = Some {| userId := userB; timestamp := clock s |}
  ∧ Supabase.telegram_chat_id <$> user_telegram_settings s2 !! userB
    = Some (Number_toString chat_id)
  ∧ (userId eA ≠ userB →
     user_telegram_settings s2 !! userId eA
     = user_telegram_settings s !! userId eA)
  ∧ 0 < dt ≤ TTL
  ∧ clock (elapse s1 dt) = timestamp eA + TTL
  ∧ linkingCodes (elapse s1 dt) !! generate randomBytes = None.
Proof.
  intros s HA HB Htext s1 s2 dt.
  destruct (live_codes_within_ttl B U tbl0 t0 evs _ _ HA) as [Htimer Hlt].
  pose proof (timestamp_le_clock B U tbl0 t0 evs _ _ HA) as Hle.
  fold s in Htimer, Hlt, Hle.
  destruct (link_initiate_unlinked s userB None randomBytes HB)
    as (Hcodes & Htimers & Hclock & Htbl & _).
  fold s1 in Hcodes, Htimers, Hclock, Htbl.
  assert (H1 : linkingCodes s1 !! toUpperCase (trim text)
               = Some {| userId := userB; timestamp := clock s |}).
  { by rewrite Htext, Hcodes, lookup_insert_eq. }
  split; [by rewrite <- Htext|].
  split; [apply (redeem_succeeds s1 text chat_id _ H1)|].
  split.
  { intros Hne. subst s2. rewrite (redeem_live _ _ _ _ _ H1); simpl.
    by rewrite lookup_insert_ne, Htbl by done. }
  split; [subst dt; lia|].
  split; [unfold elapse; simpl; rewrite Hclock; subst dt; lia|].
  rewrite elapse_lookup, decide_True; [done|].
  apply (list_elem_of_fmap_2 snd _ (timestamp eA + TTL, generate randomBytes)).
  apply list_elem_of_filter. split; [simpl; rewrite Hclock; subst dt; lia|].
  rewrite Htimers. apply elem_of_app. by left.
Qed.

Lemma code_taken_over_witness :
  let evs := [Initiate user42 None A3B9C4; Elapse 1000] in
  let s := (@run ascii_case None None (initial ∅ 0) evs).1 in
  let s1 := (@link_initiate ascii_case s (js "user-7") None A3B9C4).1 in
  let s2 := (@redeem ascii_case s1 (js "a3b9c4") 5 None).1 in
  linkingCodes s !! js "A3B9C4" = Some {| userId := user42; timestamp := 0 |}
  ∧ linkingCodes s1 !! js "A3B9C4"
    = Some {| userId := js "user-7"; timestamp := 1000 |}
  ∧ Supabase.telegram_chat_id <$> user_telegram_settings s2 !! js "user-7"
    = Some (js "5")
  ∧ user_telegram_settings s2 !! user42 = None
  ∧ linkingCodes (elapse s1 599000) !! js "A3B9C4" = None.
Proof.
  intros evs s s1 s2.
  assert (HA : linkingCodes s !! @generate ascii_case A3B9C4
               = Some {| userId := user42; timestamp := 0 |})
    by (vm_compute; reflexivity).
  destruct (@code_taken_over ascii_case None None ∅ 0 evs (js "user-7")
              A3B9C4 _ (js "a3b9c4") 5 HA)
    as (H1 & H2 & H3 & _ & _ & H4);
    [vm_compute; reflexivity | vm_compute; reflexivity |].
  split; [exact HA|]. split; [exact H1|]. split; [exact H2|].
  split; [|exact H4].
  etransitivity; [apply H3; vm_compute; discriminate|].
  vm_compute; reflexivity.
Defined.

(** ** [tunnel.js] *)

(** X19: [tunnel.js] calls [ngrok.connect] only when both
    [TELEGRAM_BOT_TOKEN] and [NGROK_AUTH_TOKEN] are set and not empty, then
    once, for port 8082 and with the ngrok token.  It ends the process,
    with code 1 and as the last thing it does, exactly when a token is
    missing or the connection fails.  When the tunnel is up, the console
    shows the link that sets the webhook: it holds the bot token in clear
    and the public URL followed by [/telegram/webhook]. *)
Theorem tunnel_guards
    (BOT_TOKEN NGROK_TOKEN : option jsstring)
    (connect : jsstring + jsstring) :
  let r := Tunnel.main BOT_TOKEN NGROK_TOKEN connect in
  (connects r = [] ∨ connects r = [(8082, NGROK_TOKEN)])
  ∧ (connects r ≠ []
     ↔ truthy BOT_TOKEN = true ∧ truthy NGROK_TOKEN = true)
  ∧ (exits r = [] ∨ (exits r = [1] ∧ last r = Some (Tunnel.Exit 1)))
  ∧ (exits r = []
     ↔ truthy BOT_TOKEN = true ∧ truthy NGROK_TOKEN = true
       ∧ ∃ url, connect = inl url)
  ∧ (∀ url token,
       connect = inl url → BOT_TOKEN = Some token → exits r = [] →
       js "  " ++ [0xD83D; 0xDC49]
         ++ js " https://api.telegram.org/bot" ++ token
         ++ js "/setWebhook?url=" ++ url ++ js "/telegram/webhook"
       ∈ Tunnel.console r).
Proof.
  unfold Tunnel.main.
  destruct (truthy BOT_TOKEN) eqn:Hb; cbn [negb].
  2: { cbn [connects exits omap last]. split; [by left|]. split; [split; [done|by intros []]|].
       split; [by right|]. split; [split; [done|by intros (? & _)]|].
       by intros. }
  destruct (truthy NGROK_TOKEN) eqn:Hn; cbn [negb].
  2: { cbn [connects exits omap last]. split; [by left|]. split; [split; [done|by intros []]|].
       split; [by right|]. split; [split; [done|by intros (_ & ? & _)]|].
       by intros. }
  destruct connect as [url|message];
    cbn [Tunnel.startTunnel connects exits omap last].
  - split; [by right|]. split; [done|]. split; [by left|].
    split; [split; [eauto|done]|].
    intros url' token [= <-] -> _.
    cbn [Tunnel.console omap Tunnel.telegramSetWebhookUrl template].
    apply (list_elem_of_lookup_2 _ 5%nat). cbn [lookup list_lookup].
    reflexivity.
  - split; [by right|]. split; [done|]. split; [by right|].
    split; [split; [done|by intros (_ & _ & ? & ?)]|].
    by intros.
Qed.

Lemma tunnel_guards_witness :
  let r := Tunnel.main (Some (js "123:ABC")) (Some (js "ng-1"))
             (inl (js "https://x.ngrok.io")) in
  exits r = []
  ∧ js "  " ++ [0xD83D; 0xDC49]
      ++ js " https://api.telegram.org/bot" ++ js "123:ABC"
      ++ js "/setWebhook?url=" ++ js "https://x.ngrok.io"
      ++ js "/telegram/webhook"
    ∈ Tunnel.console r.
Proof.
  intros r.
  destruct (tunnel_guards (Some (js "123:ABC")) (Some (js "ng-1"))
              (inl (js "https://x.ngrok.io"))) as (_ & _ & _ & _ & H).
  assert (He : exits r = []) by (vm_compute; reflexivity).
  split; [exact He|]. exact (H _ _ eq_refl eq_refl He).
Defined.
